(** * Medium feed ingestion and the blog REST endpoints

    A shallow embedding of
    - [backend/services/mediumService.js] (feed parsing and [syncArticles]),
    - [backend/models/BlogPost.js] (schema, [pre('save')] hook,
      [getFeatured], [incrementViews]),
    - the blog controller ([getBlogPosts], [getBlogPost], [updateBlogPost]),
    together with the properties stated about them; and, for the further
    properties of Part IV, of the [timeAgo] virtual and [getPublished] of
    the model and of the admin endpoints of the controller
    ([syncMediumArticles], [getSyncStatus], [getBlogStats],
    [deleteBlogPost]).

    Conventions.
    - A JavaScript string is a [string]: one [ascii] per UTF-16 code unit,
      for the code units below 256.
    - A [Date] is an [option Z]: milliseconds since the epoch, [None] for
      an invalid date (time value NaN).
    - Counters ([views], [likes], [readingTime]) are integers in the range
      where JavaScript numbers are exact.
    - The collection is a [gmap] from [_id] to the stored document.
    - An [await] is a call; the calls of one request run in sequence.
      Logging changes nothing that is modelled and is left out. *)

From Stdlib Require Import ZArith String Ascii List Lia Bool Permutation.
From Stdlib Require Import Sorted DecimalString.
From stdpp Require Import gmap strings list fin_maps.
Import ListNotations.

#[local] Open Scope string_scope.
#[local] Open Scope Z_scope.

(** * Part I.  The program *)

(** ** JavaScript values *)

#[local] Set Warnings "-register-all".

Inductive JsVal :=
| JUndefined
| JNull
| JBool (b : bool)
| JNum (n : Z)
| JStr (s : string)
| JArr (l : list JsVal)
| JObj.

(** [!!v] *)
Definition truthy (v : JsVal) : bool :=
  match v with
  | JUndefined | JNull => false
  | JBool b => b
  | JNum n => negb (n =? 0)
  | JStr s => negb (String.eqb s "")
  | JArr _ | JObj => true
  end.

(** [a || b] *)
Definition js_or (a b : JsVal) : JsVal := if truthy a then a else b.

(** A thrown value: an [Error] with its [name] and [message]. *)
Record Exn := mkExn { exn_name : string; exn_message : string }.

Inductive Res (A : Type) :=
| Ok (a : A)
| Throw (e : Exn).
Arguments Ok {A} a.
Arguments Throw {A} e.

Definition TypeError (msg : string) : Exn := mkExn "TypeError" msg.
Definition Error (msg : string) : Exn := mkExn "Error" msg.

(** ** String primitives *)

Module JsString.

Definition code (c : ascii) : N := N_of_ascii c.

Definition between (lo hi : N) (c : ascii) : bool :=
  ((lo <=? code c) && (code c <=? hi))%N.

(** [\s] on the code units below 256: TAB, LF, VT, FF, CR, SP, NBSP. *)
Definition isSpace (c : ascii) : bool :=
  between 9 13 c || (code c =? 32)%N || (code c =? 160)%N.

Definition isDigit (c : ascii) : bool := between 48 57 c.
Definition isLower (c : ascii) : bool := between 97 122 c.
Definition isUpper (c : ascii) : bool := between 65 90 c.
Definition isAlnum (c : ascii) : bool := isLower c || isUpper c || isDigit c.

(** [[a-f0-9]] *)
Definition isHex (c : ascii) : bool := between 97 102 c || isDigit c.

Fixpoint filter (f : ascii -> bool) (s : string) : string :=
  match s with
  | EmptyString => EmptyString
  | String c r => if f c then String c (filter f r) else filter f r
  end.

Fixpoint all (f : ascii -> bool) (s : string) : bool :=
  match s with
  | EmptyString => true
  | String c r => f c && all f r
  end.

Fixpoint map (f : ascii -> ascii) (s : string) : string :=
  match s with
  | EmptyString => EmptyString
  | String c r => String (f c) (map f r)
  end.

Definition isEmpty (s : string) : bool :=
  match s with EmptyString => true | _ => false end.

(** [s.substring(0, n)] *)
Definition substring0 (n : nat) (s : string) : string := String.substring 0 n s.

(** [s.toLowerCase()]: A-Z, and the Latin-1 capitals except the
    multiplication sign. *)
Definition lowerChar (c : ascii) : ascii :=
  if isUpper c || (between 192 222 c && negb (code c =? 215)%N)
  then ascii_of_N (code c + 32) else c.

Definition toLowerCase (s : string) : string := map lowerChar s.

Fixpoint trimStart (s : string) : string :=
  match s with
  | EmptyString => EmptyString
  | String c r => if isSpace c then trimStart r else s
  end.

Fixpoint trimEnd (s : string) : string :=
  match s with
  | EmptyString => EmptyString
  | String c r =>
      let r' := trimEnd r in
      if isSpace c && isEmpty r' then EmptyString else String c r'
  end.

(** [s.trim()] *)
Definition trim (s : string) : string := trimEnd (trimStart s).

Definition isGt (c : ascii) : bool := (code c =? 62)%N.
Definition isLt (c : ascii) : bool := (code c =? 60)%N.
Definition isSlash (c : ascii) : bool := (code c =? 47)%N.
Definition isQuote (c : ascii) : bool := (code c =? 34)%N.

(** [s.replace(/<[^>]*>/g, '')].  Outside a tag a [<] opens a match only
    when a [>] follows somewhere; without one no later match exists either
    and the remainder is kept.  Inside, everything up to the first [>] is
    dropped. *)
Fixpoint stripFrom (inTag : bool) (s : string) : string :=
  match s with
  | EmptyString => EmptyString
  | String c r =>
      if inTag then
        if isGt c then stripFrom false r else stripFrom true r
      else if isLt c then
        if all (fun d => negb (isGt d)) r then s else stripFrom true r
      else String c (stripFrom false r)
  end.

Definition stripTags (s : string) : string := stripFrom false s.

(** [s.split(/\s+/)]: every maximal run of white space is one separator;
    the pieces before the first and after the last separator are kept even
    when empty, and the empty string gives one empty piece. *)
Fixpoint splitFrom (inRun : bool) (s : string) : list string :=
  match s with
  | EmptyString => [EmptyString]
  | String c r =>
      if isSpace c then
        if inRun then splitFrom true r else EmptyString :: splitFrom true r
      else
        match splitFrom false r with
        | w :: ws => String c w :: ws
        | [] => [String c EmptyString]
        end
  end.

Definition splitWhitespace (s : string) : list string := splitFrom false s.

(** [s.split(',')] *)
Fixpoint splitComma (s : string) : list string :=
  match s with
  | EmptyString => [EmptyString]
  | String c r =>
      if (code c =? 44)%N then EmptyString :: splitComma r
      else match splitComma r with
           | w :: ws => String c w :: ws
           | [] => [String c EmptyString]
           end
  end.

Fixpoint stripPrefix (p s : string) : option string :=
  match p, s with
  | EmptyString, _ => Some s
  | String a p', String b s' =>
      if Ascii.eqb a b then stripPrefix p' s' else None
  | String _ _, EmptyString => None
  end.

Fixpoint takeWhile (f : ascii -> bool) (s : string) : string :=
  match s with
  | EmptyString => EmptyString
  | String c r => if f c then String c (takeWhile f r) else EmptyString
  end.

Fixpoint dropWhile (f : ascii -> bool) (s : string) : string :=
  match s with
  | EmptyString => EmptyString
  | String c r => if f c then dropWhile f r else s
  end.

(** The text after the last [/], if there is one. *)
Fixpoint afterLastSlash (s : string) : option string :=
  match s with
  | EmptyString => None
  | String c r =>
      match afterLastSlash r with
      | Some t => Some t
      | None => if isSlash c then Some r else None
      end
  end.

(** [s.match(/\/([a-f0-9]+)$/)], group 1.  A hex digit is never a slash,
    so only the last slash can start a match that reaches the end. *)
Definition matchTrailingHex (s : string) : option string :=
  match afterLastSlash s with
  | Some t => if negb (isEmpty t) && all isHex t then Some t else None
  | None => None
  end.

(** *** [Buffer.from(s).toString('base64')] *)

(** UTF-8 of a code unit below 256. *)
Definition utf8 (c : ascii) : list N :=
  if (code c <? 128)%N then [code c]
  else [(192 + code c / 64)%N; (128 + code c mod 64)%N].

Fixpoint utf8Bytes (s : string) : list N :=
  match s with
  | EmptyString => []
  | String c r => utf8 c ++ utf8Bytes r
  end.

Definition b64Alphabet : string :=
  "ABCDEFGHIJKLMNOPQRSTUVWXYZabcdefghijklmnopqrstuvwxyz0123456789+/".

Definition b64Digit (n : N) : ascii :=
  match String.get (N.to_nat n) b64Alphabet with
  | Some c => c
  | None => "="%char
  end.

Fixpoint base64 (bs : list N) : string :=
  match bs with
  | [] => EmptyString
  | [a] =>
      String (b64Digit (a / 4))
        (String (b64Digit (a mod 4 * 16)) "==")
  | [a; b] =>
      String (b64Digit (a / 4))
        (String (b64Digit (a mod 4 * 16 + b / 16))
           (String (b64Digit (b mod 16 * 4)) "="))
  | a :: b :: c :: r =>
      String (b64Digit (a / 4))
        (String (b64Digit (a mod 4 * 16 + b / 16))
           (String (b64Digit (b mod 16 * 4 + c / 64))
              (String (b64Digit (c mod 64)) (base64 r))))
  end%N.

(** *** The image pattern of [parseMediumArticle]: the literal <img, then
    one or more characters other than >, then src= and a quoted string of
    one or more characters other than quote and >; group 1 is the quoted
    text. *)

(** The src= part anchored at the start of [s]: the capture is the
    maximal run without quote or >, it is not empty and a quote ends
    it. *)
Definition srcAt (s : string) : option string :=
  match stripPrefix "src=" s with
  | Some (String q r) =>
      if isQuote q then
        let url := takeWhile (fun c => negb (isQuote c || isGt c)) r in
        match dropWhile (fun c => negb (isQuote c || isGt c)) r with
        | String q' _ => if isQuote q' && negb (isEmpty url) then Some url else None
        | EmptyString => None
        end
      else None
  | _ => None
  end.

(** The run before src= is greedy: among the positions reachable without crossing a
    [>], the last one where [srcAt] succeeds wins. *)
Fixpoint lastSrc (s : string) : option string :=
  match s with
  | EmptyString => None
  | String c r =>
      if isGt c then None
      else match lastSrc r with
           | Some u => Some u
           | None => srcAt s
           end
  end.

(** The pattern anchored at the start of [s]; the run before src= takes at
    least one character. *)
Definition imgAt (s : string) : option string :=
  match stripPrefix "<img" s with
  | Some (String c r) => if isGt c then None else lastSrc r
  | _ => None
  end.

(** Leftmost match. *)
Fixpoint matchImgSrc (s : string) : option string :=
  match imgAt s with
  | Some u => Some u
  | None => match s with
            | EmptyString => None
            | String _ r => matchImgSrc r
            end
  end.

(** [s.replace(/[^a-z0-9]+/g, '-')] *)
Fixpoint dashRuns (inRun : bool) (s : string) : string :=
  match s with
  | EmptyString => EmptyString
  | String c r =>
      if isLower c || isDigit c then String c (dashRuns false r)
      else if inRun then dashRuns true r
      else String "-" (dashRuns true r)
  end.

Definition isDash (c : ascii) : bool := (code c =? 45)%N.

Fixpoint dropLastDash (s : string) : string :=
  match s with
  | EmptyString => EmptyString
  | String c EmptyString => if isDash c then EmptyString else s
  | String c r => String c (dropLastDash r)
  end.

(** [s.replace(/(^-|-$)/g, '')]: one dash at the start and one at the end.
    A lone dash is consumed by the first alternative. *)
Definition trimDashes (s : string) : string :=
  match s with
  | String c r => if isDash c then dropLastDash r else dropLastDash s
  | EmptyString => EmptyString
  end.

End JsString.

(** ** Data model *)

Definition Date := option Z.

(** [a > b] on dates: false as soon as one side is invalid. *)
Definition date_gt (a b : Date) : bool :=
  match a, b with
  | Some x, Some y => y <? x
  | _, _ => false
  end.

(** An item of the parsed feed, with the custom fields of the constructor
    ([content:encoded], [dc:creator]). *)
Record Item := mkItem {
  item_content : JsVal;
  item_content_encoded : JsVal;
  item_contentSnippet : JsVal;
  item_title : JsVal;
  item_creator : JsVal;
  item_dc_creator : JsVal;
  item_link : JsVal;
  item_guid : JsVal;
  item_pubDate : JsVal;
  item_isoDate : JsVal;
  item_categories : JsVal
}.

Inductive SyncStatus := synced | pending | failed.
Inductive Status := published | draft | archived.

#[global] Instance SyncStatus_eq_dec : EqDecision SyncStatus.
Proof. solve_decision. Defined.
#[global] Instance Status_eq_dec : EqDecision Status.
Proof. solve_decision. Defined.

(** The object literal returned by [parseMediumArticle]. *)
Record ArticleData := mkArticleData {
  ad_mediumId : option string;
  ad_title : string;
  ad_description : string;
  ad_content : string;
  ad_excerpt : string;
  ad_author : JsVal;
  ad_mediumUrl : JsVal;
  ad_imageUrl : option string;
  ad_publishedAt : Date;
  ad_readingTime : Z;
  ad_tags : list string;
  ad_categories : list string;
  ad_lastSyncedAt : Z;
  ad_syncStatus : SyncStatus
}.

(** A stored document of [blogPostSchema]; [createdAt] and [updatedAt] come
    from [timestamps: true]. *)
Record Post := mkPost {
  mediumId : string;
  title : string;
  slug : string;
  description : string;
  content : string;
  excerpt : option string;
  author : JsVal;
  tags : list string;
  categories : list string;
  mediumUrl : JsVal;
  imageUrl : option string;
  publishedAt : Date;
  readingTime : Z;
  status : Status;
  featured : bool;
  views : Z;
  likes : Z;
  metaTitle : option string;
  metaDescription : option string;
  lastSyncedAt : Z;
  syncStatus : SyncStatus;
  createdAt : Z;
  updatedAt : Z
}.

(** ** What the program takes from its platform

    The JavaScript engine, express-validator and the Mongoose driver are
    not part of the repository; the development is parametric in them. *)

Class Runtime := {
  (** [new Date(s).getTime()] for a string, [None] for NaN *)
  Date_parse : string -> Date;
  (** [new Date(v).getTime()] for an array or another object *)
  Date_coerce : JsVal -> Date;
  (** the clock reading that follows a reading of [t] *)
  tick : Z -> Z;
  (** [parseInt(v)] for a string or an array, [None] for NaN *)
  parseInt_text : JsVal -> option Z;
  (** [v == 1] for a string or an array *)
  looseEq1_text : JsVal -> bool;
  (** [new RegExp(v, 'i')] does not throw *)
  RegExp_valid : JsVal -> bool;
  (** the pattern [v], case-insensitive, matches somewhere in the text *)
  RegExp_test_i : JsVal -> string -> bool;
  (** the messages express-validator reports for the rules of
      [blogUpdateValidation] on a request body *)
  validationResult : gmap string JsVal -> list string
}.

(** ** [mediumService.js]: parsing *)

Section Parsing.
Context {E : Runtime}.
Import JsString.

(** [generateMediumId(guid)] *)
Definition generateMediumId (guid : JsVal) : Res (option string) :=
  if negb (truthy guid) then Ok None
  else match guid with
       | JStr g =>
           match matchTrailingHex g with
           | Some id => Ok (Some id)
           | None =>
               Ok (Some (substring0 12 (filter isAlnum (base64 (utf8Bytes g)))))
           end
       | _ => Throw (TypeError "guid.match is not a function")
       end.

(** The identifier when [!mediumId] is false. *)
Definition usableId (o : option string) : option string :=
  match o with
  | Some s => if isEmpty s then None else Some s
  | None => None
  end.

(** The external identifier an item leads to, if any. *)
Definition derivedId (item : Item) : option string :=
  match generateMediumId (js_or (item_guid item) (item_link item)) with
  | Ok o => usableId o
  | Throw _ => None
  end.

(** [cat.toLowerCase().trim()] on the entries that pass
    [typeof cat === 'string'] *)
Fixpoint lowerTrimStrings (l : list JsVal) : list string :=
  match l with
  | [] => []
  | JStr s :: r => trim (toLowerCase s) :: lowerTrimStrings r
  | _ :: r => lowerTrimStrings r
  end.

(** [extractTags(categories)] *)
Definition extractTags (categories : JsVal) : list string :=
  match categories with
  | JArr l => firstn 10 (lowerTrimStrings l)
  | _ => []
  end.

(** [extractCategories(categories)] *)
Definition extractCategories (categories : JsVal) : list string :=
  firstn 5 (extractTags categories).

(** [v?.trim()]: [undefined] on [null] and [undefined], the trimmed string
    on a string, a TypeError on anything else (no [trim] method). *)
Definition optTrim (field : string) (v : JsVal) : Res JsVal :=
  match v with
  | JUndefined | JNull => Ok JUndefined
  | JStr s => Ok (JStr (trim s))
  | _ => Throw (TypeError (field ++ "?.trim is not a function"))
  end.

Definition bindRes {A B} (r : Res A) (f : A -> Res B) : Res B :=
  match r with
  | Ok a => f a
  | Throw e => Throw e
  end.

(** [new Date(v)] for the values a feed field takes. *)
Definition newDate (v : JsVal) : Date :=
  match v with
  | JUndefined => None
  | JNull => Some 0
  | JBool b => Some (if b then 1 else 0)
  | JNum n => if Z.abs n <=? 8640000000000000 then Some n else None
  | JStr s => Date_parse s
  | JArr _ | JObj => Date_coerce v
  end.

(** [Math.ceil(n / 200)] for an integer [n >= 0] *)
Definition ceilDiv200 (n : Z) : Z := (n + 199) / 200.

(** The [try] block of [parseMediumArticle]; [now] is the reading of
    [new Date()]. *)
Definition parseBody (now : Z) (item : Item) : Res ArticleData :=
  let content :=
    js_or (js_or (item_content item) (item_content_encoded item)) (JStr "") in
  match content with
  | JStr content =>
      let plainTextContent := stripTags content in
      let wordCount := Z.of_nat (List.length (splitWhitespace plainTextContent)) in
      let readingTime := ceilDiv200 wordCount in
      let imageUrl := matchImgSrc content in
      bindRes (generateMediumId (js_or (item_guid item) (item_link item)))
        (fun mediumId =>
      bindRes (optTrim "item.title" (item_title item)) (fun t =>
      bindRes (optTrim "item.contentSnippet" (item_contentSnippet item)) (fun d =>
      Ok {| ad_mediumId := mediumId;
            ad_title := match js_or t (JStr "Untitled") with
                        | JStr x => x | _ => "Untitled" end;
            ad_description :=
              match js_or d (JStr (substring0 500 plainTextContent)) with
              | JStr x => x | _ => substring0 500 plainTextContent end;
            ad_content := content;
            ad_excerpt := substring0 300 plainTextContent;
            ad_author :=
              js_or (js_or (item_creator item) (item_dc_creator item))
                (JStr "Mukesh Rawat");
            ad_mediumUrl := item_link item;
            ad_imageUrl := imageUrl;
            ad_publishedAt := newDate (js_or (item_pubDate item) (item_isoDate item));
            ad_readingTime := readingTime;
            ad_tags := extractTags (js_or (item_categories item) (JArr []));
            ad_categories := extractCategories (js_or (item_categories item) (JArr []));
            ad_lastSyncedAt := now;
            ad_syncStatus := synced |})))
  | _ => Throw (TypeError "content.replace is not a function")
  end.

(** [parseMediumArticle(item)]: the [catch] rethrows with a prefixed
    message. *)
Definition parseMediumArticle (now : Z) (item : Item) : Res ArticleData :=
  match parseBody now item with
  | Ok a => Ok a
  | Throw e => Throw (Error ("Failed to parse article: " ++ exn_message e))
  end.

End Parsing.

(** ** The store and the effects *)

(** The decimal form of a whole number, as [String(n)] and a template
    literal give it. *)
Definition showInt (z : Z) : string := NilZero.string_of_int (Z.to_int z).

(** The collection, the clock, the service's busy flag, and the two counters
    local to a call of [syncArticles]. *)
Record World := mkWorld {
  docs : gmap nat Post;
  clock : Z;
  syncInProgress : bool;
  syncedCount : nat;
  errorCount : nat
}.

Definition set_docs (d : gmap nat Post) (w : World) : World :=
  mkWorld d (clock w) (syncInProgress w) (syncedCount w) (errorCount w).
Definition set_clock (t : Z) (w : World) : World :=
  mkWorld (docs w) t (syncInProgress w) (syncedCount w) (errorCount w).
Definition set_syncInProgress (b : bool) (w : World) : World :=
  mkWorld (docs w) (clock w) b (syncedCount w) (errorCount w).
Definition set_counts (s e : nat) (w : World) : World :=
  mkWorld (docs w) (clock w) (syncInProgress w) s e.

(** A computation changes the world and returns or throws; what it did
    before throwing stays done. *)
Definition M (A : Type) : Type := World -> World * Res A.

Definition ret {A} (a : A) : M A := fun w => (w, Ok a).
Definition throw {A} (e : Exn) : M A := fun w => (w, Throw e).
Definition bind {A B} (m : M A) (f : A -> M B) : M B :=
  fun w => match m w with
           | (w', Ok a) => f a w'
           | (w', Throw e) => (w', Throw e)
           end.
Definition lift {A} (r : Res A) : M A := fun w => (w, r).

(** [try { m } catch (e) { h e }] *)
Definition try_catch {A} (m : M A) (h : Exn -> M A) : M A :=
  fun w => match m w with
           | (w', Ok a) => (w', Ok a)
           | (w', Throw e) => h e w'
           end.

(** [try { m } finally { f }] for an [f] that completes normally *)
Definition try_finally {A} (m : M A) (f : World -> World) : M A :=
  fun w => match m w with (w', r) => (f w', r) end.

Definition get : M World := fun w => (w, Ok w).
Definition modify (f : World -> World) : M unit := fun w => (f w, Ok tt).

Declare Scope js_scope.
Delimit Scope js_scope with js.
Notation "x <- m ;; k" := (bind m (fun x => k))
  (at level 100, m at next level, right associativity) : js_scope.
Notation "m ;;; k" := (bind m (fun _ => k))
  (at level 100, right associativity) : js_scope.

(** A query document: the conjunction of its entries. *)
Inductive TextField := f_title | f_description | f_content.

Inductive Filter :=
| FStatus (s : Status)
| FFeatured (b : bool)
| FIdNe (id : nat)
| FTagsIn (l : list string)
| FCategoriesIn (l : list string)
| FRegex (f : TextField) (pattern : JsVal)
| FTagsInRegex (pattern : JsVal)
| FOr (alternatives : list Filter).

(** The calls made on the model, as the driver sees them; an update is
    described by the key and the document it would leave, if the key is
    there. *)
Inductive DbCall :=
| CallFindOne_mediumId (mid : string)
| CallFindOne_slug (s : string)
| CallFindByIdAndUpdate (id : nat) (after : option Post)
| CallFindOneAndUpdate (mid : string)
| CallSave (id : nat) (after : Post)
| CallFind (q : list Filter)
| CallCountDocuments (q : list Filter).

Class MongoDriver := {
  (** the rejection of a call, if any: validation, cast, duplicate key,
      connection *)
  db_fault : DbCall -> gmap nat Post -> option Exn;
  (** [cursor.sort(spec)] *)
  cursor_sort : JsVal -> list (nat * Post) -> list (nat * Post);
  cursor_sort_perm : forall spec l, Permutation (cursor_sort spec l) l;
  (** [cursor.limit(l).skip(k)], the arguments [None] for NaN *)
  cursor_window :
    option Z -> option Z -> list (nat * Post) -> Res (list (nat * Post));
  cursor_window_incl : forall l k xs ys,
    cursor_window l k xs = Ok ys -> incl ys xs;
  cursor_window_regular : forall l k xs,
    0 < l -> 0 <= k ->
    cursor_window (Some l) (Some k) xs
    = Ok (firstn (Z.to_nat l) (skipn (Z.to_nat k) xs));
  (** [req.params.id] as a key, if it is well formed *)
  castObjectId : string -> option nat
}.

Section Model.
Context {E : Runtime} {D : MongoDriver}.
Import JsString.
#[local] Open Scope js_scope.

(** [new Date()] and [Date.now()] *)
Definition Date_now : M Z :=
  fun w => (set_clock (tick (clock w)) w, Ok (clock w)).

(** A call reaches the collection unless the driver rejects it. *)
Definition db_call (c : DbCall) : M unit :=
  fun w => match db_fault c (docs w) with
           | Some e => (w, Throw e)
           | None => (w, Ok tt)
           end.

(** First document that satisfies [f]. *)
Definition findFirst (f : Post -> bool) (m : gmap nat Post) : option (nat * Post) :=
  List.find (fun kp => f (snd kp)) (map_to_list m).

Definition has_mediumId (mid : string) (p : Post) : bool :=
  String.eqb (mediumId p) mid.

(** [BlogPost.findOne({ mediumId })] *)
Definition BlogPost_findOne_mediumId (mid : string) : M (option (nat * Post)) :=
  db_call (CallFindOne_mediumId mid) ;;;
  w <- get ;;
  ret (findFirst (has_mediumId mid) (docs w)).

(** Mongoose's cast of a value for a String path of an update: a key whose
    value is [undefined] is left out of [$set] ([None]); [null] stays;
    a number or a boolean takes its string form; an array or a plain
    object has none and is a CastError. *)
Definition castString (path : string) (v : JsVal) : Res (option JsVal) :=
  match v with
  | JUndefined => Ok None
  | JNull => Ok (Some JNull)
  | JStr s => Ok (Some (JStr s))
  | JNum n => Ok (Some (JStr (showInt n)))
  | JBool b => Ok (Some (JStr (if b then "true" else "false")))
  | JArr _ | JObj =>
      Throw (mkExn "CastError" ("Cast to string failed for path " ++ path))
  end.

(** What the cast leaves of the three keys of [articleData] that are not
    of their path's type by construction. *)
Record UpdateSet := mkUpdateSet {
  set_author : option JsVal;
  set_mediumUrl : option JsVal;
  set_publishedAt : Z
}.

(** The cast of [{ ...articleData, views, likes, featured }] against the
    schema, in the order of the keys; it precedes the call to the
    database.  An Invalid Date is a CastError. *)
Definition castUpdate (ad : ArticleData) : Res UpdateSet :=
  bindRes (castString "author" (ad_author ad)) (fun a =>
  bindRes (castString "mediumUrl" (ad_mediumUrl ad)) (fun u =>
  match ad_publishedAt ad with
  | Some t => Ok (mkUpdateSet a u t)
  | None => Throw (mkExn "CastError" "Cast to date failed for path publishedAt")
  end)).

Definition orKeep (o : option JsVal) (stored : JsVal) : JsVal :=
  match o with
  | Some v => v
  | None => stored
  end.

(** What [$set: { ...articleData, views, likes, featured }], once cast,
    leaves of the stored document [p]: the schema's [trim] setters apply,
    a key left out of [$set] keeps the stored value, and [timestamps]
    stamps [updatedAt]. *)
Definition syncUpdate (ad : ArticleData) (c : UpdateSet) (mid : string)
    (views0 likes0 : Z) (featured0 : bool) (stamp : Z) (p : Post) : Post :=
  {| mediumId := mid;
     title := trim (ad_title ad);
     slug := slug p;
     description := trim (ad_description ad);
     content := ad_content ad;
     excerpt := Some (ad_excerpt ad);
     author := orKeep (set_author c) (author p);
     tags := List.map trim (ad_tags ad);
     categories := List.map trim (ad_categories ad);
     mediumUrl := orKeep (set_mediumUrl c) (mediumUrl p);
     imageUrl := ad_imageUrl ad;
     publishedAt := Some (set_publishedAt c);
     readingTime := ad_readingTime ad;
     status := status p;
     featured := featured0;
     views := views0;
     likes := likes0;
     metaTitle := metaTitle p;
     metaDescription := metaDescription p;
     lastSyncedAt := ad_lastSyncedAt ad;
     syncStatus := ad_syncStatus ad;
     createdAt := createdAt p;
     updatedAt := stamp |}.

(** [BlogPost.findByIdAndUpdate(id, update)].  The update is cast first: a
    cast error is thrown before anything is sent.  Nothing happens when no
    document has the key. *)
Definition BlogPost_findByIdAndUpdate (id : nat)
    (update : Res (Z -> Post -> Post)) : M unit :=
  upd <- lift update ;;
  stamp <- Date_now ;;
  w <- get ;;
  db_call (CallFindByIdAndUpdate id (upd stamp <$> docs w !! id)) ;;;
  match docs w !! id with
  | Some p => modify (set_docs (<[id := upd stamp p]> (docs w)))
  | None => ret tt
  end.

(** The slug the [pre('save')] hook derives from a modified title when the
    document has none. *)
Definition slugify (t : string) : string :=
  trimDashes (dashRuns false (toLowerCase t)).

Definition orElse (o : option string) (d : string) : option string :=
  match o with
  | Some s => if isEmpty s then Some d else Some s
  | None => Some d
  end.

(** [BlogPost.create(articleData)].  The record has no [slug]; the path is
    [required], and a new document is validated before its [pre('save')]
    hook, which would derive the slug, runs.  The call is rejected for
    every record, and nothing is sent to the database. *)
Definition BlogPost_create (ad : ArticleData) : M unit :=
  throw (mkExn "ValidationError"
           "BlogPost validation failed: slug: Path `slug` is required.").

Definition markFailed (now stamp : Z) (p : Post) : Post :=
  {| mediumId := mediumId p; title := title p; slug := slug p;
     description := description p; content := content p;
     excerpt := excerpt p; author := author p; tags := tags p;
     categories := categories p; mediumUrl := mediumUrl p;
     imageUrl := imageUrl p; publishedAt := publishedAt p;
     readingTime := readingTime p; status := status p;
     featured := featured p; views := views p; likes := likes p;
     metaTitle := metaTitle p; metaDescription := metaDescription p;
     lastSyncedAt := now;
     syncStatus := failed;
     createdAt := createdAt p;
     updatedAt := stamp |}.

(** [BlogPost.findOneAndUpdate({ mediumId }, { syncStatus: 'failed',
    lastSyncedAt: new Date() }, { upsert: false })] *)
Definition BlogPost_markFailed (mid : string) : M unit :=
  now <- Date_now ;;
  stamp <- Date_now ;;
  db_call (CallFindOneAndUpdate mid) ;;;
  w <- get ;;
  match findFirst (has_mediumId mid) (docs w) with
  | Some (id, p) => modify (set_docs (<[id := markFailed now stamp p]> (docs w)))
  | None => ret tt
  end.

Definition DAY_MS : Z := 24 * 60 * 60 * 1000.

Definition bump_synced : M unit :=
  modify (fun w => set_counts (S (syncedCount w)) (errorCount w) w).
Definition bump_error : M unit :=
  modify (fun w => set_counts (syncedCount w) (S (errorCount w)) w).

(** The condition of the update branch, left to right. *)
Definition needsUpdate (ad : ArticleData) (existing : Post) : M bool :=
  if date_gt (ad_publishedAt ad) (publishedAt existing)
     || bool_decide (syncStatus existing = failed)
  then ret true
  else (now <- Date_now ;;
        ret (DAY_MS <? now - lastSyncedAt existing)).

(** The inner [try] block of the loop body. *)
Definition syncItemTry (item : Item) : M unit :=
  now <- Date_now ;;
  articleData <- lift (parseMediumArticle now item) ;;
  match usableId (ad_mediumId articleData) with
  | None => ret tt
  | Some mid =>
      existingArticle <- BlogPost_findOne_mediumId mid ;;
      match existingArticle with
      | Some (id, existing) =>
          go <- needsUpdate articleData existing ;;
          if go : bool then
            BlogPost_findByIdAndUpdate id
              (bindRes (castUpdate articleData) (fun c =>
               Ok (syncUpdate articleData c mid (views existing)
                     (likes existing) (featured existing)))) ;;;
            bump_synced
          else ret tt
      | None =>
          BlogPost_create articleData ;;;
          bump_synced
      end
  end.

(** The inner [catch] block. *)
Definition syncItemCatch (item : Item) : M unit :=
  bump_error ;;;
  try_catch
    (now <- Date_now ;;
     articleData <- lift (parseMediumArticle now item) ;;
     match usableId (ad_mediumId articleData) with
     | Some mid => BlogPost_markFailed mid
     | None => ret tt
     end)
    (fun markError => ret tt).

(** One iteration of [for (const item of mediumArticles)] *)
Definition syncItem (item : Item) : M unit :=
  try_catch (syncItemTry item) (fun error => syncItemCatch item).

Fixpoint syncLoop (items : list Item) : M unit :=
  match items with
  | [] => ret tt
  | item :: rest => syncItem item ;;; syncLoop rest
  end.

(** The object [parser.parseURL] resolves to. *)
Record Feed := mkFeed { feed_items : option (list Item) }.

(** [fetchMediumArticles()], given how [parser.parseURL] settles. *)
Definition fetchMediumArticles (parsed : Res (option Feed)) : M (list Item) :=
  try_catch
    (feed <- lift parsed ;;
     match feed with
     | Some (mkFeed (Some items)) => ret items
     | _ => throw (Error "Invalid RSS feed response")
     end)
    (fun error =>
       throw (Error ("Failed to fetch Medium articles: " ++ exn_message error))).

(** The object [syncArticles] resolves to: [{ success: false, message }],
    [{ success: true, syncedCount, errorCount, totalProcessed }] or
    [{ success: false, error, syncedCount, errorCount }]. *)
Inductive SyncResult :=
| SyncBusy (message : string)
| SyncDone (synced errors totalProcessed : nat)
| SyncFailed (error : string) (synced errors : nat).

(** Its [success] field. *)
Definition success (r : SyncResult) : bool :=
  match r with SyncDone _ _ _ => true | _ => false end.

(** [syncArticles()] *)
Definition syncArticles (parsed : Res (option Feed)) : M SyncResult :=
  w0 <- get ;;
  if syncInProgress w0 then
    ret (SyncBusy "Sync already in progress")
  else
    modify (set_syncInProgress true) ;;;
    modify (set_counts 0 0) ;;;
    try_finally
      (try_catch
         (mediumArticles <- fetchMediumArticles parsed ;;
          syncLoop mediumArticles ;;;
          w <- get ;;
          ret (SyncDone (syncedCount w) (errorCount w) (List.length mediumArticles)))
         (fun error =>
            w <- get ;;
            ret (SyncFailed (exn_message error) (syncedCount w) (errorCount w))))
      (set_syncInProgress false).

(** [forcSync()] *)
Definition forcSync (parsed : Res (option Feed)) : M SyncResult :=
  modify (set_syncInProgress false) ;;;
  syncArticles parsed.

End Model.

(** ** [BlogPost.js] statics and methods, and the blog controller *)

Section Controller.
Context {E : Runtime} {D : MongoDriver}.
Import JsString.
#[local] Open Scope js_scope.

Definition textOf (f : TextField) (p : Post) : string :=
  match f with
  | f_title => title p
  | f_description => description p
  | f_content => content p
  end.

Definition intersects (xs ys : list string) : bool :=
  existsb (fun x => existsb (String.eqb x) ys) xs.

Fixpoint matches (f : Filter) (k : nat) (p : Post) : bool :=
  match f with
  | FStatus s => bool_decide (status p = s)
  | FFeatured b => Bool.eqb (featured p) b
  | FIdNe id => negb (Nat.eqb k id)
  | FTagsIn l => intersects (tags p) l
  | FCategoriesIn l => intersects (categories p) l
  | FRegex fld pat => RegExp_test_i pat (textOf fld p)
  | FTagsInRegex pat => existsb (RegExp_test_i pat) (tags p)
  | FOr l => existsb (fun g => matches g k p) l
  end.

Definition matchesAll (q : list Filter) (kp : nat * Post) : bool :=
  forallb (fun f => matches f (fst kp) (snd kp)) q.

(** The documents a query selects, in the collection's order. *)
Definition selectDocs (q : list Filter) (m : gmap nat Post) : list (nat * Post) :=
  List.filter (matchesAll q) (map_to_list m).

(** [.select('-content')]: the field is left out; the empty string stands
    for its absence. *)
Definition omitContent (kp : nat * Post) : nat * Post :=
  let p := snd kp in
  (fst kp,
   {| mediumId := mediumId p; title := title p; slug := slug p;
      description := description p; content := EmptyString;
      excerpt := excerpt p; author := author p; tags := tags p;
      categories := categories p; mediumUrl := mediumUrl p;
      imageUrl := imageUrl p; publishedAt := publishedAt p;
      readingTime := readingTime p; status := status p;
      featured := featured p; views := views p; likes := likes p;
      metaTitle := metaTitle p; metaDescription := metaDescription p;
      lastSyncedAt := lastSyncedAt p; syncStatus := syncStatus p;
      createdAt := createdAt p; updatedAt := updatedAt p |}).

(** [BlogPost.find(query).sort(sort).limit(l).skip(k).select('-content')] *)
Definition BlogPost_find_page (q : list Filter) (sort : JsVal)
    (l k : option Z) : M (list (nat * Post)) :=
  db_call (CallFind q) ;;;
  w <- get ;;
  page <- lift (cursor_window l k (cursor_sort sort (selectDocs q (docs w)))) ;;
  ret (List.map omitContent page).

(** [BlogPost.countDocuments(query)] *)
Definition BlogPost_countDocuments (q : list Filter) : M nat :=
  db_call (CallCountDocuments q) ;;;
  w <- get ;;
  ret (List.length (selectDocs q (docs w))).

Definition byPublishedAtDesc : JsVal := JStr "-publishedAt".

(** [BlogPost.getFeatured(limit)] *)
Definition getFeatured (limit : nat) : M (list (nat * Post)) :=
  let q := [FStatus published; FFeatured true] in
  db_call (CallFind q) ;;;
  w <- get ;;
  ret (firstn limit (cursor_sort byPublishedAtDesc (selectDocs q (docs w)))).

(** What the [pre('save')] hook does to a document already stored: the
    title is not modified, the three derived fields are filled in when
    they are missing or empty. *)
Definition preSave (p : Post) : Post :=
  {| mediumId := mediumId p; title := title p; slug := slug p;
     description := description p; content := content p;
     excerpt := orElse (excerpt p) (substring0 300 (description p));
     author := author p; tags := tags p;
     categories := categories p; mediumUrl := mediumUrl p;
     imageUrl := imageUrl p; publishedAt := publishedAt p;
     readingTime := readingTime p; status := status p;
     featured := featured p; views := views p; likes := likes p;
     metaTitle := orElse (metaTitle p) (substring0 60 (title p));
     metaDescription := orElse (metaDescription p) (substring0 160 (description p));
     lastSyncedAt := lastSyncedAt p; syncStatus := syncStatus p;
     createdAt := createdAt p; updatedAt := updatedAt p |}.

Definition set_views (v stamp : Z) (p : Post) : Post :=
  {| mediumId := mediumId p; title := title p; slug := slug p;
     description := description p; content := content p;
     excerpt := excerpt p; author := author p; tags := tags p;
     categories := categories p; mediumUrl := mediumUrl p;
     imageUrl := imageUrl p; publishedAt := publishedAt p;
     readingTime := readingTime p; status := status p;
     featured := featured p; views := v; likes := likes p;
     metaTitle := metaTitle p; metaDescription := metaDescription p;
     lastSyncedAt := lastSyncedAt p; syncStatus := syncStatus p;
     createdAt := createdAt p; updatedAt := stamp |}.

(** [post.incrementViews()]: [this.views += 1; return this.save()].  The
    result is the document in memory after the save. *)
Definition incrementViews (id : nat) (post : Post) : M Post :=
  stamp <- Date_now ;;
  let after := preSave (set_views (views post + 1) stamp post) in
  db_call (CallSave id after) ;;;
  w <- get ;;
  modify (set_docs (<[id := after]> (docs w))) ;;;
  ret after.

(** The JSON bodies of the blog controller. *)
Inductive Body :=
| BlogList (posts : list (nat * Post)) (results totalResults : nat)
    (totalPages currentPage : option Z)
    (featuredPosts : option (list (nat * Post)))
| BlogOne (post : nat * Post) (relatedPosts : list (nat * Post))
| BlogUpdated (post : nat * Post)
| ValidationFailed (errors : list string)
| ErrorBody (message : string).

Record Response := Json { res_status : Z; res_body : Body }.

(** [parseInt(v)] *)
Definition parseInt (v : JsVal) : option Z :=
  match v with
  | JNum n => Some n
  | JStr _ | JArr _ => parseInt_text v
  | _ => None
  end.

(** [v == 1] *)
Definition looseEq1 (v : JsVal) : bool :=
  match v with
  | JNum n => n =? 1
  | JBool b => b
  | JStr _ | JArr _ => looseEq1_text v
  | _ => false
  end.

Definition param (q : gmap string JsVal) (name : string) (default : JsVal) : JsVal :=
  match q !! name with
  | Some JUndefined | None => default
  | Some v => v
  end.

(** [v.split(',').map(x => x.trim())] *)
Definition splitTrim (what : string) (v : JsVal) : Res (list string) :=
  match v with
  | JStr s => Ok (List.map trim (splitComma s))
  | _ => Throw (TypeError (what ++ ".split is not a function"))
  end.

Definition optMul (a b : option Z) : option Z :=
  match a, b with Some x, Some y => Some (x * y) | _, _ => None end.

(** [Math.ceil(total / l)], [None] when it is not a finite number *)
Definition ceilDiv (total : Z) (l : option Z) : option Z :=
  match l with
  | Some n => if n =? 0 then None else Some (- ((- total) / n))
  | None => None
  end.

(** [v === s] for a string literal [s] *)
Definition isString (s : string) (v : JsVal) : bool :=
  match v with
  | JStr x => String.eqb x s
  | _ => false
  end.

(** The query document [getBlogPosts] builds. *)
Definition buildQuery (featured tags categories search : JsVal)
  : Res (list Filter) :=
  let q1 := [FStatus published] in
  let q2 := if isString "true" featured
            then app q1 [FFeatured true] else q1 in
  bindRes (if truthy tags
           then bindRes (splitTrim "tags" tags) (fun l => Ok (app q2 [FTagsIn l]))
           else Ok q2) (fun q3 =>
  bindRes (if truthy categories
           then bindRes (splitTrim "categories" categories)
                  (fun l => Ok (app q3 [FCategoriesIn l]))
           else Ok q3) (fun q4 =>
  if truthy search then
    if RegExp_valid search then
      Ok (app q4 [FOr [FRegex f_title search; FRegex f_description search;
                       FRegex f_content search; FTagsInRegex search]])
    else Throw (mkExn "SyntaxError" "Invalid regular expression")
  else Ok q4)).

(** [getBlogPosts(req, res)], from [req.query] to the response. *)
Definition getBlogPosts (query : gmap string JsVal) : M Response :=
  try_catch
    (let page := param query "page" (JNum 1) in
     let limit := param query "limit" (JNum 10) in
     let featured := param query "featured" JUndefined in
     let tags := param query "tags" JUndefined in
     let categories := param query "categories" JUndefined in
     let search := param query "search" JUndefined in
     let sort := param query "sort" (JStr "-publishedAt") in
     q <- lift (buildQuery featured tags categories search) ;;
     posts <- BlogPost_find_page q sort (parseInt limit)
                (optMul (option_map (fun x => x - 1) (parseInt page))
                   (parseInt limit)) ;;
     total <- BlogPost_countDocuments q ;;
     featuredPosts <-
       (if negb (truthy featured) && negb (truthy tags)
           && negb (truthy categories) && negb (truthy search)
           && looseEq1 page
        then getFeatured 3 else ret []) ;;
     ret (Json 200
            (BlogList posts (List.length posts) total
               (ceilDiv (Z.of_nat total) (parseInt limit))
               (parseInt page)
               (match featuredPosts with [] => None | _ => Some featuredPosts end))))
    (fun error => ret (Json 500 (ErrorBody "Error fetching blog posts"))).

Definition isCastError (e : Exn) : bool := String.eqb (exn_name e) "CastError".

(** [BlogPost.findOne({ slug, status: 'published' })] *)
Definition BlogPost_findOne_slug (s : string) : M (option (nat * Post)) :=
  db_call (CallFindOne_slug s) ;;;
  w <- get ;;
  ret (findFirst (fun p => String.eqb (slug p) s
                           && bool_decide (status p = published)) (docs w)).

(** The related posts of [getBlogPost]. *)
Definition relatedPosts (id : nat) (post : Post) : M (list (nat * Post)) :=
  let q := [FIdNe id; FStatus published;
            FOr [FTagsIn (tags post); FCategoriesIn (categories post)]] in
  db_call (CallFind q) ;;;
  w <- get ;;
  ret (List.map omitContent
         (firstn 3 (cursor_sort byPublishedAtDesc (selectDocs q (docs w))))).

(** [getBlogPost(req, res)], from [req.params.slug] to the response. *)
Definition getBlogPost (s : string) : M Response :=
  try_catch
    (found <- BlogPost_findOne_slug s ;;
     match found with
     | None => ret (Json 404 (ErrorBody "Blog post not found"))
     | Some (id, post) =>
         post' <- incrementViews id post ;;
         related <- relatedPosts id post' ;;
         ret (Json 200 (BlogOne (id, post') related))
     end)
    (fun error =>
       if isCastError error
       then ret (Json 404 (ErrorBody "Blog post not found"))
       else ret (Json 500 (ErrorBody "Error fetching blog post"))).

(** Mongoose's cast to Boolean. *)
Definition castBoolean (v : JsVal) : Res bool :=
  match v with
  | JBool b => Ok b
  | JNum 1 => Ok true
  | JNum 0 => Ok false
  | JStr s =>
      if existsb (String.eqb s) ["true"; "1"; "yes"] then Ok true
      else if existsb (String.eqb s) ["false"; "0"; "no"] then Ok false
      else Throw (mkExn "CastError" "Cast to Boolean failed")
  | _ => Throw (mkExn "CastError" "Cast to Boolean failed")
  end.

(** The cast of [status] to String and then its [enum], checked because
    of [runValidators]: an array or a plain object is a CastError; the
    string form of a number or a boolean is no value of the enum.  The
    stored [status] and [featured] of [Post] hold no [null]: a [null] in
    the body, which the rules of the route refuse, is answered here as a
    value that cannot be taken. *)
Definition castStatus (v : JsVal) : Res Status :=
  match v with
  | JStr s =>
      if String.eqb s "published" then Ok published
      else if String.eqb s "draft" then Ok draft
      else if String.eqb s "archived" then Ok archived
      else Throw (mkExn "ValidationError" "not a valid enum value for path status")
  | JArr _ | JObj => Throw (mkExn "CastError" "Cast to string failed for path status")
  | _ => Throw (mkExn "ValidationError" "not a valid enum value for path status")
  end.

(** [updateData] of [updateBlogPost]: at most the two keys. *)
Record UpdateData := mkUpdateData {
  upd_featured : option bool;
  upd_status : option Status
}.

Definition field (body : gmap string JsVal) (name : string) : JsVal :=
  match body !! name with
  | Some v => v
  | None => JUndefined
  end.

Definition castOpt {A} (cast : JsVal -> Res A) (v : JsVal) : Res (option A) :=
  match v with
  | JUndefined => Ok None
  | _ => bindRes (cast v) (fun a => Ok (Some a))
  end.

Definition buildUpdate (body : gmap string JsVal) : Res UpdateData :=
  bindRes (castOpt castBoolean (field body "featured")) (fun f =>
  bindRes (castOpt castStatus (field body "status")) (fun s =>
  Ok (mkUpdateData f s))).

(** [$set: updateData] on a stored document, with the [updatedAt] stamp. *)
Definition adminUpdate (u : UpdateData) (stamp : Z) (p : Post) : Post :=
  {| mediumId := mediumId p; title := title p; slug := slug p;
     description := description p; content := content p;
     excerpt := excerpt p; author := author p; tags := tags p;
     categories := categories p; mediumUrl := mediumUrl p;
     imageUrl := imageUrl p; publishedAt := publishedAt p;
     readingTime := readingTime p;
     status := match upd_status u with Some s => s | None => status p end;
     featured := match upd_featured u with Some b => b | None => featured p end;
     views := views p; likes := likes p;
     metaTitle := metaTitle p; metaDescription := metaDescription p;
     lastSyncedAt := lastSyncedAt p; syncStatus := syncStatus p;
     createdAt := createdAt p; updatedAt := stamp |}.

(** [BlogPost.findByIdAndUpdate(req.params.id, updateData,
    { new: true, runValidators: true })] *)
Definition BlogPost_adminUpdate (idText : string) (body : gmap string JsVal)
  : M (option (nat * Post)) :=
  match castObjectId idText with
  | None => throw (mkExn "CastError" "Cast to ObjectId failed")
  | Some id =>
      u <- lift (buildUpdate body) ;;
      stamp <- Date_now ;;
      w <- get ;;
      db_call (CallFindByIdAndUpdate id (adminUpdate u stamp <$> docs w !! id)) ;;;
      match docs w !! id with
      | None => ret None
      | Some p =>
          modify (set_docs (<[id := adminUpdate u stamp p]> (docs w))) ;;;
          ret (Some (id, adminUpdate u stamp p))
      end
  end.

(** [updateBlogPost(req, res)], from [req.params.id] and [req.body] to the
    response. *)
Definition updateBlogPost (idText : string) (body : gmap string JsVal)
  : M Response :=
  try_catch
    (match validationResult body with
     | (_ :: _) as errors => ret (Json 400 (ValidationFailed errors))
     | [] =>
         post <- BlogPost_adminUpdate idText body ;;
         match post with
         | None => ret (Json 404 (ErrorBody "Blog post not found"))
         | Some kp => ret (Json 200 (BlogUpdated kp))
         end
     end)
    (fun error =>
       if isCastError error
       then ret (Json 404 (ErrorBody "Blog post not found"))
       else ret (Json 500 (ErrorBody "Error updating blog post"))).

End Controller.

(** ** [BlogPost.js]: the [timeAgo] virtual and [getPublished] *)

Definition MS_PER_DAY : Z := 1000 * 60 * 60 * 24.

(** The [timeAgo] virtual; [now] is the reading of [new Date()].  On an
    invalid date every comparison with NaN fails. *)
Definition timeAgo (now : Z) (publishedAt : Date) : string :=
  match publishedAt with
  | None => "NaN years ago"
  | Some t =>
      let diff := now - t in
      let days := diff / MS_PER_DAY in
      if days =? 0 then "Today"
      else if days =? 1 then "Yesterday"
      else if days <? 7 then showInt days ++ " days ago"
      else if days <? 30 then showInt (days / 7) ++ " weeks ago"
      else if days <? 365 then showInt (days / 30) ++ " months ago"
      else showInt (days / 365) ++ " years ago"
  end.

(** The options of [getPublished]; [None] for a key that is left out, and
    for [featured] also for [null]. *)
Record PublishedOptions := mkPublishedOptions {
  opt_limit : option Z;
  opt_skip : option Z;
  opt_featured : option bool
}.

(** ** The admin endpoints of the blog controller *)

(** The three pipelines of [getBlogStats]. *)
Inductive Pipeline := SumViews | SumLikes | TopTags.

(** The calls of the admin endpoints that [DbCall] does not list. *)
Inductive AdminCall :=
| CallFindByIdAndDelete (id : nat)
| CallAggregate (p : Pipeline)
| CallFindOne_lastSynced.

Class AdminDriver := {
  (** the rejection of a call, if any *)
  admin_fault : AdminCall -> gmap nat Post -> option Exn;
  (** [{ $sort: { count: -1 } }] on the groups of [$group], which come in
      no particular order *)
  group_sort : list (string * nat) -> list (string * nat);
  group_sort_perm : forall l, Permutation (group_sort l) l;
  group_sort_sorted : forall l,
    StronglySorted (fun a b => (snd b <= snd a)%nat) (group_sort l)
}.

Section Admin.
Context {E : Runtime} {D : MongoDriver} {A : AdminDriver}.
Import JsString.
#[local] Open Scope js_scope.

(** [BlogPost.getPublished(options)] *)
Definition getPublished (options : PublishedOptions) : M (list (nat * Post)) :=
  let limit := match opt_limit options with Some l => l | None => 10 end in
  let skip := match opt_skip options with Some k => k | None => 0 end in
  let query := match opt_featured options with
               | Some b => [FStatus published; FFeatured b]
               | None => [FStatus published]
               end in
  db_call (CallFind query) ;;;
  w <- get ;;
  lift (cursor_window (Some limit) (Some skip)
          (cursor_sort byPublishedAtDesc (selectDocs query (docs w)))).

Definition admin_call (c : AdminCall) : M unit :=
  fun w => match admin_fault c (docs w) with
           | Some e => (w, Throw e)
           | None => (w, Ok tt)
           end.

(** [req.user.username]: a TypeError when the request carries no user. *)
Definition username (user : option string) : M string :=
  match user with
  | Some name => ret name
  | None =>
      throw (TypeError "Cannot read properties of undefined (reading 'username')")
  end.

(** What [.select('title publishedAt views')] leaves of a document. *)
Record RecentPost := mkRecentPost {
  rp_id : nat;
  rp_title : string;
  rp_publishedAt : Date;
  rp_views : Z
}.

Record Stats := mkStats {
  st_totalPosts : nat;
  st_featuredPosts : nat;
  st_draftPosts : nat;
  st_totalViews : Z;
  st_totalLikes : Z;
  st_recentPosts : list RecentPost;
  st_topTags : list (string * nat)
}.

(** The JSON bodies of the admin endpoints. *)
Inductive AdminBody :=
| SyncReport (status message : string) (data : SyncResult)
| SyncStatusBody (inProgress : bool) (lastSync : option Z)
    (lastSyncStatus : option SyncStatus)
| StatsBody (data : Stats)
| Deleted (message : string)
| AdminError (message : string).

Record AdminResponse := AdminJson { adm_status : Z; adm_body : AdminBody }.

(** [result.message] *)
Definition resultMessage (r : SyncResult) : JsVal :=
  match r with
  | SyncBusy m => JStr m
  | _ => JUndefined
  end.

(** [syncMediumArticles(req, res)], from [req.user] and the way
    [parser.parseURL] settles to the response. *)
Definition syncMediumArticles (user : option string)
    (parsed : Res (option Feed)) : M AdminResponse :=
  try_catch
    (username user ;;;
     result <- syncArticles parsed ;;
     if success result then
       ret (AdminJson 200
              (SyncReport "success" "Medium articles synced successfully" result))
     else
       ret (AdminJson 500
              (SyncReport "error"
                 (match js_or (resultMessage result)
                                (JStr "Failed to sync Medium articles") with
                  | JStr m => m
                  | _ => "Failed to sync Medium articles"
                  end)
                 result)))
    (fun error => ret (AdminJson 500 (AdminError "Error syncing Medium articles"))).

(** [mediumService.getSyncStatus()]: [{ inProgress, lastSync: null }] *)
Definition mediumService_getSyncStatus : M (bool * option Z) :=
  w <- get ;;
  ret (syncInProgress w, None).

Definition byLastSyncedAtDesc : JsVal := JStr "-lastSyncedAt".

(** [BlogPost.findOne().sort({ lastSyncedAt: -1 })
    .select('lastSyncedAt syncStatus')] *)
Definition BlogPost_findOne_lastSynced : M (option (Z * SyncStatus)) :=
  admin_call CallFindOne_lastSynced ;;;
  w <- get ;;
  ret (match cursor_sort byLastSyncedAtDesc (selectDocs [] (docs w)) with
       | kp :: _ => Some (lastSyncedAt (snd kp), syncStatus (snd kp))
       | [] => None
       end).

(** [getSyncStatus(req, res)]; a date and a status name are truthy, so
    [|| null] applies only when no post is found. *)
Definition getSyncStatus : M AdminResponse :=
  try_catch
    (status <- mediumService_getSyncStatus ;;
     lastSyncedPost <- BlogPost_findOne_lastSynced ;;
     ret (AdminJson 200
            (SyncStatusBody (fst status)
               (fst <$> lastSyncedPost) (snd <$> lastSyncedPost))))
    (fun error => ret (AdminJson 500 (AdminError "Error getting sync status"))).

Definition sumOf (f : Post -> Z) (l : list (nat * Post)) : Z :=
  fold_right (fun kp acc => f (snd kp) + acc) 0 l.

(** [$match] on the published posts, then [$group] with [_id: null] and a
    [$sum]: one group, or none when nothing matches. *)
Definition groupSum (f : Post -> Z) (l : list (nat * Post)) : list Z :=
  match l with
  | [] => []
  | _ => [sumOf f l]
  end.

Definition BlogPost_aggregateSum (p : Pipeline) (f : Post -> Z) : M (list Z) :=
  admin_call (CallAggregate p) ;;;
  w <- get ;;
  ret (groupSum f (selectDocs [FStatus published] (docs w))).

(** [r[0]?.total || 0] *)
Definition firstOrZero (r : list Z) : Z :=
  match r with
  | x :: _ => if x =? 0 then 0 else x
  | [] => 0
  end.

(** [$unwind: '$tags'] *)
Definition unwindTags (l : list (nat * Post)) : list string :=
  flat_map (fun kp => tags (snd kp)) l.

(** One more document for the group of [t]. *)
Fixpoint countTag (t : string) (groups : list (string * nat)) : list (string * nat) :=
  match groups with
  | [] => [(t, 1%nat)]
  | (u, n) :: r =>
      if String.eqb u t then (u, S n) :: r else (u, n) :: countTag t r
  end.

(** [$group: { _id: '$tags', count: { $sum: 1 } }] *)
Definition groupTags (ts : list string) : list (string * nat) :=
  fold_left (fun groups t => countTag t groups) ts [].

Definition BlogPost_topTags : M (list (string * nat)) :=
  admin_call (CallAggregate TopTags) ;;;
  w <- get ;;
  ret (firstn 10
         (group_sort
            (groupTags (unwindTags (selectDocs [FStatus published] (docs w)))))).

Definition selectRecent (kp : nat * Post) : RecentPost :=
  mkRecentPost (fst kp) (title (snd kp)) (publishedAt (snd kp)) (views (snd kp)).

(** [BlogPost.find({ status: 'published' }).sort({ publishedAt: -1 })
    .limit(5).select('title publishedAt views')] *)
Definition BlogPost_recent : M (list RecentPost) :=
  db_call (CallFind [FStatus published]) ;;;
  w <- get ;;
  ret (List.map selectRecent
         (firstn 5 (cursor_sort byPublishedAtDesc
                      (selectDocs [FStatus published] (docs w))))).

(** [getBlogStats(req, res)] *)
Definition getBlogStats : M AdminResponse :=
  try_catch
    (totalPosts <- BlogPost_countDocuments [FStatus published] ;;
     featuredPosts <- BlogPost_countDocuments [FStatus published; FFeatured true] ;;
     draftPosts <- BlogPost_countDocuments [FStatus draft] ;;
     totalViews <- BlogPost_aggregateSum SumViews views ;;
     totalLikes <- BlogPost_aggregateSum SumLikes likes ;;
     recentPosts <- BlogPost_recent ;;
     topTags <- BlogPost_topTags ;;
     ret (AdminJson 200
            (StatsBody
               {| st_totalPosts := totalPosts;
                  st_featuredPosts := featuredPosts;
                  st_draftPosts := draftPosts;
                  st_totalViews := firstOrZero totalViews;
                  st_totalLikes := firstOrZero totalLikes;
                  st_recentPosts := recentPosts;
                  st_topTags := topTags |})))
    (fun error => ret (AdminJson 500 (AdminError "Error fetching blog statistics"))).

(** [BlogPost.findByIdAndDelete(req.params.id)] *)
Definition BlogPost_findByIdAndDelete (idText : string) : M (option (nat * Post)) :=
  match castObjectId idText with
  | None => throw (mkExn "CastError" "Cast to ObjectId failed")
  | Some id =>
      admin_call (CallFindByIdAndDelete id) ;;;
      w <- get ;;
      match docs w !! id with
      | None => ret None
      | Some p =>
          modify (set_docs (delete id (docs w))) ;;;
          ret (Some (id, p))
      end
  end.

(** [deleteBlogPost(req, res)], from [req.user] and [req.params.id] to the
    response. *)
Definition deleteBlogPost (user : option string) (idText : string)
  : M AdminResponse :=
  try_catch
    (post <- BlogPost_findByIdAndDelete idText ;;
     match post with
     | None => ret (AdminJson 404 (AdminError "Blog post not found"))
     | Some _ =>
         username user ;;;
         ret (AdminJson 200 (Deleted "Blog post deleted successfully"))
     end)
    (fun error =>
       if isCastError error
       then ret (AdminJson 404 (AdminError "Blog post not found"))
       else ret (AdminJson 500 (AdminError "Error deleting blog post"))).

End Admin.

(** * Part II.  Notions used in the statements *)

Module WordCount.
Import JsString.

(** The number of words of a text, following the specification: the
    maximal runs of characters that are not white space. *)
Fixpoint wordsFrom (inWord : bool) (s : string) : nat :=
  match s with
  | EmptyString => 0
  | String c r =>
      if isSpace c then wordsFrom false r
      else if inWord then wordsFrom true r
      else S (wordsFrom true r)
  end.

Definition spec_wordCount (s : string) : nat := wordsFrom false s.

(** The last character is white space; [init] for the empty string. *)
Fixpoint endsInSpace (init : bool) (s : string) : bool :=
  match s with
  | EmptyString => init
  | String c r => endsInSpace (isSpace c) r
  end.

Definition startsWithSpace (s : string) : bool :=
  match s with
  | String c _ => isSpace c
  | EmptyString => false
  end.

End WordCount.

Section Notions.
Context {E : Runtime} {D : MongoDriver}.

(** The read-only projections used in the statements below. *)
Definition parsed (now : Z) (item : Item) : option ArticleData :=
  match parseMediumArticle now item with
  | Ok ad => Some ad
  | Throw _ => None
  end.

(** The unique index on [mediumId]. *)
Definition unique_mediumId (m : gmap nat Post) : Prop :=
  forall i j p q, m !! i = Some p -> m !! j = Some q ->
                  mediumId p = mediumId q -> i = j.

(** The three things an iteration can do to the collection: nothing, the
    update of the stored post of the entry, or the mark on its stored
    post. *)
Inductive ItemEffect (item : Item) (d : gmap nat Post) : gmap nat Post -> Prop :=
| effect_none : ItemEffect item d d
| effect_update now ad c mid id p stamp :
    parseMediumArticle now item = Ok ad ->
    castUpdate ad = Ok c ->
    derivedId item = Some mid ->
    findFirst (has_mediumId mid) d = Some (id, p) ->
    ItemEffect item d
      (<[id := syncUpdate ad c mid (views p) (likes p) (featured p) stamp p]> d)
| effect_failed mid id p now stamp :
    derivedId item = Some mid ->
    findFirst (has_mediumId mid) d = Some (id, p) ->
    ItemEffect item d (<[id := markFailed now stamp p]> d).

(** Every document is still there, with the same identifier, views, likes
    and featured flag. *)
Definition counters_kept (d d' : gmap nat Post) : Prop :=
  forall k p, d !! k = Some p ->
    exists p', d' !! k = Some p' /\ mediumId p' = mediumId p
               /\ views p' = views p /\ likes p' = likes p
               /\ featured p' = featured p.

(** The calls [syncArticles] makes on the model. *)
Definition syncCall (c : DbCall) : bool :=
  match c with
  | CallFindOne_mediumId _ | CallFindByIdAndUpdate _ _
  | CallFindOneAndUpdate _ => true
  | _ => false
  end.

(** The update of the entry can be cast: its date is valid, and its author
    and its link are no array and no plain object. *)
Definition updatable (item : Item) : Prop :=
  forall now ad, parseMediumArticle now item = Ok ad ->
                 exists c, castUpdate ad = Ok c.

Definition feedItems (parsed : Res (option Feed)) : option (list Item) :=
  match parsed with
  | Ok (Some (mkFeed (Some items))) => Some items
  | _ => None
  end.

Definition fetchError (parsed : Res (option Feed)) : string :=
  match parsed with
  | Throw e => "Failed to fetch Medium articles: " ++ exn_message e
  | _ => "Failed to fetch Medium articles: Invalid RSS feed response"
  end.

Definition feedOf (items : list Item) : Res (option Feed) :=
  Ok (Some (mkFeed (Some items))).

(** A stored post of the entry is not older than the entry and is not
    marked failed. *)
Definition settled (item : Item) (d : gmap nat Post) : Prop :=
  forall now ad mid k p,
    parseMediumArticle now item = Ok ad ->
    usableId (ad_mediumId ad) = Some mid ->
    d !! k = Some p -> mediumId p = mid ->
    date_gt (ad_publishedAt ad) (publishedAt p) = false
    /\ syncStatus p <> failed.

(** The derived identifiers of the entries are pairwise distinct. *)
Definition distinct_ids (items : list Item) : Prop :=
  NoDup (omap derivedId items).

(** No stored post of the entry is more than 24 hours past its last
    synchronisation at time [T]. *)
Definition fresh_at (T : Z) (item : Item) (d : gmap nat Post) : Prop :=
  forall k p, d !! k = Some p -> derivedId item = Some (mediumId p) ->
              T - lastSyncedAt p <= DAY_MS.

(** A listed entry is a stored document with the content left out. *)
Definition listed_from (m : gmap nat Post) (kp : nat * Post) : Prop :=
  exists p, m !! fst kp = Some p /\ kp = omitContent (fst kp, p)
            /\ status p = published.

Definition no_published_post (s : string) (m : gmap nat Post) : Prop :=
  forall k p, m !! k = Some p -> slug p = s -> status p <> published.

(** Every field but [featured], [status] and [updatedAt] is the same. *)
Definition same_but_flags (p p' : Post) : Prop :=
  mediumId p' = mediumId p /\ title p' = title p /\ slug p' = slug p
  /\ description p' = description p /\ content p' = content p
  /\ excerpt p' = excerpt p /\ author p' = author p /\ tags p' = tags p
  /\ categories p' = categories p /\ mediumUrl p' = mediumUrl p
  /\ imageUrl p' = imageUrl p /\ publishedAt p' = publishedAt p
  /\ readingTime p' = readingTime p /\ views p' = views p
  /\ likes p' = likes p /\ metaTitle p' = metaTitle p
  /\ metaDescription p' = metaDescription p
  /\ lastSyncedAt p' = lastSyncedAt p /\ syncStatus p' = syncStatus p
  /\ createdAt p' = createdAt p.

End Notions.

(** ** Notions for the further properties *)

Module TextShape.
Import JsString.

(** No [<] of the text is followed, anywhere later, by a [>]. *)
Fixpoint tagFree (s : string) : bool :=
  match s with
  | EmptyString => true
  | String c r =>
      (if isLt c then all (fun d => negb (isGt d)) r else true) && tagFree r
  end.

(** The characters of a slug. *)
Definition slugChar (c : ascii) : bool := isLower c || isDigit c || isDash c.

(** No dash follows a dash; [afterDash] tells whether one precedes the
    text. *)
Fixpoint noDashPair (afterDash : bool) (s : string) : bool :=
  match s with
  | EmptyString => true
  | String c r => negb (afterDash && isDash c) && noDashPair (isDash c) r
  end.

Definition startsWithDash (s : string) : bool :=
  match s with
  | String c _ => isDash c
  | EmptyString => false
  end.

Fixpoint endsWithDash (s : string) : bool :=
  match s with
  | EmptyString => false
  | String c EmptyString => isDash c
  | String _ r => endsWithDash r
  end.

End TextShape.

Section ParsingNotions.
Context {E : Runtime}.

(** A value [v?.trim()] accepts: a string, [null] or [undefined]. *)
Definition trimmable (v : JsVal) : bool :=
  match v with
  | JUndefined | JNull | JStr _ => true
  | _ => false
  end.

Definition isArr (v : JsVal) : bool :=
  match v with JArr _ => true | _ => false end.

Definition isText (v : JsVal) : bool :=
  match v with JStr _ => true | _ => false end.

(** The entries [parseMediumArticle] accepts. *)
Definition parsable (item : Item) : bool :=
  isText (js_or (js_or (item_content item) (item_content_encoded item)) (JStr ""))
  && (negb (truthy (js_or (item_guid item) (item_link item)))
      || isText (js_or (item_guid item) (item_link item)))
  && trimmable (item_title item)
  && trimmable (item_contentSnippet item).

(** [!o] for an optional text field. *)
Definition missing (o : option string) : bool :=
  match o with
  | Some s => JsString.isEmpty s
  | None => true
  end.

Definition textLength (o : option string) : nat :=
  match o with
  | Some s => String.length s
  | None => 0
  end.

(** A tag as the schema stores it: nothing to trim, nothing to lower. *)
Definition normalTag (t : string) : Prop :=
  JsString.trim t = t /\ JsString.toLowerCase t = t.

End ParsingNotions.

Section SyncNotions.
Context {E : Runtime} {D : MongoDriver}.

(** Every document is still there, with what the synchronisation does not
    own: the identifier, the slug, the status, the featured flag, the
    counters, the creation date and the two meta fields. *)
Definition curated_kept (d d' : gmap nat Post) : Prop :=
  forall k p, d !! k = Some p ->
    exists p', d' !! k = Some p'
               /\ mediumId p' = mediumId p /\ slug p' = slug p
               /\ status p' = status p /\ featured p' = featured p
               /\ views p' = views p /\ likes p' = likes p
               /\ createdAt p' = createdAt p
               /\ metaTitle p' = metaTitle p
               /\ metaDescription p' = metaDescription p.

(** The result reports no synchronised and no failed entry. *)
Definition reportsNothing (r : SyncResult) : bool :=
  match r with
  | SyncDone s e _ => (s + e =? 0)%nat
  | _ => true
  end.

End SyncNotions.

Section AdminNotions.
Context {E : Runtime} {D : MongoDriver} {A : AdminDriver}.

(** How often the published posts carry the tag. *)
Definition tagUses (t : string) (m : gmap nat Post) : nat :=
  count_occ string_dec (unwindTags (selectDocs [FStatus published] m)) t.

(** The count of a tag in a list of groups, 0 without a group. *)
Definition groupCount (t : string) (groups : list (string * nat)) : nat :=
  match List.find (fun g => String.eqb (fst g) t) groups with
  | Some g => snd g
  | None => 0
  end.

End AdminNotions.

Section ControllerNotions.
Context {E : Runtime} {D : MongoDriver}.

(** Two lists of names have a name in common. *)
Definition share (xs ys : list string) : Prop :=
  exists t, In t xs /\ In t ys.

(** The names a comma-separated query parameter asks for. *)
Definition asked (v : JsVal) : list string :=
  match v with
  | JStr s => List.map JsString.trim (JsString.splitComma s)
  | _ => []
  end.

End ControllerNotions.

(** ** A concrete platform and concrete data *)

Module Demo.
Import JsString.

Fixpoint repeatText (n : nat) (piece : string) : string :=
  match n with
  | O => EmptyString
  | S k => piece ++ repeatText k piece
  end.

Definition LF : string := String (ascii_of_N 10) EmptyString.
Definition jan1 : string := "Mon, 01 Jan 2024 00:00:00 GMT".

(** A paragraph of 400 words followed by a line feed. *)
Definition body400 : string :=
  "<p>" ++ repeatText 399 "word " ++ "word</p>" ++ LF.

Definition item400 : Item :=
  {| item_content := JStr body400;
     item_content_encoded := JUndefined;
     item_contentSnippet := JUndefined;
     item_title := JStr "Four hundred words";
     item_creator := JStr "Mukesh Rawat";
     item_dc_creator := JUndefined;
     item_link := JStr "https://medium.com/@me/four-hundred-words-1a2b3c4d5e6f";
     item_guid := JStr "https://medium.com/p/1a2b3c4d5e6f";
     item_pubDate := JStr jan1;
     item_isoDate := JUndefined;
     item_categories := JArr [JStr "Writing"] |}.

(** An entry whose snippet has 501 characters. *)
Definition item501 : Item :=
  {| item_content := JStr "<p>Short body</p>";
     item_content_encoded := JUndefined;
     item_contentSnippet := JStr (repeatText 501 "a");
     item_title := JStr "Long snippet";
     item_creator := JStr "Mukesh Rawat";
     item_dc_creator := JUndefined;
     item_link := JStr "https://medium.com/@me/long-snippet-0f9e8d7c6b5a";
     item_guid := JStr "https://medium.com/p/0f9e8d7c6b5a";
     item_pubDate := JStr jan1;
     item_isoDate := JUndefined;
     item_categories := JArr [] |}.

Definition jan2 : string := "Tue, 02 Jan 2024 00:00:00 GMT".

Definition engine : Runtime :=
  {| Date_parse s :=
       if String.eqb s jan1 then Some 1704067200000
       else if String.eqb s jan2 then Some 1704153600000
       else None;
     Date_coerce _ := None;
     tick t := t + 1;
     parseInt_text v :=
       if isString "1" v then Some 1
       else if isString "2" v then Some 2
       else if isString "10" v then Some 10
       else None;
     looseEq1_text v := isString "1" v;
     RegExp_valid _ := true;
     RegExp_test_i _ _ := false;
     validationResult _ := [] |}.

Definition window (l k : option Z) (xs : list (nat * Post))
  : Res (list (nat * Post)) :=
  match l, k with
  | Some l, Some k =>
      if (0 <? l) && (0 <=? k)
      then Ok (firstn (Z.to_nat l) (skipn (Z.to_nat k) xs))
      else Throw (Error "limit and skip out of range")
  | _, _ => Throw (Error "limit and skip out of range")
  end.

(** A driver that rejects nothing and keeps the collection's order. *)
Definition driver : MongoDriver.
Proof.
  refine {| db_fault _ _ := None;
            cursor_sort _ l := l;
            cursor_sort_perm _ l := Permutation_refl l;
            cursor_window := window;
            cursor_window_incl := _;
            cursor_window_regular := _;
            castObjectId s :=
              if String.eqb s "65a1f0c2e4b0a1b2c3d4e5f6" then Some 7%nat else None |}.
  - intros l k xs ys. unfold window.
    destruct l as [l|], k as [k|]; try discriminate.
    destruct ((0 <? l) && (0 <=? k)); [|discriminate].
    intros H. injection H as <-. intros x Hx.
    rewrite <- (firstn_skipn (Z.to_nat k) xs). apply in_or_app. right.
    rewrite <- (firstn_skipn (Z.to_nat l) (skipn (Z.to_nat k) xs)).
    apply in_or_app. left. exact Hx.
  - intros l k xs Hl Hk. unfold window.
    apply Z.ltb_lt in Hl. apply Z.leb_le in Hk. rewrite Hl, Hk. reflexivity.
Defined.

#[local] Existing Instance engine.
#[local] Existing Instance driver.

(** The entry "Hello World", published on 1 January 2024. *)
Definition item1 : Item :=
  {| item_content := JStr "<p>Hello <b>World</b>, again.</p>";
     item_content_encoded := JUndefined;
     item_contentSnippet := JStr "Hello World, again.";
     item_title := JStr "Hello World";
     item_creator := JStr "Mukesh Rawat";
     item_dc_creator := JUndefined;
     item_link := JStr "https://medium.com/@me/hello-world-abc123def456";
     item_guid := JStr "https://medium.com/p/abc123def456";
     item_pubDate := JStr jan1;
     item_isoDate := JUndefined;
     item_categories := JArr [JStr "Web"; JStr " React "] |}.

(** An entry nothing is stored for yet. *)
Definition item2 : Item :=
  {| item_content := JStr "<p>Second post</p>";
     item_content_encoded := JUndefined;
     item_contentSnippet := JStr "Second post";
     item_title := JStr "Second";
     item_creator := JUndefined;
     item_dc_creator := JUndefined;
     item_link := JStr "https://medium.com/@me/second-0123456789ab";
     item_guid := JStr "https://medium.com/p/0123456789ab";
     item_pubDate := JStr jan2;
     item_isoDate := JUndefined;
     item_categories := JUndefined |}.

(** An entry with neither [guid] nor [link]. *)
Definition item0 : Item :=
  {| item_content := JStr "<p>No identifier</p>";
     item_content_encoded := JUndefined;
     item_contentSnippet := JUndefined;
     item_title := JStr "Anonymous";
     item_creator := JUndefined;
     item_dc_creator := JUndefined;
     item_link := JUndefined;
     item_guid := JUndefined;
     item_pubDate := JStr jan1;
     item_isoDate := JUndefined;
     item_categories := JUndefined |}.

(** The stored post of [item1], from an older version of the article:
    published on 25 December 2023, last synchronised two hours before the
    clock of [world]. *)
Definition post1 : Post :=
  {| mediumId := "abc123def456";
     title := "Hello";
     slug := "hello";
     description := "An older description";
     content := "<p>Hello</p>";
     excerpt := Some "Hello";
     author := JStr "Mukesh Rawat";
     tags := ["web"];
     categories := ["web"];
     mediumUrl := JStr "https://medium.com/@me/hello-world-abc123def456";
     imageUrl := None;
     publishedAt := Some 1703462400000;
     readingTime := 1;
     status := published;
     featured := true;
     views := 42;
     likes := 7;
     metaTitle := Some "Hello";
     metaDescription := Some "An older description";
     lastSyncedAt := 1704192800000;
     syncStatus := synced;
     createdAt := 1703462500000;
     updatedAt := 1704192800000 |}.

Definition world : World :=
  {| docs := {[7%nat := post1]};
     clock := 1704200000000;
     syncInProgress := false;
     syncedCount := 0;
     errorCount := 0 |}.

Definition unwrap (r : Res ArticleData) : ArticleData :=
  match r with
  | Ok ad => ad
  | Throw _ => mkArticleData None "" "" "" "" JUndefined JUndefined None None 0
                 [] [] 0 pending
  end.

Definition unwrapPost (o : option Post) : Post :=
  match o with
  | Some p => p
  | None => post1
  end.

Definition ad1 : ArticleData :=
  unwrap (@parseMediumArticle engine (clock world) item1).

(** The first run, and the second run one hour later. *)
Definition afterFirst : World :=
  fst (@syncArticles engine driver (feedOf [item1; item2]) world).

Definition secondRun (t2 : Z) : World * Res SyncResult :=
  @syncArticles engine driver (feedOf [item1; item2]) (set_clock t2 afterFirst).

(** A collection with a draft next to the published post. *)
Definition draft1 : Post :=
  {| mediumId := "feedfacecafe";
     title := "Secret draft";
     slug := "secret-draft";
     description := "Not for the public";
     content := "<p>Work in progress</p>";
     excerpt := Some "Work in progress";
     author := JStr "Mukesh Rawat";
     tags := ["web"];
     categories := [];
     mediumUrl := JStr "https://medium.com/@me/secret-draft-feedfacecafe";
     imageUrl := None;
     publishedAt := Some 1704067200000;
     readingTime := 1;
     status := draft;
     featured := true;
     views := 0;
     likes := 0;
     metaTitle := None;
     metaDescription := None;
     lastSyncedAt := 1704192800000;
     syncStatus := synced;
     createdAt := 1704067200000;
     updatedAt := 1704192800000 |}.

Definition world2 : World :=
  {| docs := <[9%nat := draft1]> {[7%nat := post1]};
     clock := 1704200000000;
     syncInProgress := false;
     syncedCount := 0;
     errorCount := 0 |}.

Definition listedPosts : list (nat * Post) :=
  match snd (@getBlogPosts engine driver ∅ world2) with
  | Ok (Json _ (BlogList ps _ _ _ _ _)) => ps
  | _ => []
  end.

Definition listedFeatured : option (list (nat * Post)) :=
  match snd (@getBlogPosts engine driver ∅ world2) with
  | Ok (Json _ (BlogList _ _ _ _ _ fs)) => fs
  | _ => None
  end.

Definition viewBody : Body :=
  match snd (@getBlogPost engine driver "hello" world2) with
  | Ok r => res_body r
  | Throw _ => ErrorBody ""
  end.

(** An entry whose title is an object, as the parser yields for an element
    with attributes: [item.title?.trim] is not a function. *)
Definition itemBad : Item :=
  {| item_content := JStr "<p>Odd title</p>";
     item_content_encoded := JUndefined;
     item_contentSnippet := JStr "Odd title";
     item_title := JObj;
     item_creator := JUndefined;
     item_dc_creator := JUndefined;
     item_link := JStr "https://medium.com/@me/odd-title-00ff00ff00ff";
     item_guid := JStr "https://medium.com/p/00ff00ff00ff";
     item_pubDate := JStr jan1;
     item_isoDate := JUndefined;
     item_categories := JUndefined |}.

(** A driver that loses the connection on every [findByIdAndUpdate]. *)
Definition rejectingDriver : MongoDriver :=
  {| db_fault c _ :=
       match c with
       | CallFindByIdAndUpdate _ _ =>
           Some (mkExn "MongoNetworkError" "connection lost")
       | _ => None
       end;
     cursor_sort := @cursor_sort driver;
     cursor_sort_perm := @cursor_sort_perm driver;
     cursor_window := @cursor_window driver;
     cursor_window_incl := @cursor_window_incl driver;
     cursor_window_regular := @cursor_window_regular driver;
     castObjectId := @castObjectId driver |}.

(** A second entry with the identifier of [item1], dated 2 January. *)
Definition item1b : Item :=
  {| item_content := JStr "<p>Hello World, revised.</p>";
     item_content_encoded := JUndefined;
     item_contentSnippet := JStr "Hello World, revised.";
     item_title := JStr "Hello World (revised)";
     item_creator := JStr "Mukesh Rawat";
     item_dc_creator := JUndefined;
     item_link := JStr "https://medium.com/@me/hello-world-abc123def456";
     item_guid := JStr "https://medium.com/@me/hello-world-revised/abc123def456";
     item_pubDate := JStr jan2;
     item_isoDate := JUndefined;
     item_categories := JUndefined |}.

(** [post1] dated 3 January and last synchronised 24 hours less 2 ms
    before the clock of [world]. *)
Definition post1late : Post :=
  {| mediumId := mediumId post1; title := title post1; slug := slug post1;
     description := description post1; content := content post1;
     excerpt := excerpt post1; author := author post1; tags := tags post1;
     categories := categories post1; mediumUrl := mediumUrl post1;
     imageUrl := imageUrl post1;
     publishedAt := Some 1704240000000;
     readingTime := readingTime post1; status := status post1;
     featured := featured post1; views := views post1; likes := likes post1;
     metaTitle := metaTitle post1; metaDescription := metaDescription post1;
     lastSyncedAt := 1704113600002;
     syncStatus := syncStatus post1;
     createdAt := createdAt post1; updatedAt := updatedAt post1 |}.

Definition world3 : World :=
  {| docs := {[7%nat := post1late]};
     clock := 1704200000000;
     syncInProgress := false;
     syncedCount := 0;
     errorCount := 0 |}.

(** [item1] as a feed without dates gives it: neither [pubDate] nor
    [isoDate], so that [publishedAt] is an Invalid Date. *)
Definition itemNoDate : Item :=
  {| item_content := item_content item1;
     item_content_encoded := JUndefined;
     item_contentSnippet := item_contentSnippet item1;
     item_title := item_title item1;
     item_creator := item_creator item1;
     item_dc_creator := JUndefined;
     item_link := item_link item1;
     item_guid := item_guid item1;
     item_pubDate := JUndefined;
     item_isoDate := JUndefined;
     item_categories := item_categories item1 |}.

(** [item1] with its [guid] only and no [link]. *)
Definition itemNoLink : Item :=
  {| item_content := item_content item1;
     item_content_encoded := JUndefined;
     item_contentSnippet := item_contentSnippet item1;
     item_title := item_title item1;
     item_creator := item_creator item1;
     item_dc_creator := JUndefined;
     item_link := JUndefined;
     item_guid := item_guid item1;
     item_pubDate := item_pubDate item1;
     item_isoDate := JUndefined;
     item_categories := item_categories item1 |}.

(** [post1] after a failed synchronisation. *)
Definition post1failed : Post :=
  {| mediumId := mediumId post1; title := title post1; slug := slug post1;
     description := description post1; content := content post1;
     excerpt := excerpt post1; author := author post1; tags := tags post1;
     categories := categories post1; mediumUrl := mediumUrl post1;
     imageUrl := imageUrl post1;
     publishedAt := publishedAt post1;
     readingTime := readingTime post1; status := status post1;
     featured := featured post1; views := views post1; likes := likes post1;
     metaTitle := metaTitle post1; metaDescription := metaDescription post1;
     lastSyncedAt := lastSyncedAt post1;
     syncStatus := failed;
     createdAt := createdAt post1; updatedAt := updatedAt post1 |}.

Definition worldFailed : World :=
  {| docs := {[7%nat := post1failed]};
     clock := 1704200000000;
     syncInProgress := false;
     syncedCount := 0;
     errorCount := 0 |}.

End Demo.

Module DemoAdmin.
Import JsString Demo.

#[local] Existing Instance engine.
#[local] Existing Instance driver.

Fixpoint insertGroup (g : string * nat) (l : list (string * nat))
  : list (string * nat) :=
  match l with
  | [] => [g]
  | h :: r => if (snd g <=? snd h)%nat then h :: insertGroup g r else g :: l
  end.

Definition sortGroups (l : list (string * nat)) : list (string * nat) :=
  fold_right insertGroup [] l.

(** A driver that rejects nothing and sorts the groups by insertion. *)
Definition adminDriver : AdminDriver.
Proof.
  assert (forall g l, Permutation (insertGroup g l) (g :: l)) as Hins.
  { intros g l. induction l as [|h r IH]; cbn; [reflexivity|].
    destruct (snd g <=? snd h)%nat; [|reflexivity].
    etransitivity; [apply perm_skip, IH | apply perm_swap]. }
  refine {| admin_fault _ _ := None;
            group_sort := sortGroups;
            group_sort_perm := _;
            group_sort_sorted := _ |}.
  - intros l. induction l as [|g l IH]; cbn; [reflexivity|].
    etransitivity; [apply Hins | apply perm_skip, IH].
  - assert (forall g l,
              StronglySorted (fun a b => (snd b <= snd a)%nat) l ->
              StronglySorted (fun a b => (snd b <= snd a)%nat) (insertGroup g l))
      as Hsorted.
    { intros g l Hs. induction Hs as [|h r Hr IH Hh]; cbn; [repeat constructor|].
      destruct (snd g <=? snd h)%nat eqn:Hle.
      - apply Nat.leb_le in Hle. constructor; [exact IH|].
        apply List.Forall_forall. intros x Hx.
        eapply Permutation_in in Hx; [|apply Hins].
        destruct Hx as [<-|Hx]; [exact Hle|].
        exact (proj1 (List.Forall_forall _ _) Hh x Hx).
      - apply Nat.leb_gt in Hle. constructor; [constructor; assumption|].
        constructor; [lia|].
        apply List.Forall_forall. intros x Hx.
        pose proof (proj1 (List.Forall_forall _ _) Hh x Hx) as Hxh.
        cbn in Hxh. lia. }
    intros l. induction l as [|g l IH]; cbn; [constructor|].
    apply Hsorted, IH.
Defined.

#[local] Existing Instance adminDriver.

(** A second published post, with two tags. *)
Definition post2 : Post :=
  {| mediumId := "0123456789ab";
     title := "Second";
     slug := "second";
     description := "Second post";
     content := "<p>Second post</p>";
     excerpt := Some "Second post";
     author := JStr "Mukesh Rawat";
     tags := ["react"; "web"];
     categories := ["react"];
     mediumUrl := JStr "https://medium.com/@me/second-0123456789ab";
     imageUrl := None;
     publishedAt := Some 1704153600000;
     readingTime := 1;
     status := published;
     featured := false;
     views := 10;
     likes := 1;
     metaTitle := Some "Second";
     metaDescription := Some "Second post";
     lastSyncedAt := 1704192800000;
     syncStatus := synced;
     createdAt := 1704153600000;
     updatedAt := 1704192800000 |}.

(** Two published posts and a draft. *)
Definition world4 : World :=
  {| docs := <[8%nat := post2]> (<[9%nat := draft1]> {[7%nat := post1]});
     clock := 1704200000000;
     syncInProgress := false;
     syncedCount := 0;
     errorCount := 0 |}.

Definition noStats : Stats := mkStats 0 0 0 0 0 [] [].

Definition statsOf (w : World) : Stats :=
  match snd (getBlogStats w) with
  | Ok (AdminJson _ (StatsBody st)) => st
  | _ => noStats
  end.

Definition post1Id : string := "65a1f0c2e4b0a1b2c3d4e5f6".

Definition tagQuery : gmap string JsVal := {["tags" := JStr "react, css"]}.

Definition postsOf (r : Res Response) : list (nat * Post) :=
  match r with
  | Ok (Json _ (BlogList ps _ _ _ _ _)) => ps
  | _ => []
  end.

Definition viewedOf (r : Res Response) : nat * Post :=
  match r with
  | Ok (Json _ (BlogOne kp _)) => kp
  | _ => (0%nat, post1)
  end.

Definition relatedOf (r : Res Response) : list (nat * Post) :=
  match r with
  | Ok (Json _ (BlogOne _ related)) => related
  | _ => []
  end.

End DemoAdmin.

(** * Part III.  Properties *)

Ltac munfold :=
  cbv beta iota delta
    [syncItem syncItemTry syncItemCatch needsUpdate bump_error bump_synced
     BlogPost_findOne_mediumId BlogPost_findByIdAndUpdate BlogPost_create
     BlogPost_markFailed try_catch try_finally bind bindRes modify lift Date_now
     ret throw db_call get fst snd].

Ltac cunfold :=
  cbv beta iota delta
    [getBlogPost updateBlogPost BlogPost_adminUpdate BlogPost_findOne_slug
     incrementViews relatedPosts try_catch try_finally bind modify lift
     Date_now ret throw db_call get fst snd].

Ltac world_simpl :=
  cbn [docs clock set_docs set_clock set_counts set_syncInProgress
       syncedCount errorCount syncInProgress fst snd] in *.

Ltac run_step :=
  match goal with
  | |- context [parseMediumArticle ?a ?b] =>
      let H := fresh "Hparse" in destruct (parseMediumArticle a b) eqn:H
  | |- context [usableId ?a] =>
      let H := fresh "Hid" in destruct (usableId a) eqn:H
  | |- context [castUpdate ?a] =>
      let H := fresh "Hcast" in destruct (castUpdate a) eqn:H
  | |- context [db_fault ?a ?b] =>
      let H := fresh "Hfault" in destruct (db_fault a b) eqn:H
  | |- context [findFirst ?a ?b] =>
      let H := fresh "Hfind" in destruct (findFirst a b) as [[? ?]|] eqn:H
  | |- context [match ?m !! ?k with _ => _ end] =>
      let H := fresh "Hlook" in destruct (m !! k) eqn:H
  | |- context [if (?a || ?b)%bool then _ else _] =>
      let H := fresh "Hcond" in destruct (a || b)%bool eqn:H
  | |- context [if (?a <? ?b) then _ else _] =>
      let H := fresh "Hstale" in destruct (a <? b) eqn:H
  end; cbn [docs clock set_docs set_clock set_counts set_syncInProgress
            syncedCount errorCount syncInProgress fst snd] in *.

(** ** The parsed record *)

Module WordCountFacts.
Import JsString WordCount.

Lemma splitFrom_nonempty b s : splitFrom b s <> [].
Proof.
  revert b. induction s as [|c r IH]; intros b; cbn; [discriminate|].
  destruct (isSpace c).
  - destruct b; [apply IH | discriminate].
  - specialize (IH false). destruct (splitFrom false r); [contradiction | discriminate].
Qed.

Lemma splitFrom_length s :
  List.length (splitFrom true s)
  = (wordsFrom false s + (if endsInSpace true s then 1 else 0))%nat
  /\ List.length (splitFrom false s)
     = (wordsFrom true s + 1 + (if endsInSpace false s then 1 else 0))%nat.
Proof.
  induction s as [|c r [IHt IHf]]; cbn; [split; reflexivity|].
  destruct (isSpace c) eqn:Hc; cbn.
  - rewrite IHt. split; lia.
  - pose proof (splitFrom_nonempty false r) as Hne.
    destruct (splitFrom false r) as [|x xs] eqn:Hsplit; [contradiction|].
    cbn [List.length] in *. rewrite IHf. split; lia.
Qed.

(** What [split(/\s+/).length] counts: the words, one more when the text
    starts with white space or is empty, and one more when it ends with
    white space. *)
Lemma split_length_words s :
  List.length (splitWhitespace s)
  = (spec_wordCount s
     + (if isEmpty s || startsWithSpace s then 1 else 0)
     + (if endsInSpace false s then 1 else 0))%nat.
Proof.
  unfold splitWhitespace, spec_wordCount.
  destruct s as [|c r]; [reflexivity|].
  cbn. destruct (isSpace c) eqn:Hc; cbn.
  - destruct (splitFrom_length r) as [-> _]. lia.
  - pose proof (splitFrom_nonempty false r) as Hne.
    destruct (splitFrom false r) as [|x xs] eqn:Hsplit; [contradiction|].
    destruct (splitFrom_length r) as [_ Hf]. rewrite Hsplit in Hf.
    cbn [List.length] in *. rewrite Hf. lia.
Qed.

End WordCountFacts.

Section ParsingFacts.
Context {E : Runtime}.
Import JsString.

Lemma substring0_length n s : (String.length (substring0 n s) <= n)%nat.
Proof.
  unfold substring0. revert s. induction n as [|n IH]; intros [|c r]; cbn; try lia.
  specialize (IH r). lia.
Qed.

Lemma firstn_length_le {A} n (l : list A) : (List.length (firstn n l) <= n)%nat.
Proof. rewrite length_firstn. lia. Qed.

(** The reading time is computed from the number of pieces of the split. *)
Lemma readingTime_formula now item ad :
  parseMediumArticle now item = Ok ad ->
  ad_readingTime ad
  = ceilDiv200 (Z.of_nat (List.length (splitWhitespace (stripTags (ad_content ad))))).
Proof.
  unfold parseMediumArticle, parseBody, bindRes.
  destruct (js_or (js_or _ _) _); try discriminate.
  destruct (generateMediumId _); try discriminate.
  destruct (optTrim _ (item_title item)); try discriminate.
  destruct (optTrim _ (item_contentSnippet item)); try discriminate.
  intros H. injection H as <-. reflexivity.
Qed.

(** For a text that is not empty and neither starts nor ends with white
    space, the reading time is the ceiling of the word count over 200. *)
Lemma readingTime_without_margins now item ad :
  parseMediumArticle now item = Ok ad ->
  let text := stripTags (ad_content ad) in
  isEmpty text || WordCount.startsWithSpace text = false ->
  WordCount.endsInSpace false text = false ->
  ad_readingTime ad = ceilDiv200 (Z.of_nat (WordCount.spec_wordCount text)).
Proof.
  intros Hp text Hstart Hend.
  rewrite (readingTime_formula _ _ _ Hp).
  rewrite WordCountFacts.split_length_words.
  fold text. rewrite Hstart, Hend. f_equal. lia.
Qed.

(** The budgets that hold for every parsed entry: excerpt, tags and
    categories, and the description when it falls back on the text. *)
Lemma parsed_budgets now item ad :
  parseMediumArticle now item = Ok ad ->
  (String.length (ad_excerpt ad) <= 300)%nat
  /\ (List.length (ad_tags ad) <= 10)%nat
  /\ (List.length (ad_categories ad) <= 5)%nat
  /\ (truthy (item_contentSnippet item) = false ->
      (String.length (ad_description ad) <= 500)%nat).
Proof.
  unfold parseMediumArticle, parseBody, bindRes.
  destruct (js_or (js_or _ _) _); try discriminate.
  destruct (generateMediumId _); try discriminate.
  destruct (optTrim _ (item_title item)); try discriminate.
  destruct (optTrim _ (item_contentSnippet item)) as [d|] eqn:Hd; try discriminate.
  intros H. injection H as <-. cbn.
  split; [apply substring0_length|].
  split; [unfold extractTags; destruct (js_or _ _); cbn; try lia;
          apply firstn_length_le|].
  split; [unfold extractCategories; apply firstn_length_le|].
  intros Hfalsy.
  destruct (item_contentSnippet item) as [| |b|n|x|l|]; cbn in Hd, Hfalsy;
    try discriminate; injection Hd as <-; cbn; try apply substring0_length.
  destruct x; [cbn; apply substring0_length | discriminate].
Qed.

Lemma parse_derivedId now item ad :
  parseMediumArticle now item = Ok ad ->
  usableId (ad_mediumId ad) = derivedId item.
Proof.
  unfold parseMediumArticle, parseBody, derivedId, bindRes.
  destruct (js_or (js_or _ _) _); try discriminate.
  destruct (generateMediumId _); try discriminate.
  destruct (optTrim _ (item_title item)); try discriminate.
  destruct (optTrim _ (item_contentSnippet item)); try discriminate.
  intros H. inversion H. reflexivity.
Qed.

Lemma parse_publishedAt now item ad :
  parseMediumArticle now item = Ok ad ->
  ad_publishedAt ad = newDate (js_or (item_pubDate item) (item_isoDate item)).
Proof.
  unfold parseMediumArticle, parseBody, bindRes.
  destruct (js_or (js_or _ _) _); try discriminate.
  destruct (generateMediumId _); try discriminate.
  destruct (optTrim _ (item_title item)); try discriminate.
  destruct (optTrim _ (item_contentSnippet item)); try discriminate.
  intros H. inversion H. reflexivity.
Qed.

Lemma parse_sync_fields now item ad :
  parseMediumArticle now item = Ok ad ->
  ad_lastSyncedAt ad = now /\ ad_syncStatus ad = synced.
Proof.
  unfold parseMediumArticle, parseBody, bindRes.
  destruct (js_or (js_or _ _) _); try discriminate.
  destruct (generateMediumId _); try discriminate.
  destruct (optTrim _ (item_title item)); try discriminate.
  destruct (optTrim _ (item_contentSnippet item)); try discriminate.
  intros H. injection H as <-. split; reflexivity.
Qed.

Lemma parse_any_time now1 now2 item ad1 :
  parseMediumArticle now1 item = Ok ad1 ->
  exists ad2, parseMediumArticle now2 item = Ok ad2.
Proof.
  unfold parseMediumArticle, parseBody, bindRes.
  destruct (js_or (js_or _ _) _); try discriminate.
  destruct (generateMediumId _); try discriminate.
  destruct (optTrim _ (item_title item)); try discriminate.
  destruct (optTrim _ (item_contentSnippet item)); try discriminate.
  intros _. eexists. reflexivity.
Qed.

(** C6.  The text of [Demo.item400] has exactly 400 words, and its reading
    time comes out as 3, not as the ceiling of 400/200: the split counts the
    empty piece after the final line feed as a word. *)
Theorem reading_time_of_400_words now :
  WordCount.spec_wordCount (stripTags Demo.body400) = 400%nat
  /\ List.length (splitWhitespace (stripTags Demo.body400)) = 401%nat
  /\ ad_readingTime <$> parsed now Demo.item400 = Some 3.
Proof. repeat split; vm_compute; reflexivity. Qed.

(** C9.  The description of [Demo.item501] is its whole snippet, 501
    characters: only the fallback on the text is cut at 500. *)
Theorem description_of_long_snippet now :
  (fun ad => String.length (ad_description ad)) <$> parsed now Demo.item501
  = Some 501%nat.
Proof. vm_compute. reflexivity. Qed.

End ParsingFacts.

(** ** Facts about the store *)

Section StoreFacts.
Context {E : Runtime} {D : MongoDriver}.

Lemma findFirst_Some f (m : gmap nat Post) k p :
  findFirst f m = Some (k, p) -> m !! k = Some p /\ f p = true.
Proof.
  unfold findFirst. intros H.
  apply find_some in H as [Hin Hf]. simpl in Hf. split; [|exact Hf].
  apply elem_of_map_to_list. apply list_elem_of_In. exact Hin.
Qed.

Lemma findFirst_None f (m : gmap nat Post) k p :
  findFirst f m = None -> m !! k = Some p -> f p = false.
Proof.
  unfold findFirst. intros H Hk.
  apply (find_none _ _ H (k, p)).
  apply list_elem_of_In. apply elem_of_map_to_list. exact Hk.
Qed.

Lemma has_mediumId_true mid p : has_mediumId mid p = true <-> mediumId p = mid.
Proof. unfold has_mediumId. apply String.eqb_eq. Qed.

Lemma has_mediumId_false mid p : has_mediumId mid p = false <-> mediumId p <> mid.
Proof. unfold has_mediumId. apply String.eqb_neq. Qed.

Lemma findFirst_unique (m : gmap nat Post) mid k p :
  unique_mediumId m -> m !! k = Some p -> mediumId p = mid ->
  findFirst (has_mediumId mid) m = Some (k, p).
Proof.
  intros Hu Hk Hm.
  destruct (findFirst (has_mediumId mid) m) as [[k' p']|] eqn:Hf.
  - apply findFirst_Some in Hf as [Hk' Hp']. apply has_mediumId_true in Hp'.
    assert (k' = k) by (eapply Hu; eauto; congruence). subst k'.
    congruence.
  - eapply findFirst_None in Hf; eauto.
    apply has_mediumId_false in Hf. contradiction.
Qed.

Lemma unique_insert_same (m : gmap nat Post) k p p' :
  unique_mediumId m -> m !! k = Some p -> mediumId p' = mediumId p ->
  unique_mediumId (<[k := p']> m).
Proof.
  intros Hu Hk Hm i j a b Hi Hj Hab.
  destruct (decide (k = i)) as [Hki|Hki], (decide (k = j)) as [Hkj|Hkj];
    subst; trivial.
  - rewrite lookup_insert_eq in Hi. rewrite lookup_insert_ne in Hj by done.
    inversion Hi; subst a. eapply Hu; eauto. congruence.
  - rewrite lookup_insert_eq in Hj. rewrite lookup_insert_ne in Hi by done.
    inversion Hj; subst b. eapply Hu; eauto. congruence.
  - rewrite lookup_insert_ne in Hi by done. rewrite lookup_insert_ne in Hj by done.
    eapply Hu; eauto.
Qed.

Lemma unique_singleton k (p : Post) : unique_mediumId {[k := p]}.
Proof.
  intros i j a b Hi Hj _.
  apply lookup_singleton_Some in Hi as [<- _].
  apply lookup_singleton_Some in Hj as [<- _]. reflexivity.
Qed.

End StoreFacts.

(** ** What one iteration does to the collection *)

Section SyncFacts.
Context {E : Runtime} {D : MongoDriver}.
Import JsString.

Lemma syncItemCatch_effect item w :
  ItemEffect item (docs w) (docs (fst (syncItemCatch item w)))
  /\ snd (syncItemCatch item w) = Ok tt.
Proof.
  munfold. cbn [docs clock set_docs set_clock set_counts].
  repeat run_step; try (split; [apply effect_none|reflexivity]).
  split; [|reflexivity].
  eapply effect_failed; eauto.
  erewrite <- parse_derivedId; eauto.
Qed.

Lemma syncItemTry_effect item w :
  match syncItemTry item w with
  | (w', Ok _) => ItemEffect item (docs w) (docs w')
  | (w', Throw _) => docs w' = docs w
  end.
Proof.
  munfold. cbn [docs clock set_docs set_clock set_counts].
  repeat run_step; try apply effect_none; try reflexivity.
  all: try (apply findFirst_Some in Hfind as [Hk _]; congruence).
  all: assert (p0 = p) as ->
      by (apply findFirst_Some in Hfind as [Hk _]; congruence).
  all: eapply effect_update; eauto; erewrite <- parse_derivedId; eauto.
Qed.

Lemma syncItem_effect item w :
  ItemEffect item (docs w) (docs (fst (syncItem item w)))
  /\ snd (syncItem item w) = Ok tt.
Proof.
  pose proof (syncItemTry_effect item w) as HT.
  unfold syncItem, try_catch.
  destruct (syncItemTry item w) as [w' [[]|e]] eqn:Htry.
  - split; [exact HT | reflexivity].
  - rewrite <- HT. apply syncItemCatch_effect.
Qed.

End SyncFacts.

Section LoopFacts.
Context {E : Runtime} {D : MongoDriver}.

Lemma syncLoop_cons item rest w :
  syncLoop (item :: rest) w = syncLoop rest (fst (syncItem item w)).
Proof.
  cbn [syncLoop]. unfold bind.
  pose proof (syncItem_effect item w) as [_ Hok].
  destruct (syncItem item w) as [w' r]. simpl in *. subst r. reflexivity.
Qed.

Lemma syncLoop_ok items : forall w, snd (syncLoop items w) = Ok tt.
Proof.
  induction items as [|item rest IH]; intros w; [reflexivity|].
  rewrite syncLoop_cons. apply IH.
Qed.

(** A property of the collection that every iteration keeps is kept by
    the loop. *)
Lemma syncLoop_invariant (I : gmap nat Post -> Prop) items :
  (forall item d d', In item items -> ItemEffect item d d' -> I d -> I d') ->
  forall w, I (docs w) -> I (docs (fst (syncLoop items w))).
Proof.
  induction items as [|item rest IH]; intros Hstep w Hw; [exact Hw|].
  rewrite syncLoop_cons. apply IH.
  - intros it d d' Hin. apply Hstep. right. exact Hin.
  - eapply Hstep; [left; reflexivity | apply syncItem_effect | exact Hw].
Qed.

(** An iteration leaves alone the posts whose identifier is not the one
    of its entry. *)
Lemma ItemEffect_frame item d d' k p :
  ItemEffect item d d' -> d !! k = Some p ->
  derivedId item <> Some (mediumId p) -> d' !! k = Some p.
Proof.
  intros Heff Hk Hne.
  destruct Heff as [|now ad c mid id p0 stamp _ _ Hid Hf
                   |mid id p0 now stamp Hid Hf].
  - exact Hk.
  - apply findFirst_Some in Hf as [Hk0 Hm]. apply has_mediumId_true in Hm.
    rewrite lookup_insert_ne; [exact Hk|]. intros ->. congruence.
  - apply findFirst_Some in Hf as [Hk0 Hm]. apply has_mediumId_true in Hm.
    rewrite lookup_insert_ne; [exact Hk|]. intros ->. congruence.
Qed.

(** [syncArticles] in closed form. *)
Lemma syncArticles_unfold parsed w :
  syncArticles parsed w =
  if syncInProgress w then (w, Ok (SyncBusy "Sync already in progress"))
  else
    let w1 := set_counts 0 0 (set_syncInProgress true w) in
    match feedItems parsed with
    | Some items =>
        let w2 := fst (syncLoop items w1) in
        (set_syncInProgress false w2,
         Ok (SyncDone (syncedCount w2) (errorCount w2) (List.length items)))
    | None =>
        (set_syncInProgress false w1, Ok (SyncFailed (fetchError parsed) 0 0))
    end.
Proof.
  unfold syncArticles, bind, get, ret, modify, try_finally, try_catch,
    fetchMediumArticles, lift, throw.
  destruct (syncInProgress w); [reflexivity|].
  destruct parsed as [[[[items|]]|]|e]; simpl; try reflexivity.
  pose proof (syncLoop_ok items (set_counts 0 0 (set_syncInProgress true w))) as Hok.
  destruct (syncLoop items _) as [w2 r]. simpl in *. subst r. reflexivity.
Qed.

Lemma ItemEffect_unique item d d' :
  ItemEffect item d d' -> unique_mediumId d -> unique_mediumId d'.
Proof.
  intros Heff Hu. destruct Heff as [|now ad c mid id p stamp _ _ _ Hf
                                   |mid id p now stamp _ Hf].
  - exact Hu.
  - apply findFirst_Some in Hf as [Hk Hm]. apply has_mediumId_true in Hm.
    eapply unique_insert_same; eauto.
  - apply findFirst_Some in Hf as [Hk Hm].
    eapply unique_insert_same; eauto.
Qed.

Lemma ItemEffect_existing item d d' mid i p :
  ItemEffect item d d' ->
  derivedId item = Some mid -> d !! i = Some p -> mediumId p = mid ->
  dom d' = dom d
  /\ forall j q', d' !! j = Some q' ->
                  exists q, d !! j = Some q /\ mediumId q' = mediumId q.
Proof.
  intros Heff Hid Hi Hm.
  destruct Heff as [|now ad c mid' id p0 stamp _ _ Hid' Hf
                   |mid' id p0 now stamp Hid' Hf].
  - split; [reflexivity|]. intros j q' Hj. eauto.
  - apply findFirst_Some in Hf as [Hk Hm']. apply has_mediumId_true in Hm'.
    split.
    + apply dom_insert_lookup_L. eauto.
    + intros j q' Hj. destruct (decide (id = j)) as [->|Hne].
      * rewrite lookup_insert_eq in Hj. injection Hj as <-.
        exists p0. split; [exact Hk|]. simpl. congruence.
      * rewrite lookup_insert_ne in Hj by done. eauto.
  - apply findFirst_Some in Hf as [Hk Hm'].
    split.
    + apply dom_insert_lookup_L. eauto.
    + intros j q' Hj. destruct (decide (id = j)) as [->|Hne].
      * rewrite lookup_insert_eq in Hj. injection Hj as <-.
        exists p0. split; [exact Hk|]. reflexivity.
      * rewrite lookup_insert_ne in Hj by done. eauto.
Qed.

Lemma counters_kept_refl d : counters_kept d d.
Proof. intros k p Hk. exists p. repeat split. exact Hk. Qed.

Lemma counters_kept_trans d1 d2 d3 :
  counters_kept d1 d2 -> counters_kept d2 d3 -> counters_kept d1 d3.
Proof.
  intros H12 H23 k p Hk.
  destruct (H12 k p Hk) as (p2 & Hk2 & Hm2 & Hv2 & Hl2 & Hf2).
  destruct (H23 k p2 Hk2) as (p3 & Hk3 & Hm3 & Hv3 & Hl3 & Hf3).
  exists p3. repeat split; congruence.
Qed.

Lemma counters_kept_insert (d : gmap nat Post) id p p' :
  d !! id = Some p ->
  mediumId p' = mediumId p -> views p' = views p -> likes p' = likes p ->
  featured p' = featured p ->
  counters_kept d (<[id := p']> d).
Proof.
  intros Hid Hm Hv Hl Hf k q Hk. destruct (decide (id = k)) as [->|Hne].
  - exists p'. rewrite lookup_insert_eq.
    assert (q = p) as -> by congruence. repeat split; assumption.
  - exists q. rewrite lookup_insert_ne by exact Hne. repeat split. exact Hk.
Qed.

(** An iteration removes no post and keeps the identifier, the views, the
    likes and the featured flag of every post. *)
Lemma ItemEffect_counters_kept item d d' :
  ItemEffect item d d' -> counters_kept d d'.
Proof.
  intros Heff.
  destruct Heff as [|now ad c mid id p stamp _ _ _ Hf
                   |mid id p now stamp _ Hf].
  - apply counters_kept_refl.
  - apply findFirst_Some in Hf as [Hk Hm]. apply has_mediumId_true in Hm.
    eapply counters_kept_insert; eauto.
  - apply findFirst_Some in Hf as [Hk Hm].
    eapply counters_kept_insert; eauto.
Qed.

Lemma syncLoop_counters_kept items :
  forall w, counters_kept (docs w) (docs (fst (syncLoop items w))).
Proof.
  induction items as [|item rest IH]; intros w; [apply counters_kept_refl|].
  rewrite syncLoop_cons. eapply counters_kept_trans; [|apply IH].
  apply ItemEffect_counters_kept with (item := item). apply syncItem_effect.
Qed.

Lemma syncArticles_counters_kept parsed w :
  counters_kept (docs w) (docs (fst (syncArticles parsed w))).
Proof.
  rewrite syncArticles_unfold.
  destruct (syncInProgress w); [apply counters_kept_refl|].
  destruct (feedItems parsed) as [items|]; cbn; [|apply counters_kept_refl].
  apply (syncLoop_counters_kept items (set_counts 0 0 (set_syncInProgress true w))).
Qed.

(** No iteration adds or removes a document. *)
Lemma ItemEffect_dom item d d' : ItemEffect item d d' -> dom d' = dom d.
Proof.
  intros [|now ad c mid id p stamp _ _ _ Hf|mid id p now stamp _ Hf].
  - reflexivity.
  - apply findFirst_Some in Hf as [Hk _]. apply dom_insert_lookup_L. eauto.
  - apply findFirst_Some in Hf as [Hk _]. apply dom_insert_lookup_L. eauto.
Qed.

Lemma syncLoop_dom items :
  forall w, dom (docs (fst (syncLoop items w))) = dom (docs w).
Proof.
  intros w. apply (syncLoop_invariant (fun d => dom d = dom (docs w))); [|reflexivity].
  intros item d d' _ Heff Hd. rewrite (ItemEffect_dom _ _ _ Heff). exact Hd.
Qed.

Lemma syncArticles_dom parsed w :
  dom (docs (fst (syncArticles parsed w))) = dom (docs w).
Proof.
  rewrite syncArticles_unfold.
  destruct (syncInProgress w); [reflexivity|].
  destruct (feedItems parsed) as [items|]; cbn; [|reflexivity].
  apply (syncLoop_dom items (set_counts 0 0 (set_syncInProgress true w))).
Qed.

End LoopFacts.

(** ** Running the routine twice *)

Section Rerun.
Context {E : Runtime} {D : MongoDriver}.
Hypothesis no_fault : forall c d, syncCall c = true -> db_fault c d = None.
Hypothesis tick_mono : forall t, t <= tick t.

Lemma date_gt_irrefl a : date_gt a a = false.
Proof. destruct a as [x|]; simpl; [apply Z.ltb_irrefl | reflexivity]. Qed.

Lemma settled_intro item d now0 ad0 :
  parseMediumArticle now0 item = Ok ad0 ->
  (forall mid k p, usableId (ad_mediumId ad0) = Some mid ->
     d !! k = Some p -> mediumId p = mid ->
     date_gt (ad_publishedAt ad0) (publishedAt p) = false
     /\ syncStatus p <> failed) ->
  settled item d.
Proof.
  intros Hp0 H now ad mid k p Hp Hid Hk Hm.
  rewrite (parse_publishedAt _ _ _ Hp), <- (parse_publishedAt _ _ _ Hp0).
  apply (H mid k p); [|exact Hk | exact Hm].
  rewrite (parse_derivedId _ _ _ Hp0), <- (parse_derivedId _ _ _ Hp). exact Hid.
Qed.

Lemma settled_no_parse item d now0 e :
  parseMediumArticle now0 item = Throw e -> settled item d.
Proof.
  intros Hp0 now ad mid k p Hp _.
  destruct (parse_any_time now now0 item ad Hp) as [ad' Hp']. congruence.
Qed.

Lemma castUpdate_date ad c :
  castUpdate ad = Ok c -> ad_publishedAt ad = Some (set_publishedAt c).
Proof.
  unfold castUpdate, bindRes.
  destruct (castString _ (ad_author ad)); [|discriminate].
  destruct (castString _ (ad_mediumUrl ad)); [|discriminate].
  destruct (ad_publishedAt ad); [|discriminate].
  intros [= <-]. reflexivity.
Qed.

Lemma parse_castUpdate now1 now2 item ad1 ad2 :
  parseMediumArticle now1 item = Ok ad1 ->
  parseMediumArticle now2 item = Ok ad2 ->
  castUpdate ad1 = castUpdate ad2.
Proof.
  unfold parseMediumArticle, parseBody, bindRes.
  destruct (js_or (js_or _ _) _); try discriminate.
  destruct (generateMediumId _); try discriminate.
  destruct (optTrim _ (item_title item)); try discriminate.
  destruct (optTrim _ (item_contentSnippet item)); try discriminate.
  intros [= <-] [= <-]. reflexivity.
Qed.

Lemma updatable_at now0 item ad0 c :
  parseMediumArticle now0 item = Ok ad0 -> castUpdate ad0 = Ok c ->
  updatable item.
Proof.
  intros Hp0 Hc now ad Hp. exists c.
  rewrite (parse_castUpdate _ _ _ _ _ Hp Hp0). exact Hc.
Qed.

Ltac step_nf :=
  first [rewrite no_fault by reflexivity; cbv beta iota; world_simpl | run_step].

Ltac parse_clash :=
  match goal with
  | H1 : parseMediumArticle _ ?i = Throw _,
    H2 : parseMediumArticle _ ?i = Ok _ |- _ =>
      let ad' := fresh in let H' := fresh in
      destruct (parse_any_time _ (ltac:(match type of H1 with
                                        | parseMediumArticle ?n _ = _ => exact n
                                        end)) _ _ H2) as [ad' H'];
      congruence
  end.

Ltac ids :=
  repeat match goal with
         | Hp : parseMediumArticle _ ?i = Ok ?a,
           H : context [usableId (ad_mediumId ?a)] |- _ =>
             rewrite (parse_derivedId _ _ _ Hp) in H
         end.

Ltac cast_clash Hupd :=
  match goal with
  | Hp : parseMediumArticle _ ?i = Ok ?a, Hc : castUpdate ?a = Throw _ |- _ =>
      let c := fresh in let H := fresh in
      destruct (Hupd _ _ Hp) as [c H]; congruence
  end.

(** After its iteration an entry whose update can be cast is settled. *)
Lemma syncItem_settles item w :
  unique_mediumId (docs w) -> updatable item ->
  settled item (docs (fst (syncItem item w))).
Proof.
  intros Hu Hupd.
  munfold. cbn [docs clock set_docs set_clock set_counts].
  repeat step_nf.
  all: try (eapply settled_no_parse; eassumption).
  all: try cast_clash Hupd.
  all: try parse_clash.
  all: eapply settled_intro; [exact Hparse|]; intros mid k q Hmid Hk Hm.
  all: ids.
  all: try congruence.
  all: assert (mid = s) as -> by congruence.
  all: try (eapply findFirst_None in Hfind; [|exact Hk];
            apply has_mediumId_false in Hfind; contradiction).
  all: apply findFirst_Some in Hfind as [Hn Hmn]; apply has_mediumId_true in Hmn.
  all: try congruence.
  all: try (destruct (decide (k = n)) as [->|Hne];
            [rewrite lookup_insert_eq in Hk; injection Hk as <-; cbn;
             destruct (parse_sync_fields _ _ _ Hparse) as [_ ->];
             rewrite (castUpdate_date _ _ Hcast);
             split; [apply date_gt_irrefl | discriminate]
            |rewrite lookup_insert_ne in Hk by congruence;
             exfalso; apply Hne; eapply Hu; eauto; congruence]).
  all: assert (k = n) as -> by (eapply Hu; eauto; congruence).
  all: assert (q = p) as -> by congruence.
  all: apply orb_false_iff in Hcond as [Hgt Hfailed];
    apply bool_decide_eq_false in Hfailed; split; assumption.
Qed.

Lemma settled_frame item other d d' :
  settled item d -> ItemEffect other d d' ->
  (forall mid, derivedId item = Some mid -> derivedId other <> Some mid) ->
  settled item d'.
Proof.
  intros Hs Heff Hne now ad mid k p Hp Hid Hk Hm.
  assert (derivedId item = Some mid) as Hitem
      by (rewrite <- (parse_derivedId _ _ _ Hp); exact Hid).
  apply (Hs now ad mid k p Hp Hid); [|exact Hm].
  destruct Heff as [|now' ad' c mid' id p0 stamp _ _ Hid' Hf
                   |mid' id p0 now' stamp Hid' Hf].
  - exact Hk.
  - destruct (decide (k = id)) as [->|Hki].
    + rewrite lookup_insert_eq in Hk. injection Hk as <-. cbn in Hm.
      exfalso. apply (Hne mid Hitem). congruence.
    + rewrite lookup_insert_ne in Hk by congruence. exact Hk.
  - apply findFirst_Some in Hf as [Hk0 Hm0]. apply has_mediumId_true in Hm0.
    destruct (decide (k = id)) as [->|Hki].
    + rewrite lookup_insert_eq in Hk. injection Hk as <-. cbn in Hm.
      exfalso. apply (Hne mid Hitem). congruence.
    + rewrite lookup_insert_ne in Hk by congruence. exact Hk.
Qed.

Lemma syncLoop_settles items :
  distinct_ids items ->
  (forall item, In item items -> updatable item) ->
  forall w, unique_mediumId (docs w) ->
            forall item, In item items ->
                         settled item (docs (fst (syncLoop items w))).
Proof.
  unfold distinct_ids.
  induction items as [|a rest IH]; intros Hnd Hupd w Hu item Hin; [destruct Hin|].
  rewrite syncLoop_cons.
  assert (NoDup (omap derivedId rest)) as Hnd'.
  { cbn in Hnd. destruct (derivedId a); [apply NoDup_cons in Hnd as [_ H]|]; assumption. }
  assert (unique_mediumId (docs (fst (syncItem a w)))) as Hu'
      by (eapply ItemEffect_unique; [apply syncItem_effect | exact Hu]).
  destruct Hin as [<-|Hin];
    [|apply IH; auto; intros it Hit; apply Hupd; right; exact Hit].
  apply (syncLoop_invariant (settled a));
    [|apply syncItem_settles; [exact Hu | apply Hupd; left; reflexivity]].
  intros other d d' Hother Heff Hs.
  eapply settled_frame; eauto.
  intros mid Ha Ho. cbn in Hnd. rewrite Ha in Hnd.
  apply NoDup_cons in Hnd as [Hnotin _]. apply Hnotin.
  apply list_elem_of_omap. exists other. split; [|exact Ho].
  apply list_elem_of_In. exact Hother.
Qed.

Ltac ticks :=
  repeat match goal with
         | |- context [tick ?t] =>
             lazymatch goal with
             | _ : t <= tick t |- _ => fail
             | _ => pose proof (tick_mono t)
             end
         | _ : context [tick ?t] |- _ =>
             lazymatch goal with
             | _ : t <= tick t |- _ => fail
             | _ => pose proof (tick_mono t)
             end
         end.

Lemma syncItem_clock_mono item w : clock w <= clock (fst (syncItem item w)).
Proof.
  munfold. cbn [docs clock set_docs set_clock set_counts].
  repeat step_nf.
  all: ticks; lia.
Qed.

Lemma syncLoop_clock_mono items : forall w, clock w <= clock (fst (syncLoop items w)).
Proof.
  induction items as [|a rest IH]; intros w; [reflexivity|].
  rewrite syncLoop_cons.
  etransitivity; [apply syncItem_clock_mono | apply IH].
Qed.

(** The iteration of a settled and fresh entry changes nothing: a stored
    post is not due, and an entry without a stored post is not created. *)
Lemma syncItem_noop item w T :
  settled item (docs w) ->
  fresh_at T item (docs w) ->
  clock (fst (syncItem item w)) <= T ->
  docs (fst (syncItem item w)) = docs w
  /\ syncedCount (fst (syncItem item w)) = syncedCount w.
Proof.
  intros Hs Hf.
  munfold. cbn [docs clock set_docs set_clock set_counts syncedCount].
  repeat step_nf; intros HT; try (split; reflexivity).
  all: try parse_clash.
  all: try congruence.
  all: exfalso.
  all: repeat match goal with
              | H : findFirst _ _ = Some _ |- _ =>
                  apply findFirst_Some in H as [? ?]
              end.
  all: try congruence.
  all: try (assert (s0 = s) as -> by (ids; congruence);
            match goal with
            | Hn : findFirst _ _ = None, Hk : _ !! _ = Some ?p,
              Hm : has_mediumId _ ?p = true |- _ =>
                eapply findFirst_None in Hn; [|exact Hk]; congruence
            end).
  all: match goal with
       | Hk : _ !! ?n = Some ?p, Hm : has_mediumId ?s ?p = true |- _ =>
           apply has_mediumId_true in Hm;
           destruct (Hs _ _ _ _ _ Hparse Hid Hk Hm) as [Hgt Hnf];
           assert (T - lastSyncedAt p <= DAY_MS)
             by (eapply Hf; eauto; rewrite Hm;
                 rewrite <- (parse_derivedId _ _ _ Hparse); exact Hid)
       end.
  all: try (apply orb_true_iff in Hcond as [Hc|Hc]; [congruence|];
            apply bool_decide_eq_true in Hc; contradiction).
  all: try (apply Z.ltb_lt in Hstale; ticks; lia).
Qed.

(** The loop changes nothing when every entry is settled and fresh until
    the loop ends. *)
Lemma syncLoop_noop items T :
  forall w,
    (forall item, In item items -> settled item (docs w)) ->
    (forall item, In item items -> fresh_at T item (docs w)) ->
    clock (fst (syncLoop items w)) <= T ->
    docs (fst (syncLoop items w)) = docs w
    /\ syncedCount (fst (syncLoop items w)) = syncedCount w.
Proof.
  induction items as [|a rest IH]; intros w Hs Hf HT; [split; reflexivity|].
  rewrite syncLoop_cons in *.
  assert (clock (fst (syncItem a w)) <= T) as HTa
      by (etransitivity; [apply syncLoop_clock_mono | exact HT]).
  destruct (syncItem_noop a w T (Hs a (or_introl eq_refl))
              (Hf a (or_introl eq_refl)) HTa) as [Hd Hc].
  destruct (IH (fst (syncItem a w))) as [Hd' Hc'].
  - intros item Hin. rewrite Hd. apply Hs. right. exact Hin.
  - intros item Hin. rewrite Hd. apply Hf. right. exact Hin.
  - exact HT.
  - split; congruence.
Qed.

(** The second of two runs on one feed. *)
Lemma second_run_noop items w0 t2 :
  syncInProgress w0 = false ->
  unique_mediumId (docs w0) ->
  distinct_ids items ->
  (forall item, In item items -> updatable item) ->
  let w1 := fst (syncArticles (feedOf items) w0) in
  let second := syncArticles (feedOf items) (set_clock t2 w1) in
  (forall item, In item items ->
                fresh_at (clock (fst second)) item (docs w1)) ->
  docs (fst second) = docs w1
  /\ exists errors, snd second = Ok (SyncDone 0 errors (List.length items)).
Proof.
  intros Hidle Hu Hd Hupd w1 second. subst second w1.
  rewrite !syncArticles_unfold. rewrite Hidle. cbn [feedOf feedItems].
  cbv zeta. world_simpl.
  set (wa := fst (syncLoop items (set_counts 0 0 (set_syncInProgress true w0)))).
  set (wb := set_counts 0 0 (set_syncInProgress true
               (set_clock t2 (set_syncInProgress false wa)))).
  intros Hfresh.
  assert (docs wb = docs wa) as Hdocs by reflexivity.
  destruct (syncLoop_noop items (clock (fst (syncLoop items wb))) wb) as [H1 H2].
  - intros item Hin. rewrite Hdocs. apply syncLoop_settles; assumption.
  - intros item Hin. rewrite Hdocs. apply Hfresh. exact Hin.
  - reflexivity.
  - split; [rewrite H1; reflexivity|].
    eexists. rewrite H2. reflexivity.
Qed.

End Rerun.

Section RerunClaim.
Context {E : Runtime} {D : MongoDriver}.

(** C2, amended.  Whatever the driver does, the second run on the same
    feed adds and removes no post and keeps the identifier, views, likes
    and featured flag of every post.  When moreover the driver rejects none
    of the calls of the routine, the clock does not run backwards, the
    stored identifiers are unique, the entries of the feed have pairwise
    distinct identifiers and updates that can be cast, and the second run
    ends while no stored post of an entry is more than 24 hours past its
    [lastSyncedAt], the second run leaves the collection exactly as the
    first run left it; and it reports nothing synced, unless the routine
    was already marked as running. *)
Theorem second_run_within_a_day_changes_nothing items w0 t2 :
  let w1 := fst (syncArticles (feedOf items) w0) in
  let second := syncArticles (feedOf items) (set_clock t2 w1) in
  dom (docs (fst second)) = dom (docs w1)
  /\ counters_kept (docs w1) (docs (fst second))
  /\ ((forall c d, syncCall c = true -> db_fault c d = None) ->
      (forall t, t <= tick t) ->
      unique_mediumId (docs w0) ->
      distinct_ids items ->
      (forall item, In item items -> updatable item) ->
      (forall item, In item items ->
                    fresh_at (clock (fst second)) item (docs w1)) ->
      docs (fst second) = docs w1
      /\ (syncInProgress w0 = false ->
          exists errors,
            snd second = Ok (SyncDone 0 errors (List.length items)))).
Proof.
  intros w1 second.
  split; [exact (syncArticles_dom (feedOf items) (set_clock t2 w1))|].
  split; [exact (syncArticles_counters_kept (feedOf items) (set_clock t2 w1))|].
  intros Hnf Htick Hu Hd Hupd Hfresh.
  destruct (syncInProgress w0) eqn:Hidle.
  - split; [|discriminate].
    subst second w1. rewrite (syncArticles_unfold (feedOf items) w0), Hidle.
    cbn [fst]. rewrite syncArticles_unfold.
    change (syncInProgress (set_clock t2 w0)) with (syncInProgress w0).
    rewrite Hidle. reflexivity.
  - destruct (second_run_noop Hnf Htick items w0 t2 Hidle Hu Hd Hupd Hfresh)
      as [Hsame Hres].
    split; [exact Hsame | intros _; exact Hres].
Qed.

End RerunClaim.

(** ** Properties of the ingestion routine *)

Section SyncClaims.
Context {E : Runtime} {D : MongoDriver}.

Lemma derivedId_absent item :
  truthy (item_guid item) = false -> truthy (item_link item) = false ->
  generateMediumId (js_or (item_guid item) (item_link item)) = Ok None
  /\ derivedId item = None.
Proof.
  intros Hg Hl. unfold derivedId, generateMediumId, js_or.
  rewrite Hg, Hl. simpl. split; reflexivity.
Qed.

Lemma syncItem_synced_without_id item w :
  derivedId item = None ->
  syncedCount (fst (syncItem item w)) = syncedCount w.
Proof.
  intros Hnone.
  assert (forall now ad s, parseMediumArticle now item = Ok ad ->
                           usableId (ad_mediumId ad) = Some s -> False) as Hno.
  { intros now ad s Hp Hu. erewrite parse_derivedId in Hu by eauto. congruence. }
  munfold. cbn [docs clock set_docs set_clock set_counts syncedCount].
  repeat run_step; try reflexivity; exfalso; eauto.
Qed.

(** C3.  The identifier index stays unique through a run of
    [syncArticles], whatever the feed and whatever the driver rejects; and
    an entry whose identifier is already stored never adds a document:
    the keys of the collection are the same afterwards and every document
    keeps its identifier. *)
Theorem sync_never_duplicates_mediumId :
  (forall parsed w,
      unique_mediumId (docs w) ->
      unique_mediumId (docs (fst (syncArticles parsed w))))
  /\ (forall item w mid i p,
        derivedId item = Some mid ->
        docs w !! i = Some p -> mediumId p = mid ->
        dom (docs (fst (syncItem item w))) = dom (docs w)
        /\ forall j q', docs (fst (syncItem item w)) !! j = Some q' ->
                        exists q, docs w !! j = Some q /\ mediumId q' = mediumId q).
Proof.
  split.
  - intros parsed w Hu. rewrite syncArticles_unfold.
    destruct (syncInProgress w); [exact Hu|].
    destruct (feedItems parsed) as [items|]; cbn; [|exact Hu].
    apply (syncLoop_invariant unique_mediumId); [|exact Hu].
    intros item d d' _ Heff. eapply ItemEffect_unique; eauto.
  - intros item w mid i p Hid Hi Hm.
    eapply ItemEffect_existing; eauto. apply syncItem_effect.
Qed.

Lemma syncItem_counts item w :
  (syncedCount w <= syncedCount (fst (syncItem item w)))%nat
  /\ (errorCount w <= errorCount (fst (syncItem item w)))%nat
  /\ (syncedCount (fst (syncItem item w)) + errorCount (fst (syncItem item w))
      <= S (syncedCount w + errorCount w))%nat.
Proof.
  munfold. cbn [docs clock set_docs set_clock set_counts syncedCount errorCount].
  repeat run_step; lia.
Qed.

Lemma syncLoop_counts items :
  forall w,
    (syncedCount (fst (syncLoop items w)) + errorCount (fst (syncLoop items w))
     <= List.length items + (syncedCount w + errorCount w))%nat.
Proof.
  induction items as [|item rest IH]; intros w; [cbn; lia|].
  rewrite syncLoop_cons. specialize (IH (fst (syncItem item w))).
  pose proof (syncItem_counts item w). cbn [List.length]. lia.
Qed.

(** C4.  [syncArticles] always returns a result object: the busy message,
    the counts with every entry of the feed processed (synced and errors
    together at most the number of entries), or the failure message of the
    fetch.  No iteration throws, so the entries after a failed one are
    processed from the world it left. *)
Theorem sync_always_returns_a_result :
  (forall parsed w,
      exists synced errors,
        snd (syncArticles parsed w) =
        Ok (if syncInProgress w then SyncBusy "Sync already in progress"
            else match feedItems parsed with
                 | Some items => SyncDone synced errors (List.length items)
                 | None => SyncFailed (fetchError parsed) 0 0
                 end)
        /\ forall items, feedItems parsed = Some items ->
                         (synced + errors <= List.length items)%nat)
  /\ (forall item rest w,
        snd (syncItem item w) = Ok tt
        /\ syncLoop (item :: rest) w = syncLoop rest (fst (syncItem item w))).
Proof.
  split.
  - intros parsed w. rewrite syncArticles_unfold.
    destruct (syncInProgress w);
      [exists 0%nat, 0%nat; split; [reflexivity | intros; lia]|].
    destruct (feedItems parsed) as [items|]; cbn.
    + eexists _, _. split; [reflexivity|].
      intros items' H. injection H as <-.
      pose proof (syncLoop_counts items (set_counts 0 0 (set_syncInProgress true w))).
      cbn in *. lia.
    + exists 0%nat, 0%nat. split; [reflexivity | discriminate].
  - intros item rest w. split; [apply syncItem_effect | apply syncLoop_cons].
Qed.

(** C5.  An entry with neither [guid] nor [link] gets no identifier and is
    skipped: its iteration leaves the collection as it was, counts nothing
    as synced, completes normally, and the loop goes on with the rest. *)
Theorem entry_without_identifier_is_skipped item w :
  truthy (item_guid item) = false ->
  truthy (item_link item) = false ->
  generateMediumId (js_or (item_guid item) (item_link item)) = Ok None
  /\ docs (fst (syncItem item w)) = docs w
  /\ syncedCount (fst (syncItem item w)) = syncedCount w
  /\ snd (syncItem item w) = Ok tt
  /\ forall rest, syncLoop (item :: rest) w = syncLoop rest (fst (syncItem item w)).
Proof.
  intros Hg Hl. destruct (derivedId_absent item Hg Hl) as [Hgen Hnone].
  split; [exact Hgen|].
  destruct (syncItem_effect item w) as [Heff Hok].
  split; [|split; [|split]].
  - destruct Heff; congruence.
  - apply syncItem_synced_without_id. exact Hnone.
  - exact Hok.
  - intros rest. apply syncLoop_cons.
Qed.

(** C1, amended.  An entry that parses and whose identifier is that of a
    stored post, when the driver rejects none of the calls of the routine:
    the update of the post is attempted exactly when the entry's date is
    strictly newer, or the stored status is [failed], or the clock read for
    the check is more than 24 hours past the stored [lastSyncedAt].  When
    the update can be cast, the post takes the parsed fields (the stored
    author or link where the entry has none) and keeps its views, likes,
    featured flag, slug and status.  When it cannot, the content of the
    post stays and the post is marked failed.  Every other post is as
    before, and when no update is attempted the collection is unchanged. *)
Theorem existing_post_overwritten_iff_due item w ad mid id p :
  parseMediumArticle (clock w) item = Ok ad ->
  usableId (ad_mediumId ad) = Some mid ->
  unique_mediumId (docs w) ->
  docs w !! id = Some p ->
  mediumId p = mid ->
  (forall c, syncCall c = true -> db_fault c (docs w) = None) ->
  let now := tick (clock w) in
  let due := date_gt (ad_publishedAt ad) (publishedAt p)
             || bool_decide (syncStatus p = failed)
             || (DAY_MS <? now - lastSyncedAt p) in
  let d' := docs (fst (syncItem item w)) in
  if due then
    match castUpdate ad with
    | Ok c =>
        exists p',
          d' = <[id := p']> (docs w)
          /\ title p' = JsString.trim (ad_title ad)
          /\ description p' = JsString.trim (ad_description ad)
          /\ content p' = ad_content ad
          /\ excerpt p' = Some (ad_excerpt ad)
          /\ author p' = orKeep (set_author c) (author p)
          /\ tags p' = List.map JsString.trim (ad_tags ad)
          /\ categories p' = List.map JsString.trim (ad_categories ad)
          /\ mediumUrl p' = orKeep (set_mediumUrl c) (mediumUrl p)
          /\ imageUrl p' = ad_imageUrl ad
          /\ publishedAt p' = ad_publishedAt ad
          /\ readingTime p' = ad_readingTime ad
          /\ lastSyncedAt p' = clock w
          /\ syncStatus p' = synced
          /\ mediumId p' = mediumId p
          /\ views p' = views p
          /\ likes p' = likes p
          /\ featured p' = featured p
          /\ slug p' = slug p
          /\ status p' = status p
    | Throw _ =>
        exists failedAt stamp,
          d' = <[id := markFailed failedAt stamp p]> (docs w)
    end
  else d' = docs w.
Proof.
  intros Hparse Hid Hu Hk Hm Hfault now due d'.
  pose proof (findFirst_unique _ _ _ _ Hu Hk Hm) as Hfind.
  destruct (parse_sync_fields _ _ _ Hparse) as [Hls Hss].
  assert (forall t, exists ad', parseMediumArticle t item = Ok ad'
                                /\ usableId (ad_mediumId ad') = Some mid) as Hany.
  { intros t. destruct (parse_any_time (clock w) t item ad Hparse) as [ad' Hp'].
    exists ad'. split; [exact Hp'|].
    rewrite (parse_derivedId _ _ _ Hp'), <- (parse_derivedId _ _ _ Hparse).
    exact Hid. }
  subst d' due now. munfold. world_simpl.
  rewrite Hparse. cbv beta iota. rewrite Hid. cbv beta iota.
  rewrite Hfault by reflexivity. cbv beta iota. world_simpl.
  rewrite Hfind. cbv beta iota.
  destruct (date_gt (ad_publishedAt ad) (publishedAt p)
            || bool_decide (syncStatus p = failed)) eqn:Hfirst;
    cbv beta iota; world_simpl.
  - destruct (castUpdate ad) as [c|e] eqn:Hcast; cbv beta iota; world_simpl.
    + rewrite Hk. cbv beta iota. rewrite Hfault by reflexivity.
      cbv beta iota. world_simpl.
      eexists. split; [reflexivity|]. cbn.
      rewrite Hls, Hss, Hm, (castUpdate_date _ _ Hcast).
      repeat split; reflexivity.
    + destruct (Hany (tick (clock w))) as (ad' & Hp' & Hid').
      rewrite Hp'. cbv beta iota. rewrite Hid'. cbv beta iota. world_simpl.
      rewrite Hfault by reflexivity. cbv beta iota. world_simpl.
      rewrite Hfind. cbv beta iota. world_simpl. eexists _, _. reflexivity.
  - destruct (DAY_MS <? tick (clock w) - lastSyncedAt p) eqn:Hstale;
      cbv beta iota; world_simpl; [|reflexivity].
    destruct (castUpdate ad) as [c|e] eqn:Hcast; cbv beta iota; world_simpl.
    + rewrite Hk. cbv beta iota. rewrite Hfault by reflexivity.
      cbv beta iota. world_simpl.
      eexists. split; [reflexivity|]. cbn.
      rewrite Hls, Hss, Hm, (castUpdate_date _ _ Hcast).
      repeat split; reflexivity.
    + destruct (Hany (tick (tick (clock w)))) as (ad' & Hp' & Hid').
      rewrite Hp'. cbv beta iota. rewrite Hid'. cbv beta iota. world_simpl.
      rewrite Hfault by reflexivity. cbv beta iota. world_simpl.
      rewrite Hfind. cbv beta iota. world_simpl. eexists _, _. reflexivity.
Qed.

End SyncClaims.

(** ** Properties of the blog controller *)

Section ControllerClaims.
Context {E : Runtime} {D : MongoDriver}.

Lemma selectDocs_In q (m : gmap nat Post) kp :
  In kp (selectDocs q m) ->
  m !! fst kp = Some (snd kp) /\ matchesAll q kp = true.
Proof.
  unfold selectDocs. intros H. apply filter_In in H as [Hin Hm].
  split; [|exact Hm]. destruct kp as [k p].
  apply elem_of_map_to_list. apply list_elem_of_In. exact Hin.
Qed.

Lemma matchesAll_status q kp s :
  In (FStatus s) q -> matchesAll q kp = true -> status (snd kp) = s.
Proof.
  unfold matchesAll. intros Hin Hall.
  rewrite forallb_forall in Hall. specialize (Hall _ Hin). cbn in Hall.
  apply bool_decide_eq_true in Hall. exact Hall.
Qed.

Lemma buildQuery_status f t c s q :
  buildQuery f t c s = Ok q -> In (FStatus published) q.
Proof.
  unfold buildQuery, bindRes.
  set (q2 := if isString "true" f then _ else _).
  assert (In (FStatus published) q2) as H2.
  { subst q2. destruct (isString "true" f); cbn; auto. }
  clearbody q2.
  destruct (truthy t).
  - destruct (splitTrim "tags" t) as [l|]; [|discriminate].
    destruct (truthy c).
    + destruct (splitTrim "categories" c) as [l'|]; [|discriminate].
      destruct (truthy s); [destruct (RegExp_valid s); [|discriminate]|];
        intros H; injection H as <-; repeat (apply in_or_app; left); exact H2.
    + destruct (truthy s); [destruct (RegExp_valid s); [|discriminate]|];
        intros H; injection H as <-; repeat (apply in_or_app; left); exact H2.
  - destruct (truthy c).
    + destruct (splitTrim "categories" c) as [l'|]; [|discriminate].
      destruct (truthy s); [destruct (RegExp_valid s); [|discriminate]|];
        intros H; injection H as <-; repeat (apply in_or_app; left); exact H2.
    + destruct (truthy s); [destruct (RegExp_valid s); [|discriminate]|];
        intros H; injection H as <-; repeat (apply in_or_app; left); exact H2.
Qed.

Lemma In_firstn {A} n (l : list A) x : In x (firstn n l) -> In x l.
Proof.
  revert l. induction n as [|n IH]; intros [|y l]; cbn; try tauto.
  intros [->|H]; [left; reflexivity | right; apply IH; exact H].
Qed.

Lemma find_page_published q sort l k w w' posts :
  In (FStatus published) q ->
  BlogPost_find_page q sort l k w = (w', Ok posts) ->
  w' = w /\ List.Forall (listed_from (docs w)) posts.
Proof.
  intros Hq. unfold BlogPost_find_page, bind, db_call, get, lift, ret.
  destruct (db_fault _ _); [discriminate|].
  destruct (cursor_window _ _ _) as [page|] eqn:Hwin; [|discriminate].
  intros H. injection H as <- <-. split; [reflexivity|].
  apply List.Forall_forall. intros kp Hin.
  apply in_map_iff in Hin as (kp0 & <- & Hin0).
  apply cursor_window_incl in Hwin. apply Hwin in Hin0.
  eapply Permutation_in in Hin0; [|apply cursor_sort_perm].
  apply selectDocs_In in Hin0 as [Hlook Hm].
  exists (snd kp0). destruct kp0 as [k0 p0]. cbn in *.
  repeat split; [exact Hlook|]. eapply (matchesAll_status q (k0, p0)); eauto.
Qed.

Lemma getFeatured_published n w w' posts :
  getFeatured n w = (w', Ok posts) ->
  w' = w /\ List.Forall (fun kp => docs w !! fst kp = Some (snd kp)
                                   /\ status (snd kp) = published) posts.
Proof.
  unfold getFeatured, bind, db_call, get, ret.
  destruct (db_fault _ _); [discriminate|].
  intros H. injection H as <- <-. split; [reflexivity|].
  apply List.Forall_forall. intros kp Hin.
  apply In_firstn in Hin.
  eapply Permutation_in in Hin; [|apply cursor_sort_perm].
  apply selectDocs_In in Hin as [Hlook Hm]. split; [exact Hlook|].
  eapply matchesAll_status; [|exact Hm]. left. reflexivity.
Qed.

Lemma countDocuments_world q w w' n :
  BlogPost_countDocuments q w = (w', Ok n) -> w' = w.
Proof.
  unfold BlogPost_countDocuments, bind, db_call, get, ret.
  destruct (db_fault _ _); [discriminate|].
  intros H. injection H as <- _. reflexivity.
Qed.

Lemma findOne_slug_absent s (m : gmap nat Post) :
  no_published_post s m ->
  findFirst (fun p => String.eqb (slug p) s
                      && bool_decide (status p = published)) m = None.
Proof.
  intros Hno. destruct (findFirst _ m) as [[k p]|] eqn:Hf; [|reflexivity].
  apply findFirst_Some in Hf as [Hk Hp].
  apply andb_true_iff in Hp as [Hs Hst].
  apply String.eqb_eq in Hs. apply bool_decide_eq_true in Hst.
  exfalso. eapply Hno; eauto.
Qed.

(** C7.  Whatever the query string, the posts and the featured posts of a
    list response are stored documents whose status is [published].  And
    when no published post has the slug, [getBlogPost] leaves the
    collection alone and answers with an error: 404 "Blog post not found"
    whenever the driver does not reject the lookup. *)
Theorem public_reads_expose_only_published :
  (forall query w code posts results total totalPages currentPage featuredPosts,
      snd (getBlogPosts query w)
      = Ok (Json code (BlogList posts results total totalPages currentPage
                         featuredPosts)) ->
      List.Forall (listed_from (docs w)) posts
      /\ forall l, featuredPosts = Some l ->
                   List.Forall (fun kp => docs w !! fst kp = Some (snd kp)
                                          /\ status (snd kp) = published) l)
  /\ (forall s w,
        no_published_post s (docs w) ->
        docs (fst (getBlogPost s w)) = docs w
        /\ (snd (getBlogPost s w) = Ok (Json 404 (ErrorBody "Blog post not found"))
            \/ snd (getBlogPost s w)
               = Ok (Json 500 (ErrorBody "Error fetching blog post")))
        /\ (db_fault (CallFindOne_slug s) (docs w) = None ->
            snd (getBlogPost s w)
            = Ok (Json 404 (ErrorBody "Blog post not found")))).
Proof.
  split.
  - intros query w code posts results total tp cp fp.
    unfold getBlogPosts, try_catch, bind at 1, lift.
    destruct (buildQuery _ _ _ _) as [q|e] eqn:Hq; [|discriminate].
    apply buildQuery_status in Hq.
    unfold bind at 1.
    destruct (BlogPost_find_page _ _ _ _ w) as [w1 [ps|e]] eqn:Hfind; [|discriminate].
    apply (find_page_published _ _ _ _ _ _ _ Hq) in Hfind as [-> Hposts].
    unfold bind at 1.
    destruct (BlogPost_countDocuments q w) as [w2 [n|e]] eqn:Hcount; [|discriminate].
    apply countDocuments_world in Hcount as ->.
    unfold bind at 1.
    match goal with
    | |- context [if ?c then getFeatured 3 else ret []] => destruct c
    end.
    + destruct (getFeatured 3 w) as [w3 [fs|e]] eqn:Hfeat; [|discriminate].
      apply getFeatured_published in Hfeat as [-> Hfs].
      unfold ret. cbn. intros H. injection H as _ <- _ _ _ _ <-.
      split; [exact Hposts|]. intros l Hl.
      destruct fs; [discriminate|]. injection Hl as <-. exact Hfs.
    + unfold ret. cbn. intros H. injection H as _ <- _ _ _ _ <-.
      split; [exact Hposts|]. intros l Hl. discriminate.
  - intros s w Hno. cunfold.
    destruct (db_fault (CallFindOne_slug s) (docs w)) as [e|] eqn:Hfault.
    + destruct (isCastError e); cbn; (split; [reflexivity|]);
        (split; [auto | discriminate]).
    + rewrite (findOne_slug_absent s (docs w) Hno). cbn. auto.
Qed.

(** C8.  A 200 response of [getBlogPost] carries a post that was stored
    under the slug with status [published]; its stored views are the
    former views plus 1, its likes are the same, and no other document of
    the collection is touched. *)
Theorem view_increments_exactly_one_counter s w body :
  snd (getBlogPost s w) = Ok (Json 200 body) ->
  exists id p p' related,
    body = BlogOne (id, p') related
    /\ docs w !! id = Some p
    /\ slug p = s /\ status p = published
    /\ docs (fst (getBlogPost s w)) !! id = Some p'
    /\ views p' = views p + 1
    /\ likes p' = likes p
    /\ forall j, j <> id -> docs (fst (getBlogPost s w)) !! j = docs w !! j.
Proof.
  cunfold.
  destruct (db_fault (CallFindOne_slug s) (docs w)) as [e|].
  { destruct (isCastError e); cbn; discriminate. }
  destruct (findFirst _ (docs w)) as [[id p]|] eqn:Hfind; [|discriminate].
  apply findFirst_Some in Hfind as [Hk Hp].
  apply andb_true_iff in Hp as [Hs Hst].
  apply String.eqb_eq in Hs. apply bool_decide_eq_true in Hst.
  world_simpl.
  destruct (db_fault (CallSave _ _) _) as [e|].
  { destruct (isCastError e); cbn; discriminate. }
  world_simpl.
  destruct (db_fault (CallFind _) _) as [e|].
  { destruct (isCastError e); cbn; discriminate. }
  cbn. intros H. injection H as <-.
  eexists id, p, _, _. split; [reflexivity|].
  repeat split; try assumption.
  - apply lookup_insert_eq.
  - intros j Hj. apply lookup_insert_ne. congruence.
Qed.

Lemma same_but_flags_refl p : same_but_flags p p.
Proof. repeat split. Qed.

(** C10, amended.  Whatever the request, [updateBlogPost] adds and removes
    no document, leaves every document other than the addressed one as it
    was, and changes at most [featured], [status] and the [updatedAt] stamp
    of the addressed one. *)
Theorem admin_update_touches_only_flags_and_stamp idText body w :
  dom (docs (fst (updateBlogPost idText body w))) = dom (docs w)
  /\ forall k p,
      docs w !! k = Some p ->
      exists p',
        docs (fst (updateBlogPost idText body w)) !! k = Some p'
        /\ same_but_flags p p'
        /\ (castObjectId idText <> Some k -> p' = p).
Proof.
  assert (forall k p, docs w !! k = Some p ->
            exists p', docs w !! k = Some p' /\ same_but_flags p p'
                       /\ (castObjectId idText <> Some k -> p' = p)) as Hsame.
  { intros k p Hk. exists p. split; [exact Hk|].
    split; [apply same_but_flags_refl | reflexivity]. }
  cunfold.
  destruct (validationResult body); [|split; [reflexivity | exact Hsame]].
  destruct (castObjectId idText) as [id|]; [|split; [reflexivity | exact Hsame]].
  destruct (buildUpdate body) as [u|e];
    [|destruct (isCastError e); split; solve [reflexivity | exact Hsame]].
  world_simpl.
  destruct (db_fault _ _) as [e|];
    [destruct (isCastError e); split; solve [reflexivity | exact Hsame]|].
  world_simpl.
  destruct (docs w !! id) as [p0|] eqn:Hid; [|split; [reflexivity | exact Hsame]].
  world_simpl. split.
  - apply dom_insert_lookup_L. eauto.
  - intros k p Hk. destruct (decide (id = k)) as [->|Hne].
    + rewrite lookup_insert_eq. eexists. split; [reflexivity|].
      assert (p0 = p) as -> by congruence.
      split; [repeat split | intros H; congruence].
    + rewrite lookup_insert_ne by exact Hne. exists p.
      split; [exact Hk|]. split; [apply same_but_flags_refl | reflexivity].
Qed.

End ControllerClaims.

(** ** Concrete runs *)

Module DemoRuns.
Import Demo.

#[local] Existing Instance engine.
#[local] Existing Instance driver.

Lemma driver_no_fault c d : @db_fault driver c d = None.
Proof. reflexivity. Qed.

Lemma engine_tick_mono t : t <= @tick engine t.
Proof. cbn. lia. Qed.

Lemma parse_item1 : @parseMediumArticle engine (clock world) item1 = Ok ad1.
Proof. vm_compute. reflexivity. Qed.

(** C1 at [item1]: the entry is newer than the stored post, so the post
    takes the entry's title and keeps its 42 views, 7 likes and its
    featured flag. *)
Lemma existing_post_overwritten_witness :
  exists p',
    docs (fst (@syncItem engine driver item1 world)) = <[7%nat := p']> (docs world)
    /\ title p' = "Hello World"
    /\ views p' = 42 /\ likes p' = 7 /\ featured p' = true.
Proof.
  pose proof (@existing_post_overwritten_iff_due engine driver item1 world ad1
                "abc123def456" 7%nat post1 parse_item1 eq_refl
                (unique_singleton 7%nat post1) eq_refl eq_refl
                (fun c _ => driver_no_fault c (docs world))) as H.
  cbv zeta in H.
  match type of H with
  | if ?c then _ else _ =>
      assert (c = true) as Hc by (vm_compute; reflexivity); rewrite Hc in H
  end.
  destruct (castUpdate ad1) as [c|e] eqn:Hcast; [|vm_compute in Hcast; discriminate].
  destruct H as (p' & Hd & Ht & _ & _ & _ & _ & _ & _ & _ & _ & _ & _ & _ & _
                 & _ & Hv & Hl & Hf & _).
  exists p'. split; [exact Hd|]. split; [exact Ht|].
  split; [exact Hv|]. split; [exact Hl | exact Hf].
Defined.

(** C1 as stated fails: the stored post of [itemNoDate] is marked failed,
    so the entry is due, but it has no date and the update is refused
    before it is sent; the post keeps its title and its content, which are
    not the entry's. *)
Lemma due_entry_without_date_is_not_overwritten :
  derivedId itemNoDate = Some (mediumId post1failed)
  /\ syncStatus post1failed = failed
  /\ ad_content <$> parsed (clock worldFailed) itemNoDate
     = Some "<p>Hello <b>World</b>, again.</p>"
  /\ content <$> docs (fst (@syncItem engine driver itemNoDate worldFailed)) !! 7%nat
     = Some "<p>Hello</p>"
  /\ content <$> docs (fst (@syncItem engine driver itemNoDate worldFailed)) !! 7%nat
     <> ad_content <$> parsed (clock worldFailed) itemNoDate.
Proof.
  split; [vm_compute; reflexivity|]. split; [reflexivity|].
  split; [vm_compute; reflexivity|]. split; [vm_compute; reflexivity|].
  vm_compute. discriminate.
Qed.

(** An entry without a link leaves the stored link in place: the key is
    not part of the update. *)
Lemma entry_without_link_keeps_stored_url :
  ad_mediumUrl <$> parsed (clock world) itemNoLink = Some JUndefined
  /\ title <$> docs (fst (@syncItem engine driver itemNoLink world)) !! 7%nat
     = Some "Hello World"
  /\ mediumUrl <$> docs (fst (@syncItem engine driver itemNoLink world)) !! 7%nat
     = Some (mediumUrl post1).
Proof. repeat split; vm_compute; reflexivity. Qed.

(** An entry nothing is stored for is handed to [BlogPost.create], which
    the validation rejects for want of a slug: the collection is as it
    was and the entry is counted as an error. *)
Lemma new_entry_is_not_stored :
  docs (fst (@syncItem engine driver item2 world)) = docs world
  /\ errorCount (fst (@syncItem engine driver item2 world)) = 1%nat
  /\ syncedCount (fst (@syncItem engine driver item2 world)) = 0%nat.
Proof. repeat split; vm_compute; reflexivity. Qed.

(** C3 at [item1]: the identifier is stored already, the keys stay the
    same; and a feed that names it twice leaves the index unique. *)
Lemma sync_never_duplicates_witness :
  dom (docs (fst (@syncItem engine driver item1 world))) = dom (docs world)
  /\ unique_mediumId
       (docs (fst (@syncArticles engine driver (feedOf [item1; item2; item1]) world))).
Proof.
  destruct (@sync_never_duplicates_mediumId engine driver) as [Hall Hitem].
  split.
  - apply (Hitem item1 world "abc123def456" 7%nat post1);
      [vm_compute; reflexivity | reflexivity | reflexivity].
  - apply Hall. apply unique_singleton.
Defined.

(** C5 at [item0]. *)
Lemma entry_without_identifier_witness :
  docs (fst (@syncItem engine driver item0 world)) = docs world
  /\ syncLoop [item0; item2] world
     = syncLoop [item2] (fst (@syncItem engine driver item0 world)).
Proof.
  destruct (@entry_without_identifier_is_skipped engine driver item0 world
              eq_refl eq_refl) as (_ & Hd & _ & _ & Hrest).
  split; [exact Hd | apply Hrest].
Defined.

Lemma distinct_item1_item2 : distinct_ids [item1; item2].
Proof.
  unfold distinct_ids.
  replace (omap derivedId [item1; item2])
    with ["abc123def456"; "0123456789ab"] by (vm_compute; reflexivity).
  apply NoDup_cons. split.
  - intros H. apply list_elem_of_singleton in H. discriminate.
  - apply NoDup_singleton.
Qed.

Lemma afterFirst_posts k p :
  docs afterFirst !! k = Some p -> lastSyncedAt p = 1704200000000.
Proof.
  intros H. apply elem_of_map_to_list in H.
  replace (map_to_list (docs afterFirst))
    with [(7%nat, unwrapPost (docs afterFirst !! 7%nat))] in H
    by (vm_compute; reflexivity).
  apply list_elem_of_singleton in H. injection H as -> ->.
  vm_compute. reflexivity.
Qed.

Lemma updatable_item1 : updatable item1.
Proof.
  apply (updatable_at (clock world) item1 ad1
           (mkUpdateSet (Some (item_creator item1)) (Some (item_link item1))
              1704067200000) parse_item1).
  vm_compute. reflexivity.
Qed.

Lemma updatable_item2 : updatable item2.
Proof.
  apply (updatable_at 0 item2 (unwrap (@parseMediumArticle engine 0 item2))
           (mkUpdateSet (Some (JStr "Mukesh Rawat")) (Some (item_link item2))
              1704153600000)); vm_compute; reflexivity.
Qed.

(** C2, amended, at the feed [item1; item2] with the second run one hour
    after the first. *)
Lemma second_run_witness :
  docs (fst (secondRun (clock afterFirst + 3600000))) = docs afterFirst
  /\ exists errors,
       snd (secondRun (clock afterFirst + 3600000)) = Ok (SyncDone 0 errors 2).
Proof.
  destruct (@second_run_within_a_day_changes_nothing engine driver
              [item1; item2] world (clock afterFirst + 3600000))
    as (_ & _ & Hsame).
  assert (forall item, In item [item1; item2] -> updatable item) as Hupd.
  { intros item [<- | [<- | []]]; [exact updatable_item1 | exact updatable_item2]. }
  assert (forall item, In item [item1; item2] ->
            fresh_at (clock (fst (secondRun (clock afterFirst + 3600000))))
              item (docs afterFirst)) as Hfresh.
  { intros item _ k p Hk _.
    replace (clock (fst (secondRun (clock afterFirst + 3600000))))
      with 1704203600012 by (vm_compute; reflexivity).
    rewrite (afterFirst_posts k p Hk). vm_compute. discriminate. }
  destruct (Hsame (fun c d _ => driver_no_fault c d) engine_tick_mono
              (unique_singleton 7%nat post1) distinct_item1_item2 Hupd Hfresh)
    as [Hdocs Hres].
  split; [exact Hdocs | exact (Hres eq_refl)].
Defined.

(** C2 as stated fails: run again two days later, the stored post of
    [item1] gets a new [lastSyncedAt], so the collection differs from the
    one the first run left. *)
Lemma second_run_after_two_days_differs :
  docs (fst (secondRun (clock afterFirst + 2 * DAY_MS))) <> docs afterFirst.
Proof.
  intros H.
  apply (f_equal (fun d => lastSyncedAt <$> d !! 7%nat)) in H.
  vm_compute in H. discriminate.
Qed.

Lemma no_published_secret_draft : no_published_post "secret-draft" (docs world2).
Proof.
  unfold world2. cbn [docs]. intros k p Hk Hs.
  apply lookup_insert_Some in Hk as [[_ <-]|[_ Hk]]; [discriminate|].
  apply lookup_singleton_Some in Hk as [_ <-]. discriminate.
Qed.

(** C7 at [world2]: the list shows the published post only, and the slug
    of the draft answers 404. *)
Lemma public_reads_witness :
  List.map fst listedPosts = [7%nat]
  /\ List.Forall (listed_from (docs world2)) listedPosts
  /\ snd (@getBlogPost engine driver "secret-draft" world2)
     = Ok (Json 404 (ErrorBody "Blog post not found")).
Proof.
  destruct (@public_reads_expose_only_published engine driver) as [Hlist Hone].
  split; [vm_compute; reflexivity|]. split.
  - apply (Hlist ∅ world2 200 listedPosts 1%nat 1%nat (Some 1) (Some 1)
             listedFeatured).
    vm_compute. reflexivity.
  - apply (Hone "secret-draft" world2 no_published_secret_draft). reflexivity.
Defined.

(** C8 at the slug of [post1]: 42 views become 43, the draft is as it
    was. *)
Lemma view_increments_witness :
  views <$> docs (fst (@getBlogPost engine driver "hello" world2)) !! 7%nat = Some 43
  /\ docs (fst (@getBlogPost engine driver "hello" world2)) !! 9%nat = Some draft1.
Proof.
  assert (snd (@getBlogPost engine driver "hello" world2) = Ok (Json 200 viewBody))
    as H200 by (vm_compute; reflexivity).
  destruct (@view_increments_exactly_one_counter engine driver "hello" world2
              viewBody H200)
    as (id & p & p' & related & Hbody & Hk & _ & _ & Hk' & Hv & _ & Hothers).
  assert (id = 7%nat) as -> by (vm_compute in Hbody; congruence).
  assert (p = post1) as -> by (vm_compute in Hk; injection Hk as <-; reflexivity).
  split.
  - rewrite Hk'. cbn. rewrite Hv. reflexivity.
  - rewrite Hothers by discriminate. reflexivity.
Defined.

(** C10 as stated fails: the update of [featured] alone also moves the
    [updatedAt] stamp of the post. *)
Lemma admin_update_moves_updatedAt :
  updatedAt <$> docs (fst (@updateBlogPost engine driver "65a1f0c2e4b0a1b2c3d4e5f6"
                             {[ "featured" := JBool false ]} world)) !! 7%nat
  <> updatedAt <$> docs world !! 7%nat.
Proof. vm_compute. discriminate. Qed.

(** With the rejecting driver the update of [item1] fails: the run still
    ends normally, counts the two entries as errors, and marks the stored
    post as failed. *)
Lemma rejected_update_is_counted_and_marked :
  snd (@syncArticles engine rejectingDriver (feedOf [item1; item2]) world)
  = Ok (SyncDone 0 2 2)
  /\ syncStatus <$> docs (fst (@syncArticles engine rejectingDriver
                                 (feedOf [item1; item2]) world)) !! 7%nat
     = Some failed.
Proof. split; vm_compute; reflexivity. Qed.

(** An entry that does not parse is counted as an error, leaves the
    collection alone, and the next entry is still synchronised. *)
Lemma unparsable_entry_is_counted :
  snd (@syncArticles engine driver (feedOf [itemBad; item1]) world)
  = Ok (SyncDone 1 1 2)
  /\ docs (fst (@syncItem engine driver itemBad world)) = docs world.
Proof. split; vm_compute; reflexivity. Qed.

(** Why the amended C2 asks that no call of the routine is rejected: with
    the rejecting driver, a second run right after the first marks the post as failed
    again, with a later [lastSyncedAt]. *)
Lemma second_run_with_rejected_update_differs :
  let first := fst (@syncArticles engine rejectingDriver (feedOf [item1]) world) in
  docs (fst (@syncArticles engine rejectingDriver (feedOf [item1]) first))
  <> docs first.
Proof.
  intros first H.
  apply (f_equal (fun d => lastSyncedAt <$> d !! 7%nat)) in H.
  vm_compute in H. discriminate.
Qed.

(** Why the amended C2 asks for updates that can be cast: the stored post
    of [itemNoDate] is marked failed, so every run attempts the update,
    fails, and marks the post again with a later [lastSyncedAt]. *)
Lemma second_run_with_undated_entry_differs :
  let first := fst (@syncArticles engine driver (feedOf [itemNoDate]) worldFailed) in
  docs (fst (@syncArticles engine driver (feedOf [itemNoDate]) first))
  <> docs first.
Proof.
  intros first H.
  apply (f_equal (fun d => lastSyncedAt <$> d !! 7%nat)) in H.
  vm_compute in H. discriminate.
Qed.

(** Why the amended C2 asks for distinct identifiers: the stored post is
    newer than both entries and becomes stale between the two; the first
    run ends with the older entry's content, the second run, right after,
    replaces it by the newer entry's. *)
Lemma second_run_with_repeated_identifier_differs :
  let first := fst (@syncArticles engine driver (feedOf [item1b; item1]) world3) in
  title <$> docs first !! 7%nat = Some "Hello World"
  /\ title <$> docs (fst (@syncArticles engine driver (feedOf [item1b; item1]) first))
                !! 7%nat
     = Some "Hello World (revised)".
Proof. split; vm_compute; reflexivity. Qed.

End DemoRuns.

(** * Part IV.  Further properties *)

(** ** Text, identifiers and the parsed record *)

Module TextFacts.
Import JsString TextShape WordCount.

Ltac each_char c := destruct c as [[] [] [] [] [] [] [] []]; try reflexivity; try discriminate.

Lemma all_noGt_tagFree r : all (fun d => negb (isGt d)) r = true -> tagFree r = true.
Proof.
  induction r as [|c r IH]; cbn; [reflexivity|].
  intros H. apply andb_true_iff in H as [Hc Hr].
  rewrite Hr, (IH Hr). destruct (isLt c); reflexivity.
Qed.

Lemma stripFrom_tagFree s : forall b, tagFree (stripFrom b s) = true.
Proof.
  induction s as [|c r IH]; intros b; cbn; [reflexivity|].
  destruct b.
  - destruct (isGt c); apply IH.
  - destruct (isLt c) eqn:Hlt.
    + destruct (all (fun d => negb (isGt d)) r) eqn:Hall; [|apply IH].
      cbn. rewrite Hlt, Hall. apply all_noGt_tagFree. exact Hall.
    + cbn. rewrite Hlt. apply IH.
Qed.

Lemma stripFrom_fixed s : tagFree s = true -> stripFrom false s = s.
Proof.
  induction s as [|c r IH]; cbn; [reflexivity|].
  intros H. apply andb_true_iff in H as [Hc Hr].
  destruct (isLt c).
  - rewrite Hc. reflexivity.
  - rewrite (IH Hr). reflexivity.
Qed.

Lemma stripFrom_length s : forall b, (String.length (stripFrom b s) <= String.length s)%nat.
Proof.
  induction s as [|c r IH]; intros b; cbn; [lia|].
  destruct b.
  - destruct (isGt c); [specialize (IH false) | specialize (IH true)]; lia.
  - destruct (isLt c).
    + destruct (all _ r); [cbn; lia | specialize (IH true); lia].
    + cbn. specialize (IH false). lia.
Qed.

(** X1.  Removing the tags leaves no tag: in the plain text of
    [parseMediumArticle] no [<] is followed by a [>]; removing the tags
    again changes nothing, a text without a complete tag is left as it
    is, and the text never gets longer. *)
Theorem stripTags_leaves_no_tag (s : string) :
  tagFree (stripTags s) = true
  /\ stripTags (stripTags s) = stripTags s
  /\ (String.length (stripTags s) <= String.length s)%nat
  /\ (tagFree s = true -> stripTags s = s).
Proof.
  unfold stripTags. split; [apply stripFrom_tagFree|].
  split; [apply stripFrom_fixed, stripFrom_tagFree|].
  split; [apply stripFrom_length | apply stripFrom_fixed].
Qed.

Lemma trimStart_start s : startsWithSpace (trimStart s) = false.
Proof.
  induction s as [|c r IH]; cbn; [reflexivity|].
  destruct (isSpace c) eqn:Hc; [exact IH | cbn; exact Hc].
Qed.

Lemma trimStart_fixed s : startsWithSpace s = false -> trimStart s = s.
Proof. destruct s as [|c r]; cbn; [reflexivity|]. intros ->. reflexivity. Qed.

Lemma trimEnd_end s : forall b,
  endsInSpace b (trimEnd s) = if isEmpty (trimEnd s) then b else false.
Proof.
  induction s as [|c r IH]; intros b; cbn; [reflexivity|].
  destruct (isSpace c && isEmpty (trimEnd r)) eqn:Hcond; cbn; [reflexivity|].
  rewrite IH. destruct (isEmpty (trimEnd r)); [|reflexivity].
  rewrite andb_true_r in Hcond. exact Hcond.
Qed.

Lemma trimEnd_fixed s : forall b, endsInSpace b s = false -> trimEnd s = s.
Proof.
  induction s as [|c r IH]; intros b; cbn; [reflexivity|].
  intros H. rewrite (IH _ H).
  destruct (isSpace c) eqn:Hc; [|reflexivity].
  destruct r; [cbn in H; congruence | reflexivity].
Qed.

Lemma trimEnd_start s : startsWithSpace s = false -> startsWithSpace (trimEnd s) = false.
Proof.
  destruct s as [|c r]; cbn; [reflexivity|].
  intros Hc. rewrite Hc. cbn. exact Hc.
Qed.

Lemma trimEnd_nonempty_end s : endsInSpace false (trimEnd s) = false.
Proof. rewrite trimEnd_end. destruct (isEmpty _); reflexivity. Qed.

Lemma trim_idem s : trim (trim s) = trim s.
Proof.
  unfold trim.
  assert (startsWithSpace (trimEnd (trimStart s)) = false) as H1
      by apply trimEnd_start, trimStart_start.
  rewrite (trimStart_fixed _ H1).
  apply (trimEnd_fixed _ false), trimEnd_nonempty_end.
Qed.

Lemma lowerChar_isSpace c : isSpace (lowerChar c) = isSpace c.
Proof. each_char c. Qed.

Lemma lowerChar_idem c : lowerChar (lowerChar c) = lowerChar c.
Proof. each_char c. Qed.

Lemma toLowerCase_idem s : toLowerCase (toLowerCase s) = toLowerCase s.
Proof.
  unfold toLowerCase. induction s as [|c r IH]; cbn; [reflexivity|].
  rewrite lowerChar_idem, IH. reflexivity.
Qed.

Lemma toLowerCase_trimStart s :
  toLowerCase (trimStart s) = trimStart (toLowerCase s).
Proof.
  unfold toLowerCase. induction s as [|c r IH]; cbn; [reflexivity|].
  rewrite lowerChar_isSpace. destruct (isSpace c); [exact IH | reflexivity].
Qed.

Lemma map_isEmpty f s : isEmpty (map f s) = isEmpty s.
Proof. destruct s; reflexivity. Qed.

Lemma toLowerCase_trimEnd s :
  toLowerCase (trimEnd s) = trimEnd (toLowerCase s).
Proof.
  unfold toLowerCase. induction s as [|c r IH]; cbn; [reflexivity|].
  rewrite lowerChar_isSpace, <- IH, map_isEmpty.
  destruct (isSpace c && isEmpty (trimEnd r)); reflexivity.
Qed.

Lemma toLowerCase_trim s : toLowerCase (trim s) = trim (toLowerCase s).
Proof. unfold trim. rewrite toLowerCase_trimEnd, toLowerCase_trimStart. reflexivity. Qed.

Lemma isHex_isAlnum c : isHex c = true -> isAlnum c = true.
Proof. each_char c. Qed.

Lemma isHex_not_slash c : isHex c = true -> isSlash c = false.
Proof. each_char c. Qed.

Lemma all_impl (f g : ascii -> bool) s :
  (forall c, f c = true -> g c = true) -> all f s = true -> all g s = true.
Proof.
  intros Hfg. induction s as [|c r IH]; cbn; [reflexivity|].
  intros H. apply andb_true_iff in H as [Hc Hr].
  rewrite (Hfg _ Hc), (IH Hr). reflexivity.
Qed.

Lemma afterLastSlash_none h : all isHex h = true -> afterLastSlash h = None.
Proof.
  induction h as [|c r IH]; cbn; [reflexivity|].
  intros H. apply andb_true_iff in H as [Hc Hr].
  rewrite (IH Hr), (isHex_not_slash _ Hc). reflexivity.
Qed.

Lemma afterLastSlash_app p h :
  all isHex h = true -> afterLastSlash (p ++ String "/" h) = Some h.
Proof.
  intros Hh. induction p as [|c r IH].
  - change (afterLastSlash (String "/" h) = Some h). cbn.
    rewrite (afterLastSlash_none _ Hh). reflexivity.
  - change (afterLastSlash (String c (r ++ String "/" h)) = Some h).
    cbn [afterLastSlash]. rewrite IH. reflexivity.
Qed.

Lemma all_filter f s : all f (filter f s) = true.
Proof.
  induction s as [|c r IH]; cbn; [reflexivity|].
  destruct (f c) eqn:Hc; cbn; [rewrite Hc|]; exact IH.
Qed.

Lemma all_substring0 f n s : all f s = true -> all f (substring0 n s) = true.
Proof.
  unfold substring0. revert n. induction s as [|c r IH]; intros n; cbn.
  - destruct n; reflexivity.
  - intros H. apply andb_true_iff in H as [Hc Hr].
    destruct n; cbn; [reflexivity|]. rewrite Hc. apply IH, Hr.
Qed.

Lemma substring0_isEmpty n s :
  isEmpty (substring0 (S n) s) = isEmpty s.
Proof. destruct s; reflexivity. Qed.

Lemma utf8_head_alnum c :
  isAlnum (b64Digit (hd 0%N (utf8 c) / 4)) = true.
Proof. each_char c. Qed.

Lemma utf8_nonempty c : utf8 c <> [].
Proof. unfold utf8. destruct (code c <? 128)%N; discriminate. Qed.

Lemma base64_head bs :
  bs <> [] ->
  exists r, base64 bs = String (b64Digit (hd 0%N bs / 4)) r.
Proof.
  destruct bs as [|a [|b [|c r]]]; [congruence| | |]; intros _; cbn [base64 hd];
    eexists; reflexivity.
Qed.
End TextFacts.

Section ParsingMore.
Context {E : Runtime}.
Import JsString TextShape TextFacts.

Lemma matchTrailingHex_app p h :
  h <> "" -> all isHex h = true -> matchTrailingHex (p ++ String "/" h) = Some h.
Proof.
  intros Hne Hh. unfold matchTrailingHex.
  rewrite (afterLastSlash_app p h Hh), Hh.
  destruct h; [congruence | reflexivity].
Qed.

Lemma matchTrailingHex_shape g id :
  matchTrailingHex g = Some id -> id <> "" /\ all isHex id = true.
Proof.
  unfold matchTrailingHex. destruct (afterLastSlash g) as [t|]; [|discriminate].
  destruct (negb (isEmpty t) && all isHex t) eqn:H; [|discriminate].
  intros [= <-]. apply andb_true_iff in H as [Hne Hh].
  split; [destruct t; [discriminate | congruence] | exact Hh].
Qed.

Lemma fallback_nonempty g :
  g <> "" -> isEmpty (substring0 12 (filter isAlnum (base64 (utf8Bytes g)))) = false.
Proof.
  destruct g as [|c r]; [congruence|]. intros _.
  rewrite substring0_isEmpty. cbn [utf8Bytes].
  assert (app (utf8 c) (utf8Bytes r) <> []) as Hne.
  { pose proof (utf8_nonempty c). destruct (utf8 c); [congruence | discriminate]. }
  destruct (base64_head _ Hne) as [rest ->].
  assert (hd 0%N (app (utf8 c) (utf8Bytes r)) = hd 0%N (utf8 c)) as ->.
  { pose proof (utf8_nonempty c). destruct (utf8 c); [congruence | reflexivity]. }
  cbn [filter]. rewrite utf8_head_alnum. reflexivity.
Qed.

Lemma substring0_length_le n s : (String.length (substring0 n s) <= n)%nat.
Proof.
  unfold substring0. revert n. induction s as [|c r IH]; intros [|n]; cbn; try lia.
  specialize (IH n). lia.
Qed.

(** X2.  An identifier that ends a URL wins: for a text that ends in a
    slash followed by one or more of the characters a-f and 0-9,
    [generateMediumId] returns exactly those characters. *)
Theorem generateMediumId_takes_trailing_hex (prefix h : string) :
  h <> "" -> all isHex h = true ->
  generateMediumId (JStr (prefix ++ String "/" h)) = Ok (Some h).
Proof.
  intros Hne Hh. unfold generateMediumId.
  assert (truthy (JStr (prefix ++ String "/" h)) = true) as ->.
  { destruct prefix; reflexivity. }
  cbn [negb]. rewrite (matchTrailingHex_app prefix h Hne Hh). reflexivity.
Qed.

(** X3.  Every non-empty text gives an identifier, and the identifier is
    never empty: it consists of letters and digits only, and is at most
    twelve characters long when it is not the hexadecimal tail of the
    text. *)
Theorem generateMediumId_of_text_is_usable (g : string) :
  g <> "" ->
  exists id,
    generateMediumId (JStr g) = Ok (Some id)
    /\ usableId (Some id) = Some id
    /\ all isAlnum id = true
    /\ (matchTrailingHex g = None -> (String.length id <= 12)%nat).
Proof.
  intros Hne. unfold generateMediumId.
  assert (truthy (JStr g) = true) as ->.
  { destruct g; [congruence | reflexivity]. }
  cbn [negb]. destruct (matchTrailingHex g) as [id|] eqn:Hm.
  - destruct (matchTrailingHex_shape _ _ Hm) as [Hid Hh].
    exists id. repeat split.
    + destruct id; [congruence | reflexivity].
    + exact (all_impl _ _ _ isHex_isAlnum Hh).
    + discriminate.
  - eexists. repeat split.
    + unfold usableId. rewrite (fallback_nonempty g Hne). reflexivity.
    + apply all_substring0, all_filter.
    + intros _. apply substring0_length_le.
Qed.

Lemma lowerTrimStrings_normal l : Forall normalTag (lowerTrimStrings l).
Proof.
  induction l as [|v r IH]; cbn; [constructor|].
  destruct v; try exact IH.
  constructor; [|exact IH]. split.
  - apply trim_idem.
  - rewrite toLowerCase_trim, toLowerCase_idem. reflexivity.
Qed.

Lemma Forall_firstn {A} (P : A -> Prop) n l : Forall P l -> Forall P (firstn n l).
Proof.
  intros H. apply Forall_take, H.
Qed.

Lemma extractTags_normal v : Forall normalTag (extractTags v).
Proof.
  destruct v; cbn; try constructor.
  apply Forall_firstn, lowerTrimStrings_normal.
Qed.

Lemma map_trim_normal l : Forall normalTag l -> List.map trim l = l.
Proof.
  induction 1 as [|t r [Ht _] _ IH]; cbn; [reflexivity|].
  rewrite Ht, IH. reflexivity.
Qed.

(** X4.  The tags and categories of an entry are in the form the schema
    stores: trimmed and in lower case, so the [trim] setter of the schema
    leaves them as they are; there are at most ten tags, and the
    categories are the first five of them.  A value that is not an array
    gives none. *)
Theorem extractTags_gives_normal_tags (v : JsVal) :
  Forall normalTag (extractTags v)
  /\ List.map trim (extractTags v) = extractTags v
  /\ List.map trim (extractCategories v) = extractCategories v
  /\ (List.length (extractTags v) <= 10)%nat
  /\ extractCategories v = firstn 5 (extractTags v)
  /\ (isArr v = false -> extractTags v = []).
Proof.
  pose proof (extractTags_normal v) as Hn.
  split; [exact Hn|].
  split; [exact (map_trim_normal _ Hn)|].
  split; [apply map_trim_normal, Forall_firstn, Hn|].
  split; [|split; [reflexivity|]].
  - destruct v; cbn; try lia. rewrite length_firstn. lia.
  - destruct v; cbn; try reflexivity. discriminate.
Qed.

End ParsingMore.

Module SlugFacts.
Import JsString TextShape TextFacts.

Lemma alnum_not_dash c : isLower c || isDigit c = true -> isDash c = false.
Proof. each_char c. Qed.

Lemma dashRuns_chars s : forall b, all slugChar (dashRuns b s) = true.
Proof.
  induction s as [|c r IH]; intros b; cbn; [reflexivity|].
  destruct (isLower c || isDigit c) eqn:Hc.
  - cbn. unfold slugChar at 1. rewrite Hc. cbn. apply IH.
  - destruct b; [apply IH|]. cbn [all]. rewrite IH. reflexivity.
Qed.

Lemma dashRuns_noDashPair s : forall b, noDashPair b (dashRuns b s) = true.
Proof.
  induction s as [|c r IH]; intros b; cbn; [reflexivity|].
  destruct (isLower c || isDigit c) eqn:Hc.
  - cbn. rewrite (alnum_not_dash _ Hc), andb_false_r. cbn. apply IH.
  - destruct b; [apply IH|]. cbn [noDashPair]. cbn [andb negb].
    change (isDash "-") with true. apply IH.
Qed.

Lemma dropLastDash_cons c d r :
  dropLastDash (String c (String d r)) = String c (dropLastDash (String d r)).
Proof. reflexivity. Qed.

Lemma dropLastDash_all f s : all f s = true -> all f (dropLastDash s) = true.
Proof.
  induction s as [|c r IH]; [reflexivity|].
  destruct r as [|d r].
  - cbn. destruct (isDash c); [reflexivity|]. cbn. auto.
  - rewrite dropLastDash_cons. cbn [all]. intros H.
    apply andb_true_iff in H as [Hc Hr]. rewrite Hc. apply IH, Hr.
Qed.

Lemma dropLastDash_start s :
  startsWithDash s = false -> startsWithDash (dropLastDash s) = false.
Proof.
  destruct s as [|c [|d r]]; [reflexivity| |].
  - cbn. intros Hc. rewrite Hc. cbn. exact Hc.
  - rewrite dropLastDash_cons. cbn. auto.
Qed.

Lemma dropLastDash_noDashPair s : forall b,
  noDashPair b s = true -> noDashPair b (dropLastDash s) = true.
Proof.
  induction s as [|c r IH]; intros b; [reflexivity|].
  destruct r as [|d r].
  - cbn. destruct (isDash c) eqn:Hc; [reflexivity|]. cbn. rewrite Hc. auto.
  - rewrite dropLastDash_cons. cbn [noDashPair]. intros H.
    apply andb_true_iff in H as [Hc Hr]. rewrite Hc. apply IH, Hr.
Qed.

Lemma dropLastDash_end s : forall b,
  noDashPair b s = true -> endsWithDash (dropLastDash s) = false.
Proof.
  induction s as [|c r IH]; intros b; [reflexivity|].
  destruct r as [|d r].
  - cbn. destruct (isDash c) eqn:Hc; [reflexivity|]. cbn. intros _. exact Hc.
  - rewrite dropLastDash_cons. cbn [noDashPair]. intros H.
    apply andb_true_iff in H as [_ Hr]. specialize (IH _ Hr).
    destruct (dropLastDash (String d r)) as [|e t] eqn:Hd; [|exact IH].
    destruct r as [|d' r]; [|rewrite dropLastDash_cons in Hd; discriminate].
    cbn [dropLastDash] in Hd. destruct (isDash d) eqn:Hdd; [|discriminate].
    cbn [noDashPair] in Hr. rewrite !andb_true_r in Hr.
    cbn [endsWithDash].
    destruct (isDash c); [discriminate | reflexivity].
Qed.

Lemma noDashPair_weaken s b : noDashPair b s = true -> noDashPair false s = true.
Proof.
  destruct s as [|c r]; [reflexivity|]. cbn. intros H.
  apply andb_true_iff in H as [_ Hr]. exact Hr.
Qed.

Lemma noDashPair_start s : noDashPair true s = true -> startsWithDash s = false.
Proof.
  destruct s as [|c r]; [reflexivity|]. cbn. intros H.
  apply andb_true_iff in H as [Hc _]. destruct (isDash c); [discriminate | reflexivity].
Qed.

Lemma trimDashes_shape s :
  all slugChar s = true -> noDashPair false s = true ->
  all slugChar (trimDashes s) = true
  /\ noDashPair false (trimDashes s) = true
  /\ startsWithDash (trimDashes s) = false
  /\ endsWithDash (trimDashes s) = false.
Proof.
  destruct s as [|c r]; [repeat split|].
  intros Hall Hpair. unfold trimDashes.
  destruct (isDash c) eqn:Hc.
  - cbn in Hall, Hpair. apply andb_true_iff in Hall as [_ Hall].
    rewrite Hc in Hpair.
    split; [apply dropLastDash_all, Hall|].
    split; [apply dropLastDash_noDashPair, (noDashPair_weaken _ _ Hpair)|].
    split; [apply dropLastDash_start, noDashPair_start, Hpair|].
    apply (dropLastDash_end _ _ Hpair).
  - split; [apply dropLastDash_all, Hall|].
    split; [apply dropLastDash_noDashPair, Hpair|].
    split; [apply dropLastDash_start; exact Hc|].
    apply (dropLastDash_end _ _ Hpair).
Qed.
End SlugFacts.

Section HookFacts.
Context {E : Runtime} {D : MongoDriver}.
Import JsString TextShape TextFacts SlugFacts.

(** X5.  The slug the [pre('save')] hook derives from a title is safe in a
    URL path: only the letters a-z, digits and dashes, no two dashes in a
    row, no dash at either end. *)
Theorem slugify_gives_url_safe_slug (t : string) :
  all slugChar (slugify t) = true
  /\ noDashPair false (slugify t) = true
  /\ startsWithDash (slugify t) = false
  /\ endsWithDash (slugify t) = false.
Proof.
  unfold slugify. apply trimDashes_shape.
  - apply dashRuns_chars.
  - apply dashRuns_noDashPair.
Qed.

Lemma orElse_idem o d : orElse (orElse o d) d = orElse o d.
Proof.
  unfold orElse. destruct o as [s|]; [destruct (isEmpty s) eqn:Hs|].
  - destruct (isEmpty d); reflexivity.
  - rewrite Hs. reflexivity.
  - destruct (isEmpty d); reflexivity.
Qed.

Lemma orElse_kept o d : missing o = false -> orElse o d = o.
Proof.
  unfold orElse, missing. destruct o as [s|]; [|discriminate].
  intros ->. reflexivity.
Qed.

Lemma orElse_filled o d : missing o = true -> orElse o d = Some d.
Proof.
  unfold orElse, missing. destruct o as [s|]; [|reflexivity].
  intros ->. reflexivity.
Qed.

(** X6.  The [pre('save')] hook on a stored document fills in the excerpt
    and the two meta fields only where they are missing, within the
    lengths the schema allows (300, 60 and 160 characters); a field that
    is there is kept, and running the hook again changes nothing. *)
Theorem preSave_fills_only_missing_fields (p : Post) :
  preSave (preSave p) = preSave p
  /\ (missing (excerpt p) = false -> excerpt (preSave p) = excerpt p)
  /\ (missing (metaTitle p) = false -> metaTitle (preSave p) = metaTitle p)
  /\ (missing (metaDescription p) = false ->
      metaDescription (preSave p) = metaDescription p)
  /\ (missing (excerpt p) = true ->
      excerpt (preSave p) = Some (substring0 300 (description p))
      /\ (textLength (excerpt (preSave p)) <= 300)%nat)
  /\ (missing (metaTitle p) = true ->
      metaTitle (preSave p) = Some (substring0 60 (title p))
      /\ (textLength (metaTitle (preSave p)) <= 60)%nat)
  /\ (missing (metaDescription p) = true ->
      metaDescription (preSave p) = Some (substring0 160 (description p))
      /\ (textLength (metaDescription (preSave p)) <= 160)%nat).
Proof.
  split.
  { unfold preSave. cbn. rewrite !orElse_idem. reflexivity. }
  split; [intros H; cbn; apply orElse_kept, H|].
  split; [intros H; cbn; apply orElse_kept, H|].
  split; [intros H; cbn; apply orElse_kept, H|].
  split; [|split];
    intros H; cbn; rewrite (orElse_filled _ _ H);
    (split; [reflexivity | cbn; apply substring0_length_le]).
Qed.
End HookFacts.

Section RecordFacts.
Context {E : Runtime}.
Import JsString TextShape TextFacts WordCountFacts.

Lemma tagFree_substring0 n s : tagFree s = true -> tagFree (substring0 n s) = true.
Proof.
  unfold substring0. revert n. induction s as [|c r IH]; intros [|n]; cbn; try reflexivity.
  intros H. apply andb_true_iff in H as [Hc Hr].
  rewrite (IH n Hr), andb_true_r.
  destruct (isLt c); [|reflexivity].
  apply (all_substring0 _ n r Hc).
Qed.

Lemma title_shape t :
  let x := match js_or t (JStr "Untitled") with JStr x => x | _ => "Untitled" end in
  (exists s, t = JStr (trim s)) \/ t = JUndefined ->
  x <> "" /\ trim x = x.
Proof.
  intros x [[s ->] | ->]; subst x; [|split; [discriminate | reflexivity]].
  unfold js_or. cbn [truthy].
  destruct (String.eqb (trim s) "") eqn:Hs; cbn [negb].
  - split; [discriminate | reflexivity].
  - split; [|apply trim_idem].
    intros Heq. rewrite Heq in Hs. discriminate.
Qed.

Lemma optTrim_shape f v t :
  optTrim f v = Ok t -> (exists s, t = JStr (trim s)) \/ t = JUndefined.
Proof.
  destruct v; cbn; intros [= <-]; eauto.
Qed.

(** X7.  What every parsed record satisfies: a reading time of at least one
    minute (also for an entry without text), a title that is not empty and
    has nothing to trim, an excerpt that is the first 300 characters of
    the content without its tags and holds no complete tag itself, and
    tags and categories the schema stores unchanged. *)
Theorem parsed_record_is_well_formed (now : Z) (item : Item) (ad : ArticleData) :
  parseMediumArticle now item = Ok ad ->
  1 <= ad_readingTime ad
  /\ ad_title ad <> "" /\ trim (ad_title ad) = ad_title ad
  /\ ad_excerpt ad = substring0 300 (stripTags (ad_content ad))
  /\ tagFree (ad_excerpt ad) = true
  /\ List.map trim (ad_tags ad) = ad_tags ad
  /\ List.map trim (ad_categories ad) = ad_categories ad.
Proof.
  unfold parseMediumArticle, parseBody, bindRes.
  destruct (js_or (js_or _ _) _) as [| | | |body| |]; try discriminate.
  destruct (generateMediumId _); try discriminate.
  destruct (optTrim _ (item_title item)) as [t|] eqn:Ht; try discriminate.
  destruct (optTrim _ (item_contentSnippet item)); try discriminate.
  intros H. injection H as <-. cbn.
  destruct (title_shape t (optTrim_shape _ _ _ Ht)) as [Hne Htrim].
  split.
  { unfold ceilDiv200, splitWhitespace.
    pose proof (splitFrom_nonempty false (stripTags body)) as Hs.
    destruct (splitFrom false (stripTags body)) as [|x xs]; [contradiction|].
    cbn [List.length]. apply Z.div_le_lower_bound; lia. }
  split; [exact Hne|]. split; [exact Htrim|]. split; [reflexivity|].
  split; [apply tagFree_substring0, stripFrom_tagFree|].
  pose proof (extractTags_normal (js_or (item_categories item) (JArr []))) as Hn.
  split; [exact (map_trim_normal _ Hn)|].
  apply map_trim_normal. unfold extractCategories. apply Forall_take, Hn.
Qed.

(** X8.  Parsing fails exactly on an entry whose content, identifier source,
    title or snippet has the wrong kind of value: the content (after the
    fallbacks) must be a text, the guid or link a text or falsy, the title
    and the snippet a text, [null] or [undefined]. *)
Theorem parseMediumArticle_succeeds_iff_parsable (now : Z) (item : Item) :
  (exists ad, parseMediumArticle now item = Ok ad) <-> parsable item = true.
Proof.
  unfold parseMediumArticle, parseBody, parsable, bindRes, generateMediumId.
  destruct (js_or (js_or _ _) _) as [| | | |body| |]; cbn [isText andb];
    try (split; [intros [ad H]; discriminate | discriminate]).
  destruct (truthy (js_or (item_guid item) (item_link item))) eqn:Hg; cbn [negb orb].
  - destruct (js_or (item_guid item) (item_link item)) as [| | | |g| |];
      cbn [isText andb];
      try (split; [intros [ad H]; discriminate | discriminate]).
    destruct (matchTrailingHex g);
      destruct (item_title item); cbn;
      try (split; [intros [ad H]; discriminate | discriminate]);
      destruct (item_contentSnippet item); cbn;
      try (split; [intros [ad H]; discriminate | discriminate]);
      (split; [reflexivity | intros _; eexists; reflexivity]).
  - destruct (item_title item); cbn;
      try (split; [intros [ad H]; discriminate | discriminate]);
      destruct (item_contentSnippet item); cbn;
      try (split; [intros [ad H]; discriminate | discriminate]);
      (split; [reflexivity | intros _; eexists; reflexivity]).
Qed.
End RecordFacts.

(** ** The ingestion routine *)

Section SyncMore.
Context {E : Runtime} {D : MongoDriver}.
Import JsString.

(** X9.  The busy flag.  A call made while a run is in progress returns the
    busy message and changes nothing at all; a run started otherwise ends
    with the flag released, whatever happens to the fetch and to the
    entries; [forcSync] is the run from the released flag, so it never
    answers busy and releases the flag as well. *)
Theorem sync_releases_the_busy_flag (parsed : Res (option Feed)) (w : World) :
  (syncInProgress w = true ->
   syncArticles parsed w = (w, Ok (SyncBusy "Sync already in progress")))
  /\ (syncInProgress w = false ->
      syncInProgress (fst (syncArticles parsed w)) = false)
  /\ forcSync parsed w = syncArticles parsed (set_syncInProgress false w)
  /\ syncInProgress (fst (forcSync parsed w)) = false
  /\ (forall m, snd (forcSync parsed w) <> Ok (SyncBusy m)).
Proof.
  assert (forall w0, syncInProgress w0 = false ->
            syncInProgress (fst (syncArticles parsed w0)) = false
            /\ forall m, snd (syncArticles parsed w0) <> Ok (SyncBusy m)) as Hrun.
  { intros w0 H0. rewrite syncArticles_unfold, H0.
    destruct (feedItems parsed); cbn; split; try reflexivity; discriminate. }
  assert (forcSync parsed w = syncArticles parsed (set_syncInProgress false w)) as Hf
      by reflexivity.
  split; [intros Hb; rewrite syncArticles_unfold, Hb; reflexivity|].
  split; [intros H0; apply Hrun, H0|].
  split; [exact Hf|]. rewrite Hf.
  split; apply Hrun; reflexivity.
Qed.

Lemma curated_kept_refl d : curated_kept d d.
Proof. intros k p Hk. exists p. repeat split; auto. Qed.

Lemma curated_kept_trans d1 d2 d3 :
  curated_kept d1 d2 -> curated_kept d2 d3 -> curated_kept d1 d3.
Proof.
  intros H12 H23 k p Hk.
  destruct (H12 k p Hk) as (p2 & Hk2 & ? & ? & ? & ? & ? & ? & ? & ? & ?).
  destruct (H23 k p2 Hk2) as (p3 & Hk3 & ? & ? & ? & ? & ? & ? & ? & ? & ?).
  exists p3. repeat split; congruence.
Qed.

Lemma curated_kept_insert (d : gmap nat Post) id p p' :
  d !! id = Some p ->
  mediumId p' = mediumId p -> slug p' = slug p -> status p' = status p ->
  featured p' = featured p -> views p' = views p -> likes p' = likes p ->
  createdAt p' = createdAt p -> metaTitle p' = metaTitle p ->
  metaDescription p' = metaDescription p ->
  curated_kept d (<[id := p']> d).
Proof.
  intros Hid ? ? ? ? ? ? ? ? ? k q Hk.
  destruct (decide (k = id)) as [->|Hne].
  - exists p'. rewrite lookup_insert_eq. rewrite Hid in Hk. injection Hk as <-.
    repeat split; assumption.
  - exists q. rewrite lookup_insert_ne by congruence. repeat split; auto.
Qed.

Lemma ItemEffect_curated_kept item d d' :
  ItemEffect item d d' -> curated_kept d d'.
Proof.
  intros [|now ad c mid id p stamp _ _ _ Hf|mid id p now stamp _ Hf].
  - apply curated_kept_refl.
  - apply findFirst_Some in Hf as [Hk Hm]. apply has_mediumId_true in Hm.
    eapply curated_kept_insert; eauto.
  - apply findFirst_Some in Hf as [Hk _].
    eapply curated_kept_insert; eauto.
Qed.

Lemma syncLoop_curated_kept items :
  forall w, curated_kept (docs w) (docs (fst (syncLoop items w))).
Proof.
  induction items as [|item rest IH]; intros w; [apply curated_kept_refl|].
  rewrite syncLoop_cons. eapply curated_kept_trans; [|apply IH].
  apply ItemEffect_curated_kept with (item := item), syncItem_effect.
Qed.

(** X10.  What a synchronisation never does, whatever the feed holds and
    whatever the driver rejects: it deletes no post, and it leaves the
    identifier, slug, status, featured flag, views, likes, creation date
    and meta fields of every stored post as they were.  The same holds for
    a forced run. *)
Theorem sync_keeps_every_post_and_its_curated_fields
    (parsed : Res (option Feed)) (w : World) :
  curated_kept (docs w) (docs (fst (syncArticles parsed w)))
  /\ curated_kept (docs w) (docs (fst (forcSync parsed w))).
Proof.
  assert (forall w0, curated_kept (docs w0) (docs (fst (syncArticles parsed w0)))) as H.
  { intros w0. rewrite syncArticles_unfold.
    destruct (syncInProgress w0); [apply curated_kept_refl|].
    destruct (feedItems parsed) as [items|]; cbn; [|apply curated_kept_refl].
    apply (syncLoop_curated_kept items (set_counts 0 0 (set_syncInProgress true w0))). }
  split; [apply H|].
  apply (H (set_syncInProgress false w)).
Qed.

Lemma syncItem_quiet item w :
  syncedCount (fst (syncItem item w)) = syncedCount w ->
  errorCount (fst (syncItem item w)) = errorCount w ->
  docs (fst (syncItem item w)) = docs w.
Proof.
  munfold. cbn [docs clock set_docs set_clock set_counts syncedCount errorCount].
  repeat run_step; intros; try reflexivity; lia.
Qed.

Lemma syncLoop_counts_mono items :
  forall w, (syncedCount w <= syncedCount (fst (syncLoop items w)))%nat
            /\ (errorCount w <= errorCount (fst (syncLoop items w)))%nat.
Proof.
  induction items as [|item rest IH]; intros w; [cbn; lia|].
  rewrite syncLoop_cons. specialize (IH (fst (syncItem item w))).
  pose proof (syncItem_counts item w). lia.
Qed.

Lemma syncLoop_quiet items :
  forall w,
    syncedCount (fst (syncLoop items w)) = syncedCount w ->
    errorCount (fst (syncLoop items w)) = errorCount w ->
    docs (fst (syncLoop items w)) = docs w.
Proof.
  induction items as [|item rest IH]; intros w; [reflexivity|].
  rewrite syncLoop_cons. intros Hs He.
  pose proof (syncItem_counts item w) as (Hs1 & He1 & _).
  pose proof (syncLoop_counts_mono rest (fst (syncItem item w))) as [Hs2 He2].
  rewrite IH by lia. apply syncItem_quiet; lia.
Qed.

(** X11.  The counters account for every change: a run that reports no
    synchronised and no failed entry, and a call that is refused or whose
    fetch fails, leaves the collection exactly as it was. *)
Theorem quiet_run_changes_nothing
    (parsed : Res (option Feed)) (w : World) (r : SyncResult) :
  snd (syncArticles parsed w) = Ok r ->
  reportsNothing r = true ->
  docs (fst (syncArticles parsed w)) = docs w.
Proof.
  rewrite syncArticles_unfold.
  destruct (syncInProgress w); [reflexivity|].
  destruct (feedItems parsed) as [items|]; cbn; [|reflexivity].
  intros [= <-]. cbn. intros H. apply Nat.eqb_eq in H.
  apply (syncLoop_quiet items (set_counts 0 0 (set_syncInProgress true w))); cbn; lia.
Qed.

Lemma syncItemTry_throw item w e :
  snd (syncItemTry item w) = Throw e ->
  docs (fst (syncItemTry item w)) = docs w
  /\ syncedCount (fst (syncItemTry item w)) = syncedCount w
  /\ errorCount (fst (syncItemTry item w)) = errorCount w
  /\ syncInProgress (fst (syncItemTry item w)) = syncInProgress w.
Proof.
  munfold. cbn [docs clock set_docs set_clock set_counts syncedCount errorCount].
  repeat run_step; cbn [snd]; intros H; try discriminate; repeat split.
Qed.

Lemma syncItemCatch_counts item w :
  errorCount (fst (syncItemCatch item w)) = S (errorCount w)
  /\ syncedCount (fst (syncItemCatch item w)) = syncedCount w.
Proof.
  munfold. cbn [docs clock set_docs set_clock set_counts syncedCount errorCount].
  repeat run_step; split; reflexivity.
Qed.

Lemma syncItemCatch_docs item w :
  docs (fst (syncItemCatch item w)) = docs w
  \/ exists mid id p now stamp,
       derivedId item = Some mid
       /\ findFirst (has_mediumId mid) (docs w) = Some (id, p)
       /\ docs (fst (syncItemCatch item w)) = <[id := markFailed now stamp p]> (docs w).
Proof.
  munfold. cbn [docs clock set_docs set_clock set_counts].
  repeat run_step; try (left; reflexivity).
  right. eexists _, _, _, _, _. split; [|split; [eassumption | reflexivity]].
  erewrite <- parse_derivedId; eauto.
Qed.

Lemma syncItemCatch_marks item w now0 ad0 mid id p :
  parseMediumArticle now0 item = Ok ad0 ->
  derivedId item = Some mid ->
  findFirst (has_mediumId mid) (docs w) = Some (id, p) ->
  db_fault (CallFindOneAndUpdate mid) (docs w) = None ->
  exists now stamp,
    docs (fst (syncItemCatch item w)) = <[id := markFailed now stamp p]> (docs w).
Proof.
  intros Hp0 Hid Hfind Hfault.
  destruct (parse_any_time now0 (clock w) item ad0 Hp0) as [ad Hp].
  pose proof (parse_derivedId _ _ _ Hp) as Hu. rewrite Hid in Hu.
  munfold. world_simpl. rewrite Hp. cbv beta iota. rewrite Hu. cbv beta iota.
  world_simpl. rewrite Hfault. cbv beta iota. world_simpl.
  rewrite Hfind. cbv beta iota. world_simpl.
  eexists _, _. reflexivity.
Qed.

(** X12.  An entry whose processing throws is counted as an error, never as
    synchronised, and the error does not stop the run.  The collection is
    then as before except, at most, for the stored post of the entry,
    which is marked failed with everything but [syncStatus],
    [lastSyncedAt] and [updatedAt] kept; and it is marked whenever the
    entry parses, has a stored post and the driver accepts the mark. *)
Theorem failed_entry_is_counted_and_marked (item : Item) (w : World) (e : Exn) :
  snd (syncItemTry item w) = Throw e ->
  let w' := fst (syncItem item w) in
  snd (syncItem item w) = Ok tt
  /\ errorCount w' = S (errorCount w)
  /\ syncedCount w' = syncedCount w
  /\ (docs w' = docs w
      \/ exists mid id p now stamp,
           derivedId item = Some mid /\ docs w !! id = Some p
           /\ mediumId p = mid
           /\ docs w' = <[id := markFailed now stamp p]> (docs w))
  /\ (forall now0 ad0 mid id p,
        parseMediumArticle now0 item = Ok ad0 ->
        derivedId item = Some mid ->
        findFirst (has_mediumId mid) (docs w) = Some (id, p) ->
        db_fault (CallFindOneAndUpdate mid) (docs w) = None ->
        exists now stamp, docs w' = <[id := markFailed now stamp p]> (docs w)).
Proof.
  intros Hthrow w'.
  destruct (syncItemTry_throw _ _ _ Hthrow) as (Hd & Hs & He & _).
  assert (fst (syncItem item w) = fst (syncItemCatch item (fst (syncItemTry item w))))
    as Hw.
  { unfold syncItem, try_catch.
    destruct (syncItemTry item w) as [w1 [[]|e1]]; [discriminate | reflexivity]. }
  subst w'. rewrite Hw.
  destruct (syncItemCatch_counts item (fst (syncItemTry item w))) as [Hec Hsc].
  split; [apply syncItem_effect|].
  split; [rewrite Hec, He; reflexivity|].
  split; [rewrite Hsc, Hs; reflexivity|].
  split.
  - destruct (syncItemCatch_docs item (fst (syncItemTry item w)))
      as [Hsame|(mid & id & p & now & stamp & Hid & Hf & Heq)].
    + left. rewrite Hsame. exact Hd.
    + right. rewrite Hd in Hf, Heq.
      apply findFirst_Some in Hf as [Hk Hm]. apply has_mediumId_true in Hm.
      eauto 10.
  - intros now0 ad0 mid id p Hp Hid Hf Hfault.
    rewrite <- Hd in Hf, Hfault |- *.
    exact (syncItemCatch_marks _ _ _ _ _ _ _ Hp Hid Hf Hfault).
Qed.

End SyncMore.

(** ** The virtual, [getPublished] and the admin endpoints *)

Ltac aunfold :=
  cbv beta iota zeta delta
    [deleteBlogPost BlogPost_findByIdAndDelete syncMediumArticles getSyncStatus
     mediumService_getSyncStatus BlogPost_findOne_lastSynced admin_call username
     getPublished try_catch try_finally bind modify lift Date_now ret throw
     db_call get fst snd].

Section VirtualFacts.

(** X13.  The units of [timeAgo].  A post published less than a day ago
    is shown as Today and one published a day ago as Yesterday; from a
    week on the number shown is at least 1 (weeks up to 4, months up to
    12); and a post dated in the future is never Today: it is shown with
    a negative number of days. *)
Theorem timeAgo_units (now t : Z) :
  let days := (now - t) / MS_PER_DAY in
  (0 <= now - t < MS_PER_DAY -> timeAgo now (Some t) = "Today")
  /\ (MS_PER_DAY <= now - t < 2 * MS_PER_DAY ->
      timeAgo now (Some t) = "Yesterday")
  /\ (now < t ->
      days < 0 /\ timeAgo now (Some t) = showInt days ++ " days ago")
  /\ (7 <= days < 30 ->
      1 <= days / 7 <= 4
      /\ timeAgo now (Some t) = showInt (days / 7) ++ " weeks ago")
  /\ (30 <= days < 365 ->
      1 <= days / 30 <= 12
      /\ timeAgo now (Some t) = showInt (days / 30) ++ " months ago")
  /\ (365 <= days ->
      1 <= days / 365
      /\ timeAgo now (Some t) = showInt (days / 365) ++ " years ago").
Proof.
  intros days. unfold timeAgo. fold days.
  assert (0 < MS_PER_DAY) as Hpos by reflexivity.
  repeat split.
  - intros [H0 H1]. assert (days = 0) as ->; [|reflexivity].
    subst days. apply Z.div_small. lia.
  - intros [H0 H1]. assert (days = 1) as ->; [|reflexivity].
    subst days. symmetry. apply (Z.div_unique _ _ 1 (now - t - MS_PER_DAY)); lia.
  - subst days. apply Z.div_lt_upper_bound; lia.
  - assert (days < 0) as Hneg by (subst days; apply Z.div_lt_upper_bound; lia).
    destruct (days =? 0) eqn:E0; [lia|].
    destruct (days =? 1) eqn:E1; [lia|].
    destruct (days <? 7) eqn:E7; [reflexivity | lia].
  - apply Z.div_le_lower_bound; lia.
  - assert (days / 7 < 5) by (apply Z.div_lt_upper_bound; lia). lia.
  - destruct (days =? 0) eqn:E0; [lia|].
    destruct (days =? 1) eqn:E1; [lia|].
    destruct (days <? 7) eqn:E7; [lia|].
    destruct (days <? 30) eqn:E30; [reflexivity | lia].
  - apply Z.div_le_lower_bound; lia.
  - assert (days / 30 < 13) by (apply Z.div_lt_upper_bound; lia). lia.
  - destruct (days =? 0) eqn:E0; [lia|].
    destruct (days =? 1) eqn:E1; [lia|].
    destruct (days <? 7) eqn:E7; [lia|].
    destruct (days <? 30) eqn:E30; [lia|].
    destruct (days <? 365) eqn:E365; [reflexivity | lia].
  - apply Z.div_le_lower_bound; lia.
  - destruct (days =? 0) eqn:E0; [lia|].
    destruct (days =? 1) eqn:E1; [lia|].
    destruct (days <? 7) eqn:E7; [lia|].
    destruct (days <? 30) eqn:E30; [lia|].
    destruct (days <? 365) eqn:E365; [lia | reflexivity].
Qed.

End VirtualFacts.

Section AdminFacts.
Context {E : Runtime} {D : MongoDriver} {A : AdminDriver}.
Import JsString.

Lemma matchesAll_featured q kp b :
  In (FFeatured b) q -> matchesAll q kp = true -> featured (snd kp) = b.
Proof.
  unfold matchesAll. intros Hin Hall.
  rewrite forallb_forall in Hall. specialize (Hall _ Hin). cbn in Hall.
  apply Bool.eqb_prop in Hall. exact Hall.
Qed.

(** X14.  [getPublished] changes nothing and lists stored posts that are
    published and, when the option is given, have the requested featured
    flag; with a positive limit and no negative skip it lists at most
    [limit] of them (ten by default).  [getFeatured(n)] is
    [getPublished] with the limit [n] and [featured: true]. *)
Theorem getPublished_lists_published_posts (o : PublishedOptions) (w : World) :
  fst (getPublished o w) = w
  /\ (forall posts,
        snd (getPublished o w) = Ok posts ->
        List.Forall
          (fun kp => docs w !! fst kp = Some (snd kp)
                     /\ status (snd kp) = published
                     /\ forall b, opt_featured o = Some b ->
                                  featured (snd kp) = b) posts
        /\ (0 < default 10 (opt_limit o) -> 0 <= default 0 (opt_skip o) ->
            (Z.of_nat (List.length posts) <= default 10 (opt_limit o))))
  /\ (forall n, (0 < n)%nat ->
        getPublished (mkPublishedOptions (Some (Z.of_nat n)) None (Some true)) w
        = getFeatured n w).
Proof.
  split; [|split].
  - aunfold. destruct (db_fault _ _); reflexivity.
  - intros posts. aunfold.
    set (q := match opt_featured o with Some b => _ | None => _ end).
    destruct (db_fault _ _); [discriminate|].
    destruct (cursor_window _ _ _) as [page|] eqn:Hwin; [|discriminate].
    cbn. intros [= <-]. split.
    + apply List.Forall_forall. intros kp Hin.
      apply cursor_window_incl in Hwin. apply Hwin in Hin.
      eapply Permutation_in in Hin; [|apply cursor_sort_perm].
      apply selectDocs_In in Hin as [Hlook Hm].
      split; [exact Hlook|]. split.
      * eapply matchesAll_status; [|exact Hm].
        subst q. destruct (opt_featured o); left; reflexivity.
      * intros b Hb. eapply matchesAll_featured; [|exact Hm].
        subst q. rewrite Hb. right. left. reflexivity.
    + intros Hl Hk.
      assert (default 10 (opt_limit o)
              = match opt_limit o with Some l => l | None => 10 end) as Hdl
          by (destruct (opt_limit o); reflexivity).
      assert (default 0 (opt_skip o)
              = match opt_skip o with Some k => k | None => 0 end) as Hdk
          by (destruct (opt_skip o); reflexivity).
      rewrite Hdl in *. rewrite Hdk in *.
      rewrite cursor_window_regular in Hwin by assumption.
      injection Hwin as <-. rewrite length_firstn. lia.
  - intros n Hn. unfold getPublished, getFeatured. cbn [opt_limit opt_skip opt_featured].
    unfold bind, db_call, get, lift, ret.
    destruct (db_fault _ _); [reflexivity|].
    rewrite cursor_window_regular by lia.
    rewrite Nat2Z.id. reflexivity.
Qed.

(** X15.  The sync endpoint reports the run of [syncArticles] as it is: the
    world after the request is the world after the run, the response
    carries the result of the run, and the status is 200 exactly when no
    run was in progress and the feed could be fetched.  A refused call is
    answered 500 with the busy message, a failed fetch 500 with the
    default message.  A request without a user fails before any run is
    started. *)
Theorem sync_endpoint_reports_the_run
    (name : string) (parsed : Res (option Feed)) (w : World) :
  fst (syncMediumArticles (Some name) parsed w) = fst (syncArticles parsed w)
  /\ (exists result message,
        snd (syncArticles parsed w) = Ok result
        /\ snd (syncMediumArticles (Some name) parsed w)
           = Ok (if success result
                 then AdminJson 200
                        (SyncReport "success"
                           "Medium articles synced successfully" result)
                 else AdminJson 500 (SyncReport "error" message result))
        /\ (success result = true <->
            syncInProgress w = false /\ feedItems parsed <> None)
        /\ (syncInProgress w = true -> message = "Sync already in progress")
        /\ (syncInProgress w = false -> message = "Failed to sync Medium articles"))
  /\ syncMediumArticles None parsed w
     = (w, Ok (AdminJson 500 (AdminError "Error syncing Medium articles"))).
Proof.
  split; [|split; [|reflexivity]].
  - aunfold. rewrite syncArticles_unfold.
    destruct (syncInProgress w); [reflexivity|].
    destruct (feedItems parsed); reflexivity.
  - aunfold. rewrite syncArticles_unfold.
    destruct (syncInProgress w) eqn:Hbusy.
    + eexists _, _. split; [reflexivity|]. split; [reflexivity|].
      split; [split; [discriminate | intros [? _]; discriminate]|].
      split; [reflexivity | discriminate].
    + destruct (feedItems parsed) as [items|] eqn:Hfeed; cbn.
      * eexists _, "Failed to sync Medium articles".
        split; [reflexivity|]. split; [reflexivity|].
        split; [split; [split; [reflexivity | discriminate] | reflexivity]|].
        split; [discriminate | reflexivity].
      * eexists _, _. split; [reflexivity|]. split; [reflexivity|].
        split; [split; [discriminate | intros [_ ?]; congruence]|].
        split; [discriminate | reflexivity].
Qed.

(** X16.  The status endpoint only reads.  Its 200 response shows the busy
    flag of the service as it is, no last synchronisation exactly when the
    collection is empty, and otherwise the date and the status of one and
    the same stored post.  After a run that was not refused it shows the
    flag released. *)
Theorem sync_status_endpoint_only_reads (w : World) :
  fst (getSyncStatus w) = w
  /\ (forall inProgress lastSync lastSyncStatus,
        snd (getSyncStatus w)
        = Ok (AdminJson 200 (SyncStatusBody inProgress lastSync lastSyncStatus)) ->
        inProgress = syncInProgress w
        /\ (lastSync = None <-> docs w = ∅)
        /\ (lastSyncStatus = None <-> docs w = ∅)
        /\ (forall t, lastSync = Some t ->
              exists k p, docs w !! k = Some p /\ lastSyncedAt p = t
                          /\ lastSyncStatus = Some (syncStatus p)))
  /\ (forall parsed inProgress lastSync lastSyncStatus,
        syncInProgress w = false ->
        snd (getSyncStatus (fst (syncArticles parsed w)))
        = Ok (AdminJson 200 (SyncStatusBody inProgress lastSync lastSyncStatus)) ->
        inProgress = false).
Proof.
  assert (forall w0 inProgress lastSync lastSyncStatus,
            snd (getSyncStatus w0)
            = Ok (AdminJson 200 (SyncStatusBody inProgress lastSync lastSyncStatus)) ->
            inProgress = syncInProgress w0) as Hflag.
  { intros w0 ip ls lss. aunfold.
    destruct (admin_fault _ _); [discriminate|]. cbn. intros [= <- _ _]. reflexivity. }
  split; [|split].
  - aunfold. destruct (admin_fault _ _); reflexivity.
  - intros ip ls lss Hres. split; [exact (Hflag _ _ _ _ Hres)|].
    revert Hres. aunfold.
    destruct (admin_fault _ _); [discriminate|]. cbn.
    assert (selectDocs [] (docs w) = map_to_list (docs w)) as Hall.
    { unfold selectDocs. apply forallb_filter_id. apply forallb_forall.
      intros kp _. reflexivity. }
    rewrite Hall.
    pose proof (cursor_sort_perm byLastSyncedAtDesc (map_to_list (docs w))) as Hperm.
    destruct (cursor_sort byLastSyncedAtDesc (map_to_list (docs w))) as [|[k p] rest] eqn:Hsort.
    + apply Permutation_nil in Hperm. apply map_to_list_empty_iff in Hperm.
      cbn. intros [= _ <- <-]. repeat split; auto; discriminate.
    + assert (docs w !! k = Some p) as Hk.
      { apply elem_of_map_to_list. apply list_elem_of_In.
        eapply Permutation_in; [exact Hperm | left; reflexivity]. }
      assert (docs w <> ∅) as Hne.
      { intros Hempty. rewrite Hempty in Hk. rewrite lookup_empty in Hk. discriminate. }
      cbn. intros [= _ <- <-]. repeat split; try discriminate; try contradiction.
      intros t [= <-]. exists k, p. repeat split. exact Hk.
  - intros parsed ip ls lss Hidle Hres.
    rewrite (Hflag _ _ _ _ Hres).
    rewrite syncArticles_unfold, Hidle.
    destruct (feedItems parsed); reflexivity.
Qed.

Lemma delete_run user idText w :
  deleteBlogPost user idText w =
  match castObjectId idText with
  | None => (w, Ok (AdminJson 404 (AdminError "Blog post not found")))
  | Some id =>
      match admin_fault (CallFindByIdAndDelete id) (docs w) with
      | Some e =>
          (w, Ok (if isCastError e
                  then AdminJson 404 (AdminError "Blog post not found")
                  else AdminJson 500 (AdminError "Error deleting blog post")))
      | None =>
          match docs w !! id with
          | None => (w, Ok (AdminJson 404 (AdminError "Blog post not found")))
          | Some p =>
              (set_docs (delete id (docs w)) w,
               Ok (match user with
                   | Some _ => AdminJson 200 (Deleted "Blog post deleted successfully")
                   | None => AdminJson 500 (AdminError "Error deleting blog post")
                   end))
          end
      end
  end.
Proof.
  aunfold.
  destruct (castObjectId idText) as [id|]; [|reflexivity].
  destruct (admin_fault _ _) as [e|]; [destruct (isCastError e); reflexivity|].
  destruct (docs w !! id); [|reflexivity].
  destruct user; reflexivity.
Qed.

(** X17.  [deleteBlogPost] removes at most the addressed document and
    touches no other: a 200 response means that the addressed document
    was stored and is now gone, with every other document as it was, and
    an id that is malformed or addresses nothing is answered 404 with the
    collection unchanged.  The handler always answers, with 200, 404 or
    500. *)
Theorem delete_removes_exactly_the_addressed_post
    (user : option string) (idText : string) (w : World) :
  let w' := fst (deleteBlogPost user idText w) in
  (forall k, castObjectId idText <> Some k -> docs w' !! k = docs w !! k)
  /\ (forall k p, docs w' !! k = Some p -> docs w !! k = Some p)
  /\ (forall body,
        snd (deleteBlogPost user idText w) = Ok (AdminJson 200 body) ->
        exists id p,
          castObjectId idText = Some id /\ docs w !! id = Some p
          /\ docs w' = delete id (docs w)
          /\ body = Deleted "Blog post deleted successfully")
  /\ (castObjectId idText = None \/
      (exists id, castObjectId idText = Some id /\ docs w !! id = None
                  /\ admin_fault (CallFindByIdAndDelete id) (docs w) = None) ->
      deleteBlogPost user idText w
      = (w, Ok (AdminJson 404 (AdminError "Blog post not found"))))
  /\ (exists code body,
        snd (deleteBlogPost user idText w) = Ok (AdminJson code body)
        /\ (code = 200 \/ code = 404 \/ code = 500)).
Proof.
  intros w'. subst w'. rewrite delete_run.
  destruct (castObjectId idText) as [id|] eqn:Hcast.
  2:{ repeat split; try discriminate; eauto 10. }
  destruct (admin_fault _ _) as [e|] eqn:Hfault.
  { repeat split; try (destruct (isCastError e); discriminate); eauto.
    - intros [?|(id' & Hid' & _ & Hf)]; [discriminate|].
      injection Hid' as <-. congruence.
    - destruct (isCastError e); eauto 10. }
  destruct (docs w !! id) as [p|] eqn:Hid.
  2:{ repeat split; try discriminate; eauto 10. }
  cbn [fst snd docs set_docs].
  split; [intros k Hk; apply lookup_delete_ne; congruence|].
  split.
  { intros k q Hq. destruct (decide (k = id)) as [->|Hne].
    - rewrite lookup_delete_eq in Hq. discriminate.
    - rewrite lookup_delete_ne in Hq by congruence. exact Hq. }
  split.
  { destruct user; [|discriminate]. intros body [= <-]. eauto 10. }
  split.
  { intros [?|(id' & Hid' & Hnone & _)]; [discriminate|].
    injection Hid' as <-. congruence. }
  destruct user; eauto 10.
Qed.

(** X18.  A deleted post is gone: the same request made again is answered
    404, and the public read of its slug is answered 404 as well, when no
    other document has the slug (the index on [slug] is unique) and the
    driver rejects neither call. *)
Theorem deleted_post_is_gone
    (user : option string) (idText : string) (w : World) (body : AdminBody) :
  snd (deleteBlogPost user idText w) = Ok (AdminJson 200 body) ->
  let w' := fst (deleteBlogPost user idText w) in
  (forall user' id,
      castObjectId idText = Some id ->
      admin_fault (CallFindByIdAndDelete id) (docs w') = None ->
      deleteBlogPost user' idText w'
      = (w', Ok (AdminJson 404 (AdminError "Blog post not found"))))
  /\ (forall id p,
        castObjectId idText = Some id -> docs w !! id = Some p ->
        (forall k q, docs w !! k = Some q -> slug q = slug p -> k = id) ->
        db_fault (CallFindOne_slug (slug p)) (docs w') = None ->
        getBlogPost (slug p) w'
        = (w', Ok (Json 404 (ErrorBody "Blog post not found")))).
Proof.
  rewrite delete_run.
  destruct (castObjectId idText) as [id|] eqn:Hcast; [|discriminate].
  destruct (admin_fault _ (docs w)) as [e|]; [destruct (isCastError e); discriminate|].
  destruct (docs w !! id) as [p|] eqn:Hid; [|discriminate].
  intros _. cbn [fst].
  split.
  - intros user' id' [= <-] Hfault. rewrite delete_run, Hcast, Hfault.
    cbn [docs set_docs]. rewrite lookup_delete_eq. reflexivity.
  - intros id' p' [= <-] Hp Huniq Hfault.
    rewrite Hid in Hp. injection Hp as <-.
    assert (no_published_post (slug p) (delete id (docs w))) as Hno.
    { intros k q Hk Hs _. destruct (decide (k = id)) as [->|Hne].
      - rewrite lookup_delete_eq in Hk. discriminate.
      - rewrite lookup_delete_ne in Hk by congruence. apply Hne. eauto. }
    cunfold. cbn [docs set_docs] in *. rewrite Hfault.
    cbv beta iota. cbn [docs set_docs].
    rewrite (findOne_slug_absent _ _ Hno). reflexivity.
Qed.

Lemma Permutation_filter_bool {X} (f : X -> bool) l l' :
  Permutation l l' -> Permutation (List.filter f l) (List.filter f l').
Proof.
  induction 1 as [|x l l' _ IH|x y l|l1 l2 l3 _ IH1 _ IH2]; cbn.
  - constructor.
  - destruct (f x); [constructor|]; exact IH.
  - destruct (f x), (f y); try apply Permutation_refl. constructor.
  - etransitivity; eassumption.
Qed.

Lemma sumOf_perm f l l' : Permutation l l' -> sumOf f l = sumOf f l'.
Proof.
  unfold sumOf.
  induction 1 as [|x l l' _ IH|x y l|l1 l2 l3 _ IH1 _ IH2]; cbn; lia.
Qed.

Lemma firstOrZero_groupSum f l : firstOrZero (groupSum f l) = sumOf f l.
Proof.
  destruct l as [|kp r]; [reflexivity|]. unfold groupSum, firstOrZero.
  destruct (sumOf f (kp :: r) =? 0) eqn:H; [|reflexivity].
  apply Z.eqb_eq in H. congruence.
Qed.

(** [getBlogStats] in closed form. *)
Lemma getBlogStats_run w :
  fst (getBlogStats w) = w
  /\ (forall st,
        snd (getBlogStats w) = Ok (AdminJson 200 (StatsBody st)) ->
        let pub := selectDocs [FStatus published] (docs w) in
        st = {| st_totalPosts := List.length pub;
                st_featuredPosts :=
                  List.length (selectDocs [FStatus published; FFeatured true] (docs w));
                st_draftPosts := List.length (selectDocs [FStatus draft] (docs w));
                st_totalViews := sumOf views pub;
                st_totalLikes := sumOf likes pub;
                st_recentPosts :=
                  List.map selectRecent
                    (firstn 5 (cursor_sort byPublishedAtDesc pub));
                st_topTags :=
                  firstn 10 (group_sort (groupTags (unwindTags pub))) |})
  /\ ((forall c, db_fault c (docs w) = None) ->
      (forall c, admin_fault c (docs w) = None) ->
      exists st, snd (getBlogStats w) = Ok (AdminJson 200 (StatsBody st))).
Proof.
  unfold getBlogStats, BlogPost_countDocuments, BlogPost_aggregateSum,
    BlogPost_recent, BlogPost_topTags, admin_call.
  cbv beta iota zeta delta [try_catch bind modify lift ret throw db_call get fst snd].
  split; [|split].
  - repeat (destruct (db_fault _ _); [reflexivity|]).
    repeat (destruct (admin_fault _ _); [reflexivity|]).
    repeat (destruct (db_fault _ _); [reflexivity|]).
    repeat (destruct (admin_fault _ _); [reflexivity|]).
    reflexivity.
  - intros st.
    repeat (destruct (db_fault _ _); [discriminate|]).
    repeat (destruct (admin_fault _ _); [discriminate|]).
    repeat (destruct (db_fault _ _); [discriminate|]).
    repeat (destruct (admin_fault _ _); [discriminate|]).
    intros [= <-]. cbn zeta. rewrite !firstOrZero_groupSum. reflexivity.
  - intros Hdb Had. rewrite !Hdb, !Had. cbv beta iota. rewrite !Hdb. cbv beta iota.
    rewrite !Had. eexists. reflexivity.
Qed.

Lemma selectDocs_sub q1 q2 (m : gmap nat Post) :
  (forall kp, matchesAll q2 kp = true -> matchesAll q1 kp = true) ->
  (List.length (selectDocs q2 m) <= List.length (selectDocs q1 m))%nat.
Proof.
  intros Hsub. unfold selectDocs.
  induction (map_to_list m) as [|kp l IH]; cbn; [lia|].
  destruct (matchesAll q2 kp) eqn:H2.
  - rewrite (Hsub _ H2). cbn. lia.
  - destruct (matchesAll q1 kp); cbn; lia.
Qed.

Lemma selectDocs_disjoint q1 q2 (m : gmap nat Post) :
  (forall kp, matchesAll q1 kp = true -> matchesAll q2 kp = false) ->
  (List.length (selectDocs q1 m) + List.length (selectDocs q2 m) <= size m)%nat.
Proof.
  intros Hdis. rewrite <- length_map_to_list. unfold selectDocs.
  induction (map_to_list m) as [|kp l IH]; cbn; [lia|].
  destruct (matchesAll q1 kp) eqn:H1.
  - rewrite (Hdis _ H1). cbn. lia.
  - destruct (matchesAll q2 kp); cbn; lia.
Qed.

(** X19.  The statistics endpoint only reads, and answers 200 whenever the
    driver rejects no call.  Its counts are consistent with the
    collection: the featured posts are among the published ones, the
    published and the draft posts together are at most the documents
    stored, the recent posts are at most five stored published posts with
    their own title, date and views, and with no published post the
    totals are 0 and both lists are empty. *)
Theorem blog_stats_are_consistent (w : World) :
  fst (getBlogStats w) = w
  /\ (forall st,
        snd (getBlogStats w) = Ok (AdminJson 200 (StatsBody st)) ->
        (st_featuredPosts st <= st_totalPosts st)%nat
        /\ (st_totalPosts st + st_draftPosts st <= size (docs w))%nat
        /\ (List.length (st_recentPosts st) <= 5)%nat
        /\ (List.length (st_recentPosts st) <= st_totalPosts st)%nat
        /\ List.Forall
             (fun r => exists p, docs w !! rp_id r = Some p
                                 /\ status p = published
                                 /\ rp_title r = title p
                                 /\ rp_publishedAt r = publishedAt p
                                 /\ rp_views r = views p)
             (st_recentPosts st)
        /\ (st_totalPosts st = 0%nat ->
            st_totalViews st = 0 /\ st_totalLikes st = 0
            /\ st_recentPosts st = [] /\ st_topTags st = []))
  /\ ((forall c, db_fault c (docs w) = None) ->
      (forall c, admin_fault c (docs w) = None) ->
      exists st, snd (getBlogStats w) = Ok (AdminJson 200 (StatsBody st))).
Proof.
  destruct (getBlogStats_run w) as (Hw & Hst & Hok).
  split; [exact Hw|]. split; [|exact Hok].
  intros st Hres. rewrite (Hst st Hres). cbn.
  set (pub := selectDocs [FStatus published] (docs w)).
  pose proof (cursor_sort_perm byPublishedAtDesc pub) as Hperm.
  split.
  { apply selectDocs_sub. intros kp H. unfold matchesAll in *. cbn in *.
    apply andb_true_iff in H as [H1 _]. rewrite H1. reflexivity. }
  split.
  { apply selectDocs_disjoint. intros [k p] H. unfold matchesAll in *. cbn in *.
    rewrite andb_true_r in *. apply bool_decide_eq_true in H.
    apply bool_decide_eq_false. rewrite H. discriminate. }
  split; [rewrite length_map, length_firstn; lia|].
  split.
  { rewrite length_map, length_firstn, (Permutation_length Hperm). lia. }
  split.
  { apply List.Forall_forall. intros r Hr.
    apply in_map_iff in Hr as (kp & <- & Hin).
    apply In_firstn in Hin. eapply Permutation_in in Hin; [|exact Hperm].
    apply selectDocs_In in Hin as [Hlook Hm].
    exists (snd kp). cbn. repeat split; [exact Hlook|].
    eapply matchesAll_status; [|exact Hm]. left. reflexivity. }
  intros Hnone. apply length_zero_iff_nil in Hnone.
  clearbody pub. subst pub.
  assert (cursor_sort byPublishedAtDesc [] = []) as Hs.
  { apply Permutation_nil. symmetry. exact Hperm. }
  rewrite Hs. cbn.
  assert (group_sort [] = []) as ->.
  { apply Permutation_nil. symmetry. apply group_sort_perm. }
  repeat split.
Qed.

Lemma groupCount_countTag t u G :
  groupCount u (countTag t G)
  = (groupCount u G + (if String.eqb t u then 1 else 0))%nat.
Proof.
  unfold groupCount. induction G as [|[v n] r IH]; cbn.
  - destruct (String.eqb t u); reflexivity.
  - destruct (String.eqb v t) eqn:Hvt; cbn.
    + apply String.eqb_eq in Hvt. subst v.
      destruct (String.eqb t u); cbn; lia.
    + destruct (String.eqb v u) eqn:Hvu; cbn; [|exact IH].
      apply String.eqb_eq in Hvu. subst v. rewrite String.eqb_sym, Hvt. lia.
Qed.

Lemma groupCount_fold u ts : forall G,
  groupCount u (fold_left (fun groups t => countTag t groups) ts G)
  = (groupCount u G + count_occ string_dec ts u)%nat.
Proof.
  induction ts as [|t ts IH]; intros G; cbn; [lia|].
  rewrite IH, groupCount_countTag.
  destruct (string_dec t u) as [->|Hne].
  - rewrite String.eqb_refl. lia.
  - apply String.eqb_neq in Hne. rewrite Hne. lia.
Qed.

Lemma countTag_keys t u G :
  In u (List.map fst (countTag t G)) <-> u = t \/ In u (List.map fst G).
Proof.
  induction G as [|[v n] r IH]; cbn; [intuition congruence|].
  destruct (String.eqb v t) eqn:Hvt; cbn.
  - apply String.eqb_eq in Hvt. subst v. intuition congruence.
  - rewrite IH. intuition congruence.
Qed.

Lemma countTag_NoDup t G :
  List.NoDup (List.map fst G) -> List.NoDup (List.map fst (countTag t G)).
Proof.
  induction G as [|[v n] r IH]; cbn; intros Hnd.
  - constructor; [intros [] | constructor].
  - apply List.NoDup_cons_iff in Hnd as [Hv Hr].
    destruct (String.eqb v t) eqn:Hvt; cbn.
    + apply List.NoDup_cons_iff. split; assumption.
    + apply List.NoDup_cons_iff. split; [|apply IH, Hr].
      rewrite countTag_keys. intros [->|Hin]; [|contradiction].
      rewrite String.eqb_refl in Hvt. discriminate.
Qed.

Lemma groupTags_fold_keys u ts : forall G,
  In u (List.map fst (fold_left (fun groups t => countTag t groups) ts G))
  <-> In u ts \/ In u (List.map fst G).
Proof.
  induction ts as [|t ts IH]; intros G; cbn; [tauto|].
  rewrite IH, countTag_keys. intuition congruence.
Qed.

Lemma groupTags_fold_NoDup ts : forall G,
  List.NoDup (List.map fst G) ->
  List.NoDup (List.map fst (fold_left (fun groups t => countTag t groups) ts G)).
Proof.
  induction ts as [|t ts IH]; intros G HG; cbn; [exact HG|].
  apply IH, countTag_NoDup, HG.
Qed.

Lemma groupCount_In t n G :
  List.NoDup (List.map fst G) -> In (t, n) G -> groupCount t G = n.
Proof.
  unfold groupCount. induction G as [|[v m] r IH]; cbn; [tauto|].
  intros Hnd. apply List.NoDup_cons_iff in Hnd as [Hv Hr].
  intros [[= -> ->]|Hin].
  - rewrite String.eqb_refl. reflexivity.
  - destruct (String.eqb v t) eqn:Hvt; [|apply IH; assumption].
    apply String.eqb_eq in Hvt. subst v. exfalso. apply Hv.
    apply in_map_iff. exists (t, n). split; [reflexivity | exact Hin].
Qed.

Lemma groupTags_count ts t n :
  In (t, n) (groupTags ts) -> n = count_occ string_dec ts t /\ In t ts.
Proof.
  intros Hin. unfold groupTags in *.
  assert (List.NoDup (List.map fst (fold_left (fun groups t => countTag t groups) ts [])))
    as Hnd by (apply groupTags_fold_NoDup; constructor).
  split.
  - rewrite <- (groupCount_In _ _ _ Hnd Hin), groupCount_fold. reflexivity.
  - assert (In t (List.map fst (fold_left (fun groups t => countTag t groups) ts [])))
      as Hk by (apply in_map_iff; exists (t, n); split; [reflexivity | exact Hin]).
    apply groupTags_fold_keys in Hk as [Hk|[]]. exact Hk.
Qed.

Lemma groupTags_complete ts t :
  In t ts -> In (t, count_occ string_dec ts t) (groupTags ts).
Proof.
  intros Hin.
  assert (In t (List.map fst (groupTags ts))) as Hk
      by (apply groupTags_fold_keys; left; exact Hin).
  apply in_map_iff in Hk as ([u n] & Hu & Hg). cbn in Hu. subst u.
  destruct (groupTags_count _ _ _ Hg) as [-> _]. exact Hg.
Qed.

Lemma StronglySorted_firstn {X} (R : X -> X -> Prop) n l :
  StronglySorted R l -> StronglySorted R (firstn n l).
Proof.
  revert n. induction l as [|x l IH]; intros [|n] Hs; cbn; try constructor.
  - apply IH. apply StronglySorted_inv in Hs. tauto.
  - apply StronglySorted_inv in Hs as [_ Hx]. apply Forall_take, Hx.
Qed.

Lemma StronglySorted_split {X} (R : X -> X -> Prop) n l a b :
  StronglySorted R l -> In a (firstn n l) -> In b (skipn n l) -> R a b.
Proof.
  revert n. induction l as [|x l IH]; intros [|n] Hs; cbn; try tauto.
  apply StronglySorted_inv in Hs as [Hl Hx].
  intros [->|Ha] Hb.
  - apply (proj1 (List.Forall_forall _ _) Hx).
    rewrite <- (firstn_skipn n l). apply in_or_app. right. exact Hb.
  - eapply IH; eassumption.
Qed.

Lemma NoDup_firstn {X} n (l : list X) : List.NoDup l -> List.NoDup (firstn n l).
Proof.
  intros H. rewrite <- (firstn_skipn n l) in H.
  exact (NoDup_app_remove_r _ _ H).
Qed.

(** X20.  The top tags of the statistics are the most used tags of the
    published posts: at most ten, no tag twice, in the order of their
    counts, each with the exact number of its uses, which is at least one;
    and a tag in use that is not listed is not used more often than any
    tag of the ten that are. *)
Theorem top_tags_are_the_most_used (w : World) (st : Stats) :
  snd (getBlogStats w) = Ok (AdminJson 200 (StatsBody st)) ->
  (List.length (st_topTags st) <= 10)%nat
  /\ List.NoDup (List.map fst (st_topTags st))
  /\ StronglySorted (fun a b => (snd b <= snd a)%nat) (st_topTags st)
  /\ (forall t n,
        In (t, n) (st_topTags st) ->
        n = tagUses t (docs w) /\ (1 <= n)%nat
        /\ exists k p, docs w !! k = Some p /\ status p = published
                       /\ In t (tags p))
  /\ (forall t,
        (1 <= tagUses t (docs w))%nat ->
        ~ In t (List.map fst (st_topTags st)) ->
        List.length (st_topTags st) = 10%nat
        /\ forall u n, In (u, n) (st_topTags st) ->
                       (tagUses t (docs w) <= n)%nat).
Proof.
  intros Hres. destruct (getBlogStats_run w) as (_ & Hst & _).
  rewrite (Hst st Hres). cbn. unfold tagUses.
  set (ts := unwindTags (selectDocs [FStatus published] (docs w))).
  pose proof (group_sort_perm (groupTags ts)) as Hperm.
  pose proof (group_sort_sorted (groupTags ts)) as Hsorted.
  assert (forall t n, In (t, n) (group_sort (groupTags ts)) ->
            n = count_occ string_dec ts t /\ In t ts) as Hcount.
  { intros t n Hin. apply groupTags_count.
    eapply Permutation_in; [exact Hperm | exact Hin]. }
  split; [rewrite length_firstn; lia|].
  split.
  { rewrite <- firstn_map. apply NoDup_firstn.
    eapply Permutation_NoDup; [apply Permutation_map, Permutation_sym, Hperm|].
    apply groupTags_fold_NoDup. constructor. }
  split; [apply StronglySorted_firstn, Hsorted|].
  split.
  { intros t n Hin. apply In_firstn in Hin.
    destruct (Hcount _ _ Hin) as [Hn Hts]. split; [exact Hn|].
    split; [rewrite Hn; apply (count_occ_In string_dec), Hts|].
    subst ts. unfold unwindTags in Hts.
    apply in_flat_map in Hts as ([k p] & Hkp & Ht).
    apply selectDocs_In in Hkp as [Hlook Hm].
    exists k, p. split; [exact Hlook|]. split; [|exact Ht].
    apply (matchesAll_status _ (k, p) published) in Hm; [exact Hm | left; reflexivity]. }
  intros t Huse Hnot.
  assert (In t ts) as Hts by (apply (count_occ_In string_dec); lia).
  assert (In (t, count_occ string_dec ts t) (group_sort (groupTags ts))) as Hin.
  { eapply Permutation_in; [apply Permutation_sym, Hperm|].
    apply groupTags_complete, Hts. }
  rewrite <- (firstn_skipn 10 (group_sort (groupTags ts))) in Hin.
  apply in_app_or in Hin as [Hin|Hin].
  { exfalso. apply Hnot. apply in_map_iff.
    exists (t, count_occ string_dec ts t). split; [reflexivity | exact Hin]. }
  split.
  - rewrite length_firstn. apply Nat.min_l.
    destruct (le_lt_dec 10 (List.length (group_sort (groupTags ts)))) as [Hle|Hlt];
      [exact Hle|].
    rewrite skipn_all2 in Hin by lia. destruct Hin.
  - intros u n Hu.
    exact (StronglySorted_split _ 10 _ (u, n) (t, count_occ string_dec ts t)
             Hsorted Hu Hin).
Qed.

End AdminFacts.

(** ** The public endpoints *)

Section PublicFacts.
Context {E : Runtime} {D : MongoDriver}.
Import JsString.

Lemma intersects_share xs ys : intersects xs ys = true <-> share xs ys.
Proof.
  unfold intersects, share. rewrite existsb_exists. split.
  - intros (x & Hx & Hy). apply existsb_exists in Hy as (y & Hy & Heq).
    apply String.eqb_eq in Heq. subst y. eauto.
  - intros (t & Hx & Hy). exists t. split; [exact Hx|].
    apply existsb_exists. exists t. split; [exact Hy | apply String.eqb_refl].
Qed.

Lemma matchesAll_In q kp f :
  In f q -> matchesAll q kp = true -> matches f (fst kp) (snd kp) = true.
Proof.
  unfold matchesAll. intros Hin Hall.
  rewrite forallb_forall in Hall. exact (Hall _ Hin).
Qed.

Lemma find_page_run q sort l k w :
  fst (BlogPost_find_page q sort l k w) = w
  /\ forall posts,
       snd (BlogPost_find_page q sort l k w) = Ok posts ->
       exists page,
         cursor_window l k (cursor_sort sort (selectDocs q (docs w))) = Ok page
         /\ posts = List.map omitContent page.
Proof.
  unfold BlogPost_find_page, bind, db_call, get, lift, ret.
  destruct (db_fault _ _); [split; [reflexivity | discriminate]|].
  destruct (cursor_window _ _ _) as [page|]; cbn;
    (split; [reflexivity|]); [|discriminate].
  intros posts [= <-]. eauto.
Qed.

Lemma countDocuments_run q w :
  fst (BlogPost_countDocuments q w) = w
  /\ forall n, snd (BlogPost_countDocuments q w) = Ok n ->
               n = List.length (selectDocs q (docs w)).
Proof.
  unfold BlogPost_countDocuments, bind, db_call, get, ret.
  destruct (db_fault _ _); cbn; (split; [reflexivity|]); [discriminate|].
  intros n [= <-]. reflexivity.
Qed.

Lemma getFeatured_run n w :
  fst (getFeatured n w) = w
  /\ forall posts,
       snd (getFeatured n w) = Ok posts ->
       posts = firstn n (cursor_sort byPublishedAtDesc
                           (selectDocs [FStatus published; FFeatured true] (docs w))).
Proof.
  unfold getFeatured, bind, db_call, get, ret.
  destruct (db_fault _ _); cbn; (split; [reflexivity|]); [discriminate|].
  intros posts [= <-]. reflexivity.
Qed.

(** [getBlogPosts] on its successful path. *)
Lemma getBlogPosts_run query w code posts results total totalPages currentPage
    featuredPosts :
  snd (getBlogPosts query w)
  = Ok (Json code (BlogList posts results total totalPages currentPage
                     featuredPosts)) ->
  let page := param query "page" (JNum 1) in
  let limit := param query "limit" (JNum 10) in
  let featured := param query "featured" JUndefined in
  let tags := param query "tags" JUndefined in
  let categories := param query "categories" JUndefined in
  let search := param query "search" JUndefined in
  let sort := param query "sort" (JStr "-publishedAt") in
  exists q window,
    buildQuery featured tags categories search = Ok q
    /\ cursor_window (parseInt limit)
         (optMul (option_map (fun x => x - 1) (parseInt page)) (parseInt limit))
         (cursor_sort sort (selectDocs q (docs w))) = Ok window
    /\ posts = List.map omitContent window
    /\ code = 200
    /\ results = List.length posts
    /\ total = List.length (selectDocs q (docs w))
    /\ totalPages = ceilDiv (Z.of_nat total) (parseInt limit)
    /\ currentPage = parseInt page
    /\ forall l, featuredPosts = Some l ->
         l <> []
         /\ l = firstn 3 (cursor_sort byPublishedAtDesc
                            (selectDocs [FStatus published; FFeatured true] (docs w)))
         /\ truthy featured = false /\ truthy tags = false
         /\ truthy categories = false /\ truthy search = false
         /\ looseEq1 page = true.
Proof.
  intros Hres page limit featured tags categories search sort. revert Hres.
  unfold getBlogPosts, try_catch, bind at 1, lift.
  fold page limit featured tags categories search sort.
  destruct (buildQuery _ _ _ _) as [q|e] eqn:Hq; [|discriminate].
  unfold bind at 1.
  destruct (find_page_run q sort (parseInt limit)
              (optMul (option_map (fun x => x - 1) (parseInt page)) (parseInt limit)) w)
    as [Hw1 Hp].
  destruct (BlogPost_find_page _ _ _ _ w) as [w1 [ps|e]]; [|discriminate].
  cbn in Hw1. subst w1. destruct (Hp ps eq_refl) as (window & Hwin & ->).
  unfold bind at 1.
  destruct (countDocuments_run q w) as [Hw2 Hc].
  destruct (BlogPost_countDocuments q w) as [w2 [n|e]]; [|discriminate].
  cbn in Hw2. subst w2. rewrite (Hc n eq_refl).
  unfold bind at 1.
  destruct (negb (truthy featured) && negb (truthy tags)
            && negb (truthy categories) && negb (truthy search)
            && looseEq1 page) eqn:Hcond.
  - destruct (getFeatured_run 3 w) as [Hw3 Hf].
    destruct (getFeatured 3 w) as [w3 [fs|e]]; [|discriminate].
    cbn in Hw3. subst w3. rewrite (Hf fs eq_refl).
    unfold ret. cbn [snd fst]. intros H. injection H as <- <- <- <- <- <- <-.
    exists q, window. do 8 (split; [assumption || reflexivity|]).
    intros l Hl.
    repeat (apply andb_true_iff in Hcond as [Hcond ?]).
    destruct (firstn 3 _) eqn:Hfs; [discriminate|]. injection Hl as <-.
    repeat split; try discriminate; try (apply negb_true_iff; assumption); assumption.
  - unfold ret. cbn [snd fst]. intros H. injection H as <- <- <- <- <- <- <-.
    exists q, window. do 8 (split; [assumption || reflexivity|]).
    intros l Hl. discriminate.
Qed.

Lemma getBlogPosts_world query w : fst (getBlogPosts query w) = w.
Proof.
  unfold getBlogPosts, try_catch, bind at 1, lift.
  destruct (buildQuery _ _ _ _) as [q|e]; [|reflexivity].
  unfold bind at 1.
  match goal with
  | |- context [BlogPost_find_page ?a ?b ?c ?d w] =>
      destruct (find_page_run a b c d w) as [Hw1 _];
      destruct (BlogPost_find_page a b c d w) as [w1 [ps|e1]]
  end; cbn in Hw1; subst w1; [|reflexivity].
  unfold bind at 1.
  destruct (countDocuments_run q w) as [Hw2 _].
  destruct (BlogPost_countDocuments q w) as [w2 [n|e2]]; cbn in Hw2; subst w2;
    [|reflexivity].
  unfold bind at 1.
  match goal with
  | |- context [if ?c then getFeatured 3 else ret []] => destruct c
  end; [|reflexivity].
  destruct (getFeatured_run 3 w) as [Hw3 _].
  destruct (getFeatured 3 w) as [w3 [fs|e3]]; cbn in Hw3; subst w3; reflexivity.
Qed.

Lemma ceilDiv_bounds total l :
  0 < l -> exists tp, ceilDiv total (Some l) = Some tp
                      /\ (tp - 1) * l < total <= tp * l.
Proof.
  intros Hl. unfold ceilDiv.
  destruct (l =? 0) eqn:H0; [apply Z.eqb_eq in H0; lia|].
  eexists. split; [reflexivity|].
  pose proof (Z.div_mod (- total) l ltac:(lia)) as Hdm.
  pose proof (Z.mod_pos_bound (- total) l Hl) as Hr.
  set (qq := - total / l) in *. set (rr := (- total) mod l) in *.
  clearbody qq rr. clear H0.
  assert (total = - (l * qq + rr)) as Ht by (rewrite <- Hdm; ring).
  rewrite Ht. clear Ht Hdm. split; nia.
Qed.

(** X21.  The pages of the list.  With a positive limit and a page from 1
    on (the defaults are 10 and 1), a list response has status 200, shows
    at most [limit] posts and reports their number; the total is the
    number of posts that match, the page count times the limit covers the
    total with less than one page to spare, a page past the end is empty,
    and the request changes nothing. *)
Theorem list_pages_are_consistent
    (query : gmap string JsVal) (w : World) (l pg : Z) (code : Z)
    (posts : list (nat * Post)) (results total : nat)
    (totalPages currentPage : option Z)
    (featuredPosts : option (list (nat * Post))) :
  parseInt (param query "limit" (JNum 10)) = Some l -> 0 < l ->
  parseInt (param query "page" (JNum 1)) = Some pg -> 1 <= pg ->
  snd (getBlogPosts query w)
  = Ok (Json code (BlogList posts results total totalPages currentPage
                     featuredPosts)) ->
  code = 200
  /\ results = List.length posts
  /\ Z.of_nat results <= l
  /\ (results <= total)%nat
  /\ currentPage = Some pg
  /\ (exists tp, totalPages = Some tp
                 /\ (tp - 1) * l < Z.of_nat total <= tp * l)
  /\ (Z.of_nat total <= (pg - 1) * l -> posts = [])
  /\ fst (getBlogPosts query w) = w.
Proof.
  intros Hl Hlpos Hpg Hpgpos Hres.
  destruct (getBlogPosts_run _ _ _ _ _ _ _ _ _ Hres)
    as (q & window & _ & Hwin & -> & -> & -> & -> & -> & -> & _).
  pose proof (getBlogPosts_world query w) as Hw.
  rewrite Hl, Hpg in *. cbn [option_map optMul] in Hwin.
  rewrite cursor_window_regular in Hwin by nia. injection Hwin as <-.
  pose proof (Permutation_length (cursor_sort_perm (param query "sort" (JStr "-publishedAt"))
                                    (selectDocs q (docs w)))) as Hlen.
  rewrite !length_map, length_firstn, length_skipn, Hlen.
  split; [reflexivity|]. split; [reflexivity|].
  split; [lia|]. split; [lia|]. split; [reflexivity|].
  split; [apply ceilDiv_bounds, Hlpos|].
  split; [|exact Hw].
  intros Hpast. rewrite skipn_all2; [destruct (Z.to_nat l); reflexivity|].
  rewrite Hlen. lia.
Qed.

Lemma buildQuery_filters f t c s q :
  buildQuery f t c s = Ok q ->
  (isString "true" f = true -> In (FFeatured true) q)
  /\ (truthy t = true -> In (FTagsIn (asked t)) q)
  /\ (truthy c = true -> In (FCategoriesIn (asked c)) q).
Proof.
  unfold buildQuery, bindRes, splitTrim, asked.
  destruct (isString "true" f) eqn:Hf;
    destruct (truthy t) eqn:Ht; [destruct t; try discriminate| |destruct t; try discriminate|];
    (destruct (truthy c) eqn:Hc; [destruct c; try discriminate|]);
    (destruct (truthy s); [destruct (RegExp_valid s); [|discriminate]|]);
    intros [= <-]; repeat split; intros; try discriminate;
    rewrite ?in_app_iff; cbn; tauto.
Qed.

(** X22.  The filters of the list are honoured, and the featured strip
    appears only on the unfiltered first page.  Every post of a list
    response is featured when [featured=true] is asked, carries one of
    the tags asked for and one of the categories asked for; the featured
    strip, when present, holds one to three posts, all published and
    featured, and no filter was given. *)
Theorem list_filters_are_honoured
    (query : gmap string JsVal) (w : World) (code : Z)
    (posts : list (nat * Post)) (results total : nat)
    (totalPages currentPage : option Z)
    (featuredPosts : option (list (nat * Post))) :
  snd (getBlogPosts query w)
  = Ok (Json code (BlogList posts results total totalPages currentPage
                     featuredPosts)) ->
  let byFeatured := param query "featured" JUndefined in
  let byTags := param query "tags" JUndefined in
  let byCategories := param query "categories" JUndefined in
  List.Forall
    (fun kp =>
       (byFeatured = JStr "true" -> featured (snd kp) = true)
       /\ (truthy byTags = true -> share (tags (snd kp)) (asked byTags))
       /\ (truthy byCategories = true ->
           share (categories (snd kp)) (asked byCategories)))
    posts
  /\ (forall l, featuredPosts = Some l ->
        (1 <= List.length l <= 3)%nat
        /\ List.Forall (fun kp => status (snd kp) = published
                                  /\ featured (snd kp) = true) l
        /\ truthy byFeatured = false /\ truthy byTags = false
        /\ truthy byCategories = false
        /\ truthy (param query "search" JUndefined) = false).
Proof.
  intros Hres byFeatured byTags byCategories.
  destruct (getBlogPosts_run _ _ _ _ _ _ _ _ _ Hres)
    as (q & window & Hq & Hwin & -> & _ & _ & _ & _ & _ & Hstrip).
  fold byFeatured byTags byCategories in Hq, Hstrip.
  apply buildQuery_filters in Hq as (Hf & Ht & Hc).
  split.
  - apply List.Forall_forall. intros kp Hin.
    apply in_map_iff in Hin as (kp0 & <- & Hin).
    apply cursor_window_incl in Hwin. apply Hwin in Hin.
    eapply Permutation_in in Hin; [|apply cursor_sort_perm].
    apply selectDocs_In in Hin as [_ Hm].
    cbn [omitContent snd featured tags categories].
    split; [|split].
    + intros Heq. eapply matchesAll_featured; [|exact Hm].
      apply Hf. rewrite Heq. reflexivity.
    + intros Htr. apply intersects_share.
      exact (matchesAll_In _ _ _ (Ht Htr) Hm).
    + intros Htr. apply intersects_share.
      exact (matchesAll_In _ _ _ (Hc Htr) Hm).
  - intros l Hl. destruct (Hstrip l Hl) as (Hne & Heq & H1 & H2 & H3 & H4 & _).
    split.
    { rewrite Heq in Hne |- *.
      match goal with
      | |- context [firstn 3 ?L] => pose proof (length_firstn 3 L) as Hlen
      end.
      destruct (firstn 3 _); [congruence|]. cbn [List.length] in *. lia. }
    split; [|tauto].
    apply List.Forall_forall. intros kp Hin. rewrite Heq in Hin.
    apply In_firstn in Hin.
    eapply Permutation_in in Hin; [|apply cursor_sort_perm].
    apply selectDocs_In in Hin as [_ Hm]. split.
    + eapply matchesAll_status; [|exact Hm]. left. reflexivity.
    + eapply matchesAll_featured; [|exact Hm]. right. left. reflexivity.
Qed.

(** [getBlogPost] on its successful path. *)
Lemma getBlogPost_run s w body :
  snd (getBlogPost s w) = Ok (Json 200 body) ->
  exists id p,
    docs w !! id = Some p /\ slug p = s /\ status p = published
    /\ let p' := preSave (set_views (views p + 1) (clock w) p) in
       let d' := <[id := p']> (docs w) in
       docs (fst (getBlogPost s w)) = d'
       /\ body = BlogOne (id, p')
                   (List.map omitContent
                      (firstn 3
                         (cursor_sort byPublishedAtDesc
                            (selectDocs
                               [FIdNe id; FStatus published;
                                FOr [FTagsIn (tags p');
                                     FCategoriesIn (categories p')]] d')))).
Proof.
  cunfold.
  destruct (db_fault (CallFindOne_slug s) (docs w)) as [e|].
  { destruct (isCastError e); cbn; discriminate. }
  destruct (findFirst _ (docs w)) as [[id p]|] eqn:Hfind; [|discriminate].
  apply findFirst_Some in Hfind as [Hk Hp].
  apply andb_true_iff in Hp as [Hs Hst].
  apply String.eqb_eq in Hs. apply bool_decide_eq_true in Hst.
  world_simpl.
  destruct (db_fault (CallSave _ _) _) as [e|].
  { destruct (isCastError e); cbn; discriminate. }
  world_simpl.
  destruct (db_fault (CallFind _) _) as [e|].
  { destruct (isCastError e); cbn; discriminate. }
  cbn. intros H. injection H as <-.
  exists id, p. repeat split; assumption.
Qed.

(** X23.  The related posts of a viewed post: at most three, never the
    viewed post itself, each a stored published post shown without its
    content, and each sharing a tag or a category with the viewed post. *)
Theorem related_posts_are_related (s : string) (w : World)
    (id : nat) (post : Post) (related : list (nat * Post)) :
  snd (getBlogPost s w) = Ok (Json 200 (BlogOne (id, post) related)) ->
  (List.length related <= 3)%nat
  /\ List.Forall
       (fun kp =>
          fst kp <> id
          /\ (exists q, docs w !! fst kp = Some q /\ kp = omitContent (fst kp, q))
          /\ status (snd kp) = published
          /\ content (snd kp) = ""
          /\ (share (tags (snd kp)) (tags post)
              \/ share (categories (snd kp)) (categories post)))
       related.
Proof.
  intros Hres.
  destruct (getBlogPost_run _ _ _ Hres) as (id' & p & Hk & _ & _ & _ & Hbody).
  cbv zeta in Hbody. injection Hbody as <- -> ->.
  split; [rewrite length_map, length_firstn; lia|].
  apply List.Forall_forall. intros kp Hin.
  apply in_map_iff in Hin as ([k q] & <- & Hin).
  apply In_firstn in Hin.
  eapply Permutation_in in Hin; [|apply cursor_sort_perm].
  apply selectDocs_In in Hin as [Hlook Hm]. cbn [fst snd] in Hlook.
  unfold matchesAll in Hm. cbn [forallb matches fst snd existsb] in Hm.
  apply andb_true_iff in Hm as [Hne Hm].
  apply andb_true_iff in Hm as [Hst Hm].
  rewrite andb_true_r, orb_false_r in Hm.
  apply negb_true_iff, Nat.eqb_neq in Hne.
  apply bool_decide_eq_true in Hst.
  rewrite lookup_insert_ne in Hlook by congruence.
  cbn [omitContent fst snd status content tags categories].
  split; [exact Hne|]. split; [eauto|]. split; [exact Hst|].
  split; [reflexivity|].
  apply orb_true_iff in Hm as [Hm|Hm]; apply intersects_share in Hm; auto.
Qed.

(** X24.  What an admin update stores is what it answers.  A body that
    fails validation is answered 400 and nothing changes; a 200 response
    shows the addressed post as it is stored after the update, with
    [featured] and [status] as the body asks (a boolean as given, a status
    name as the status it names) and as they were where the body is
    silent. *)
Theorem update_response_is_the_stored_post
    (idText : string) (body : gmap string JsVal) (w : World) :
  (validationResult body <> [] ->
   exists errors,
     updateBlogPost idText body w = (w, Ok (Json 400 (ValidationFailed errors))))
  /\ (forall b,
        snd (updateBlogPost idText body w) = Ok (Json 200 b) ->
        exists id p p',
          castObjectId idText = Some id
          /\ docs w !! id = Some p
          /\ b = BlogUpdated (id, p')
          /\ docs (fst (updateBlogPost idText body w)) = <[id := p']> (docs w)
          /\ (field body "featured" = JUndefined -> featured p' = featured p)
          /\ (forall f, field body "featured" = JBool f -> featured p' = f)
          /\ (field body "status" = JUndefined -> status p' = status p)
          /\ (field body "status" = JStr "published" -> status p' = published)
          /\ (field body "status" = JStr "draft" -> status p' = draft)
          /\ (field body "status" = JStr "archived" -> status p' = archived)).
Proof.
  cunfold. split.
  - destruct (validationResult body); [congruence | eauto].
  - intros b. destruct (validationResult body); [|discriminate].
    destruct (castObjectId idText) as [id|]; [|discriminate].
    destruct (buildUpdate body) as [u|e] eqn:Hu;
      [|destruct (isCastError e); discriminate].
    world_simpl. destruct (db_fault _ _) as [e|];
      [destruct (isCastError e); discriminate|].
    world_simpl.
    destruct (docs w !! id) as [p|] eqn:Hp; [|discriminate].
    cbn [fst snd docs set_docs]. intros [= <-].
    exists id, p, (adminUpdate u (clock w) p).
    do 4 (split; [reflexivity || exact Hp|]).
    revert Hu. unfold buildUpdate, bindRes, castOpt.
    destruct (field body "featured") as [| |f|n|fs| |] eqn:Hf; cbn [castBoolean].
    all: try discriminate.
    all: destruct (field body "status") as [| |g|m|ss| |] eqn:Hs; cbn [castStatus].
    all: try discriminate.
    all: try (destruct n as [|[]|]; try discriminate).
    all: try (destruct (existsb (String.eqb fs) ["true"; "1"; "yes"]);
              [|destruct (existsb (String.eqb fs) ["false"; "0"; "no"]);
                [|discriminate]]).
    all: try (destruct (String.eqb ss "published") eqn:H1;
              [|destruct (String.eqb ss "draft") eqn:H2;
                [|destruct (String.eqb ss "archived") eqn:H3; [|discriminate]]]).
    all: intros [= <-]; cbn.
    all: repeat split; intros; try discriminate; try reflexivity; try congruence.
    all: try (match goal with
              | H : JStr ?a = JStr _ |- _ => injection H as ->
              end; discriminate).
Qed.

End PublicFacts.

Section Composition.
Context {E : Runtime} {D : MongoDriver} {A : AdminDriver}.

Lemma selectDocs_insert q (m : gmap nat Post) id p' :
  Permutation (selectDocs q (<[id := p']> m))
    (app (if matchesAll q (id, p') then [(id, p')] else [])
         (selectDocs q (delete id m))).
Proof.
  unfold selectDocs. rewrite <- (insert_delete_eq m id p').
  etransitivity.
  - apply Permutation_filter_bool, map_to_list_insert, lookup_delete_eq.
  - cbn [List.filter]. destruct (matchesAll q (id, p')); reflexivity.
Qed.

Lemma selectDocs_lookup q (m : gmap nat Post) id p :
  m !! id = Some p ->
  Permutation (selectDocs q m)
    (app (if matchesAll q (id, p) then [(id, p)] else [])
         (selectDocs q (delete id m))).
Proof.
  intros Hk. rewrite <- (insert_id m id p Hk) at 1. apply selectDocs_insert.
Qed.

(** X25.  A view shows in the statistics as exactly one more view: between
    the statistics before and after a successful read of a post, the
    total of views grows by one, and the total of likes and the three
    counts of posts stay as they are. *)
Theorem a_view_adds_one_to_the_total_views
    (s : string) (w : World) (body : Body) (st st' : Stats) :
  snd (getBlogPost s w) = Ok (Json 200 body) ->
  snd (getBlogStats w) = Ok (AdminJson 200 (StatsBody st)) ->
  snd (getBlogStats (fst (getBlogPost s w)))
  = Ok (AdminJson 200 (StatsBody st')) ->
  st_totalViews st' = st_totalViews st + 1
  /\ st_totalLikes st' = st_totalLikes st
  /\ st_totalPosts st' = st_totalPosts st
  /\ st_featuredPosts st' = st_featuredPosts st
  /\ st_draftPosts st' = st_draftPosts st.
Proof.
  intros Hview Hst Hst'.
  destruct (getBlogPost_run _ _ _ Hview) as (id & p & Hk & _ & Hpub & Hd & _).
  cbv zeta in Hd.
  destruct (getBlogStats_run w) as (_ & Hs & _). rewrite (Hs st Hst).
  destruct (getBlogStats_run (fst (getBlogPost s w))) as (_ & Hs' & _).
  rewrite (Hs' st' Hst'). rewrite Hd. cbn [st_totalViews st_totalLikes
    st_totalPosts st_featuredPosts st_draftPosts].
  set (p' := preSave (set_views (views p + 1) (clock w) p)).
  assert (forall q, (forall k, matchesAll q (k, p') = matchesAll q (k, p)) ->
            List.length (selectDocs q (<[id := p']> (docs w)))
            = List.length (selectDocs q (docs w))) as Hlen.
  { intros q Hq.
    rewrite (Permutation_length (selectDocs_insert q (docs w) id p')).
    rewrite (Permutation_length (selectDocs_lookup q (docs w) id p Hk)).
    rewrite Hq. destruct (matchesAll q (id, p)); reflexivity. }
  assert (forall f, sumOf f (selectDocs [FStatus published] (<[id := p']> (docs w)))
                    = sumOf f (selectDocs [FStatus published] (docs w)) + f p' - f p)
    as Hsum.
  { intros f.
    rewrite (sumOf_perm f _ _ (selectDocs_insert [FStatus published] (docs w) id p')).
    rewrite (sumOf_perm f _ _ (selectDocs_lookup [FStatus published] (docs w) id p Hk)).
    unfold matchesAll. cbn [forallb matches fst snd status p' preSave set_views].
    rewrite Hpub. rewrite bool_decide_eq_true_2 by reflexivity.
    cbn [andb app]. unfold sumOf. cbn [fold_right snd]. lia. }
  rewrite !Hsum. cbn [views likes p' preSave set_views].
  split; [lia|]. split; [lia|].
  repeat split; apply Hlen; intros k; reflexivity.
Qed.

End Composition.

(** ** Concrete runs *)

Module MoreRuns.
Import JsString TextShape Demo DemoAdmin.

#[local] Existing Instance engine.
#[local] Existing Instance driver.
#[local] Existing Instance adminDriver.

(** X2 at the guid of [item1]. *)
Lemma generateMediumId_trailing_hex_witness :
  generateMediumId (JStr "https://medium.com/p/abc123def456")
  = Ok (Some "abc123def456").
Proof.
  exact (generateMediumId_takes_trailing_hex "https://medium.com/p" "abc123def456"
           ltac:(discriminate) eq_refl).
Defined.

(** X3 at a guid that does not end in an identifier: twelve letters and
    digits of its base64 form. *)
Lemma generateMediumId_usable_witness :
  exists id,
    generateMediumId (JStr "urn:uuid:Post 42") = Ok (Some id)
    /\ all isAlnum id = true
    /\ (String.length id <= 12)%nat.
Proof.
  destruct (generateMediumId_of_text_is_usable "urn:uuid:Post 42"
              ltac:(discriminate)) as (id & Hid & _ & Halnum & Hlen).
  exists id. split; [exact Hid|]. split; [exact Halnum|].
  apply Hlen. vm_compute. reflexivity.
Defined.

(** X7 at [item1]. *)
Lemma parsed_record_witness :
  1 <= ad_readingTime ad1 /\ ad_title ad1 <> ""
  /\ tagFree (ad_excerpt ad1) = true.
Proof.
  destruct (parsed_record_is_well_formed (clock world) item1 ad1
              DemoRuns.parse_item1) as (Hr & Ht & _ & _ & Hfree & _).
  split; [exact Hr|]. split; [exact Ht | exact Hfree].
Defined.

(** X11 at a feed whose only entry has no identifier. *)
Lemma quiet_run_witness :
  docs (fst (syncArticles (feedOf [item0]) world)) = docs world.
Proof.
  apply (quiet_run_changes_nothing (feedOf [item0]) world
           (SyncDone 0 0 1)); vm_compute; reflexivity.
Defined.

(** X12 at [item1] with a driver that rejects the update of its stored
    post. *)
Lemma failed_entry_witness :
  errorCount (fst (syncItem (D:=rejectingDriver) item1 world)) = 1%nat
  /\ syncedCount (fst (syncItem (D:=rejectingDriver) item1 world)) = 0%nat
  /\ exists now stamp,
       docs (fst (syncItem (D:=rejectingDriver) item1 world))
       = <[7%nat := markFailed now stamp post1]> (docs world).
Proof.
  destruct (failed_entry_is_counted_and_marked (D:=rejectingDriver) item1 world
              (mkExn "MongoNetworkError" "connection lost"))
    as (_ & He & Hs & _ & Hmark).
  - vm_compute. reflexivity.
  - split; [exact He|]. split; [exact Hs|].
    apply (Hmark (clock world) ad1 "abc123def456" 7%nat post1).
    + exact DemoRuns.parse_item1.
    + vm_compute. reflexivity.
    + vm_compute. reflexivity.
    + reflexivity.
Defined.

Lemma world2_slug_hello k q :
  docs world2 !! k = Some q -> slug q = slug post1 -> k = 7%nat.
Proof.
  unfold world2. cbn [docs]. intros Hk Hs.
  apply lookup_insert_Some in Hk as [[_ <-]|[_ Hk]]; [discriminate|].
  apply lookup_singleton_Some in Hk as [<- _]. reflexivity.
Qed.

(** X18 at [post1]: once deleted, a second request and the public read of
    its slug are answered 404. *)
Lemma deleted_post_witness :
  let w' := fst (deleteBlogPost (Some "admin") post1Id world2) in
  snd (deleteBlogPost (Some "admin") post1Id w')
  = Ok (AdminJson 404 (AdminError "Blog post not found"))
  /\ snd (getBlogPost "hello" w')
     = Ok (Json 404 (ErrorBody "Blog post not found")).
Proof.
  intros w'.
  destruct (deleted_post_is_gone (Some "admin") post1Id
              world2 (Deleted "Blog post deleted successfully"))
    as [Hagain Hread].
  - vm_compute. reflexivity.
  - split.
    + exact (f_equal snd (Hagain (Some "admin") 7%nat eq_refl eq_refl)).
    + exact (f_equal snd
               (Hread 7%nat post1 eq_refl eq_refl world2_slug_hello eq_refl)).
Defined.

(** X20 at [world4]: the published posts use web twice and react once. *)
Lemma top_tags_witness :
  st_topTags (statsOf world4) = [("web", 2%nat); ("react", 1%nat)]
  /\ forall t n, In (t, n) (st_topTags (statsOf world4)) ->
                 n = tagUses t (docs world4).
Proof.
  split; [vm_compute; reflexivity|].
  intros t n Hin.
  destruct (top_tags_are_the_most_used world4
              (statsOf world4)) as (_ & _ & _ & Hcount & _).
  - vm_compute. reflexivity.
  - apply (Hcount t n Hin).
Defined.

(** X21 at the default query on [world2]: one post, one page. *)
Lemma list_pages_witness :
  List.length listedPosts = 1%nat
  /\ fst (getBlogPosts ∅ world2) = world2.
Proof.
  destruct (list_pages_are_consistent ∅ world2 10 1 200
              listedPosts 1%nat 1%nat (Some 1) (Some 1) listedFeatured)
    as (_ & Hres & _ & _ & _ & _ & _ & Hw).
  - reflexivity.
  - lia.
  - reflexivity.
  - lia.
  - vm_compute. reflexivity.
  - split; [symmetry; exact Hres | exact Hw].
Defined.

(** X22 at the tags react and css on [world4]: only the second post is
    listed. *)
Lemma list_filters_witness :
  List.map fst (postsOf (snd (getBlogPosts tagQuery world4))) = [8%nat]
  /\ List.Forall (fun kp => share (tags (snd kp)) ["react"; "css"])
       (postsOf (snd (getBlogPosts tagQuery world4))).
Proof.
  split; [vm_compute; reflexivity|].
  destruct (list_filters_are_honoured tagQuery world4 200
              (postsOf (snd (getBlogPosts tagQuery world4)))
              1%nat 1%nat (Some 1) (Some 1) None) as [Hposts _].
  - vm_compute. reflexivity.
  - eapply List.Forall_impl; [|exact Hposts].
    intros kp (_ & Ht & _). apply Ht. reflexivity.
Defined.

(** X23 at the view of [post1] in [world4]: the second post shares the tag
    web; the draft, which shares it too, is not shown. *)
Lemma related_posts_witness :
  List.map fst (relatedOf (snd (getBlogPost "hello" world4))) = [8%nat]
  /\ List.Forall (fun kp => fst kp <> 7%nat /\ status (snd kp) = published)
       (relatedOf (snd (getBlogPost "hello" world4))).
Proof.
  split; [vm_compute; reflexivity|].
  destruct (related_posts_are_related "hello" world4 7%nat
              (snd (viewedOf (snd (getBlogPost "hello" world4))))
              (relatedOf (snd (getBlogPost "hello" world4))))
    as [_ Hall].
  - vm_compute. reflexivity.
  - eapply List.Forall_impl; [|exact Hall].
    intros kp (Hne & _ & Hst & _). split; assumption.
Defined.

(** X25 at the view of [post1] in [world4]: 52 views become 53. *)
Lemma view_in_stats_witness :
  st_totalViews (statsOf world4) = 52
  /\ st_totalViews (statsOf (fst (getBlogPost "hello" world4))) = 53.
Proof.
  split; [vm_compute; reflexivity|].
  destruct (a_view_adds_one_to_the_total_views "hello"
              world4
              (BlogOne (viewedOf (snd (getBlogPost "hello" world4)))
                 (relatedOf (snd (getBlogPost "hello" world4))))
              (statsOf world4)
              (statsOf (fst (getBlogPost "hello" world4))))
    as (Hv & _).
  - vm_compute. reflexivity.
  - vm_compute. reflexivity.
  - vm_compute. reflexivity.
  - rewrite Hv. vm_compute. reflexivity.
Defined.

End MoreRuns.
